(** * Active-application handling of the bootloader

    A shallow embedding of [source/active_application.cpp]: header read,
    whole-image verification, sector-wise erase, page-wise programming,
    the replace-in-place sequence and the mirror into a block device.

    The flash driver (FlashIAP), the SHA-256 primitive (mbedtls), the
    update-client calls (ARM_UCP_...), the header codec and the block
    device adapter are consumed by the file, not defined in it: they are
    fields of [Platform], together with the build-time constants.  Every
    call of a capability is recorded in a trace, so that statements about
    which calls a run issues, and in which order, can be made. *)

From Stdlib Require Import ZArith List Lia Bool String.
From Stdlib Require Import Strings.Byte.
Import ListNotations.
Open Scope Z_scope.

(** ** Machine integers *)

Definition u32 (z : Z) : Z := z mod 2 ^ 32.

(** ** Data model *)

(** The fields of [arm_uc_firmware_details_t] the file reads:
    [uint64_t version], [uint64_t size], [uint8_t hash[SIZEOF_SHA256]]. *)
Record arm_uc_firmware_details_t : Type := mkDetails {
  version : Z;
  size : Z;
  hash : list byte
}.

(** The three return codes of the [int]-returning entry points. *)
Inductive result : Type := RESULT_SUCCESS | RESULT_ERROR | RESULT_EMPTY.

Definition result_eqb (a b : result) : bool :=
  match a, b with
  | RESULT_SUCCESS, RESULT_SUCCESS => true
  | RESULT_ERROR, RESULT_ERROR => true
  | RESULT_EMPTY, RESULT_EMPTY => true
  | _, _ => false
  end.

Definition SIZEOF_SHA256 : Z := 32.

(** Which object a program call takes its bytes from. *)
Inductive Src : Type := SrcBuffer | SrcDetails.

(** One entry per call that leaves the file, in call order, with the
    status the call returned where it has one.  [EvLog fn] stands for
    the message the function [fn] prints when it is entered
    ([tr_debug] or [printf] as its first statement); the other log
    output and [wait_ms] are not recorded. *)
Inductive Event : Type :=
| EvLog (fn : string)
| EvGetDetails
| EvFlashRead (addr len status : Z)
| EvHashUpdate (data : list byte)
| EvFlashErase (addr len status : Z)
| EvFlashProgram (addr len status : Z)
| EvCreateHeader
| EvUcpRead (index offset len : Z)
| EvBdInit (status : Z)
| EvBdRead (addr len status : Z)
| EvBdProgram (src : Src) (addr len status : Z)
| EvBdSha (addr len : Z).

(** [memcmp] over the first [n] bytes: 0 when they agree, the sign of the
    first difference otherwise. *)
Fixpoint memcmp_nat (a b : list byte) (n : nat) {struct n} : Z :=
  match n with
  | O => 0
  | S k =>
    match a, b with
    | x :: a', y :: b' =>
      if Byte.eqb x y then memcmp_nat a' b' k
      else if (N.ltb (Byte.to_N x) (Byte.to_N y)) then -1 else 1
    | [], [] => 0
    | [], _ :: _ => -1
    | _ :: _, [] => 1
    end
  end.

Definition memcmp (a b : list byte) (n : Z) : Z := memcmp_nat a b (Z.to_nat n).

Section Bootloader.

(** State of everything outside the file: flash contents, block device,
    update client. *)
Variable Env : Type.

(** Reply of an asynchronous update-client call: the status the call
    returns, the value of [event_callback] at each later sampling
    ([ucp_signal 0] is the value right after the call returns), and what
    the operation leaves in the caller's memory. *)
Record UcpReply (T : Type) : Type := mkReply {
  ucp_error : Z;
  ucp_signal : nat -> Z;
  ucp_data : T;
  ucp_env : Env
}.
Arguments ucp_error {T}.
Arguments ucp_signal {T}.
Arguments ucp_data {T}.
Arguments ucp_env {T}.

Record Platform : Type := mkPlatform {
  (* build-time configuration *)
  BUFFER_SIZE : Z;
  MBED_CONF_APP_APPLICATION_START_ADDRESS : Z;
  MBED_CONF_APP_MAX_APPLICATION_SIZE : Z;
  FIRMWARE_METADATA_HEADER_ADDRESS : Z;
  FIRMWARE_METADATA_HEADER_SIZE : Z;
  ARM_UC_INTERNAL_HEADER_SIZE_V2 : Z;
  sizeof_details : Z;
  ERR_NONE : Z;
  CLEAR_EVENT : Z;
  ARM_UC_PAAL_EVENT_GET_ACTIVE_FIRMWARE_DETAILS_DONE : Z;
  ARM_UC_PAAL_EVENT_READ_DONE : Z;
  BD_ERROR_OK : Z;
  (* FlashIAP: buffer, address, size *)
  flash_read : Env -> list byte -> Z -> Z -> Z * list byte * Env;
  flash_program : Env -> list byte -> Z -> Z -> Z * Env;
  flash_erase : Env -> Z -> Z -> Z * Env;
  flash_get_sector_size : Env -> Z -> Z;
  flash_get_page_size : Env -> Z;
  (* mbedtls SHA-256 *)
  mbedtls_sha256_context : Type;
  mbedtls_sha256_starts : mbedtls_sha256_context;
  mbedtls_sha256_update :
    mbedtls_sha256_context -> list byte -> mbedtls_sha256_context;
  mbedtls_sha256_finish : mbedtls_sha256_context -> list byte;
  (* update client and header codec *)
  ARM_UCP_GetActiveFirmwareDetails :
    Env -> arm_uc_firmware_details_t -> UcpReply arm_uc_firmware_details_t;
  ARM_UCP_Read :
    Env -> Z -> Z -> Z -> Z -> list byte -> UcpReply (Z * list byte);
  arm_uc_create_internal_header_v2 :
    arm_uc_firmware_details_t -> Z -> list byte -> Z * Z * list byte;
  (* UnalignedBlockDevice and BdSha256 *)
  ubd_init : Env -> Z * Env;
  ubd_read : Env -> Z -> Z -> Z * list byte * Env;
  ubd_program : Env -> list byte -> Z -> Z -> Z * Env;
  details_of_bytes : list byte -> arm_uc_firmware_details_t;
  bytes_of_details : arm_uc_firmware_details_t -> list byte;
  bdSha256_calculate : Env -> list byte -> Z -> Z -> list byte * list byte * Env
}.

Variable P : Platform.

(** Bound on the iterations of any one loop; a loop that needs more is
    reported as [Hung]. *)
Variable fuel : nat.

(** ** Runs *)

Record World : Type := mkWorld {
  env : Env;
  buffer_array : list byte;
  event_callback : Z;
  trace : list Event
}.

(** A run returns, stops in [MBED_BOOTLOADER_ASSERT], or never leaves a
    loop; the world reached is kept in each case. *)
Inductive Run (A : Type) : Type :=
| Ret (a : A) (w : World)
| Halted (w : World)
| Hung (w : World).
Arguments Ret {A}.
Arguments Halted {A}.
Arguments Hung {A}.

Definition M (A : Type) : Type := World -> Run A.

Definition ret {A} (a : A) : M A := fun w => Ret a w.

Definition bind {A B} (m : M A) (f : A -> M B) : M B :=
  fun w =>
    match m w with
    | Ret a w' => f a w'
    | Halted w' => Halted w'
    | Hung w' => Hung w'
    end.

Notation "x <- m ;; k" := (bind m (fun x => k))
  (at level 61, m at next level, right associativity).
Notation "' pat <- m ;; k" := (bind m (fun x => match x with pat => k end))
  (at level 61, pat pattern, m at next level, right associativity).
Notation "m ;; k" := (bind m (fun _ => k))
  (at level 61, right associativity).

Definition halt {A} : M A := fun w => Halted w.
Definition hang {A} : M A := fun w => Hung w.

Definition emit (e : Event) : M unit :=
  fun w => Ret tt (mkWorld (env w) (buffer_array w) (event_callback w)
                           (trace w ++ [e])).

Definition get_env : M Env := fun w => Ret (env w) w.
Definition set_env (e : Env) : M unit :=
  fun w => Ret tt (mkWorld e (buffer_array w) (event_callback w) (trace w)).
Definition get_buffer : M (list byte) := fun w => Ret (buffer_array w) w.
Definition set_buffer (b : list byte) : M unit :=
  fun w => Ret tt (mkWorld (env w) b (event_callback w) (trace w)).
Definition get_event : M Z := fun w => Ret (event_callback w) w.
Definition set_event (v : Z) : M unit :=
  fun w => Ret tt (mkWorld (env w) (buffer_array w) v (trace w)).

Definition MBED_BOOTLOADER_ASSERT (c : bool) : M unit :=
  if c then ret tt else halt.

(** ** Calls into the drivers *)

Definition slice (b : list byte) (off len : Z) : list byte :=
  firstn (Z.to_nat len) (skipn (Z.to_nat off) b).

(** [flash.read(buffer_array, addr, len)] *)
Definition call_flash_read (addr len : Z) : M Z :=
  fun w =>
    let '(st, b, e) := flash_read P (env w) (buffer_array w) addr len in
    Ret st (mkWorld e b (event_callback w)
                    (trace w ++ [EvFlashRead addr len st])).

(** [flash.program(&buffer_array[off], addr, len)] *)
Definition call_flash_program (off addr len : Z) : M Z :=
  fun w =>
    let '(st, e) :=
      flash_program P (env w) (slice (buffer_array w) off len) addr len in
    Ret st (mkWorld e (buffer_array w) (event_callback w)
                    (trace w ++ [EvFlashProgram addr len st])).

(** [flash.erase(addr, len)] *)
Definition call_flash_erase (addr len : Z) : M Z :=
  fun w =>
    let '(st, e) := flash_erase P (env w) addr len in
    Ret st (mkWorld e (buffer_array w) (event_callback w)
                    (trace w ++ [EvFlashErase addr len st])).

Definition get_sector_size (addr : Z) : M Z :=
  fun w => Ret (flash_get_sector_size P (env w) addr) w.

Definition get_page_size : M Z :=
  fun w => Ret (flash_get_page_size P (env w)) w.

(** [while (event_callback == CLEAR_EVENT) { __WFI(); }], the [k]-th
    sampling of the variable being [sig k]. *)
Fixpoint wait_event (n : nat) (sig : nat -> Z) (k : nat) : M unit :=
  fun w =>
    if event_callback w =? CLEAR_EVENT P then
      match n with
      | O => Hung w
      | S n' => (set_event (sig (S k)) ;; wait_event n' sig (S k)) w
      end
    else Ret tt w.

(** ** readActiveFirmwareHeader *)

(** A pointer argument is [None] when null; the record it points to is
    returned with the result, as the callee writes into it. *)
Definition readActiveFirmwareHeader (details : option arm_uc_firmware_details_t)
  : M (bool * option arm_uc_firmware_details_t) :=
  emit (EvLog "readActiveFirmwareHeader") ;;
  match details with
  | None => ret (false, None)
  | Some d =>
    set_event (CLEAR_EVENT P) ;;
    e <- get_env ;;
    emit EvGetDetails ;;
    let status := ARM_UCP_GetActiveFirmwareDetails P e d in
    set_env (ucp_env status) ;;
    set_event (ucp_signal status 0) ;;
    if ucp_error status =? ERR_NONE P then
      wait_event fuel (ucp_signal status) 0 ;;
      ev <- get_event ;;
      ret (ev =? ARM_UC_PAAL_EVENT_GET_ACTIVE_FIRMWARE_DETAILS_DONE P,
           Some (ucp_data status))
    else ret (false, Some (ucp_data status))
  end.

(** ** checkActiveApplication *)

(** The read loop of lines 135-156; returns the hash context and the
    last read status. *)
Fixpoint check_loop (n : nat) (dsize appStart remaining status : Z)
         (ctx : mbedtls_sha256_context P)
  : M (mbedtls_sha256_context P * Z) :=
  if (remaining >? 0) && (status =? 0) then
    match n with
    | O => hang
    | S n' =>
      let readSize :=
        if remaining >? BUFFER_SIZE P then BUFFER_SIZE P else remaining in
      status' <- call_flash_read (u32 (appStart + (dsize - remaining)))
                                 readSize ;;
      buf <- get_buffer ;;
      let chunk := slice buf 0 readSize in
      emit (EvHashUpdate chunk) ;;
      let ctx' := mbedtls_sha256_update P ctx chunk in
      check_loop n' dsize appStart (u32 (remaining - readSize)) status' ctx'
    end
  else ret (ctx, status).

Definition checkActiveApplication (details : option arm_uc_firmware_details_t)
  : M (result * option arm_uc_firmware_details_t) :=
  emit (EvLog "checkActiveApplication") ;;
  match details with
  | None => ret (RESULT_ERROR, None)
  | Some _ =>
    '(headerValid, details') <- readActiveFirmwareHeader details ;;
    match details' with
    | None => ret (RESULT_ERROR, None)
    | Some d =>
      if headerValid && (size d >? 0) then
        let appStart := u32 (MBED_CONF_APP_APPLICATION_START_ADDRESS P) in
        let remaining := u32 (size d) in
        '(ctx, _) <- check_loop fuel (size d) appStart remaining 0
                                (mbedtls_sha256_starts P) ;;
        let SHA := mbedtls_sha256_finish P ctx in
        let diff := memcmp (hash d) SHA SIZEOF_SHA256 in
        if diff =? 0 then ret (RESULT_SUCCESS, Some d)
        else ret (RESULT_ERROR, Some d)
      else if headerValid && (size d =? 0) then ret (RESULT_EMPTY, Some d)
      else ret (RESULT_ERROR, Some d)
    end
  end.

(** ** eraseActiveFirmware *)

(** First loop (lines 196-199): walk the sectors to the end boundary. *)
Fixpoint erase_walk (n : nat) (erase_address size_needed : Z) : M Z :=
  if erase_address <? u32 (FIRMWARE_METADATA_HEADER_ADDRESS P + size_needed)
  then
    match n with
    | O => hang
    | S n' =>
      s <- get_sector_size erase_address ;;
      erase_walk n' (u32 (erase_address + s)) size_needed
    end
  else ret erase_address.

(** Second loop (lines 214-229): erase sector by sector, [break] on the
    first failure; returns [result]. *)
Fixpoint erase_loop (n : nat) (erase_address size_needed result : Z) : M Z :=
  if erase_address <? u32 (FIRMWARE_METADATA_HEADER_ADDRESS P + size_needed)
  then
    match n with
    | O => hang
    | S n' =>
      sector_size <- get_sector_size erase_address ;;
      result' <- call_flash_erase erase_address sector_size ;;
      if negb (result' =? 0) then ret result'
      else erase_loop n' (u32 (erase_address + sector_size)) size_needed
                      result'
    end
  else ret result.

Definition eraseActiveFirmware (firmwareSize : Z) : M bool :=
  emit (EvLog "eraseActiveFirmware") ;;
  let erase_address := u32 (FIRMWARE_METADATA_HEADER_ADDRESS P) in
  let size_needed := u32 (FIRMWARE_METADATA_HEADER_SIZE P + firmwareSize) in
  erase_address <- erase_walk fuel erase_address size_needed ;;
  let result := -1 in
  if erase_address <? u32 (MBED_CONF_APP_MAX_APPLICATION_SIZE P +
                           MBED_CONF_APP_APPLICATION_START_ADDRESS P)
  then
    result <- erase_loop fuel (u32 (FIRMWARE_METADATA_HEADER_ADDRESS P))
                         size_needed result ;;
    ret (result =? 0)
  else ret (result =? 0).

(** ** writeActiveFirmwareHeader *)

Definition memset (b : list byte) (c : byte) (n : Z) : list byte :=
  repeat c (Z.to_nat n) ++ skipn (Z.to_nat n) b.

Definition writeActiveFirmwareHeader
           (details : option arm_uc_firmware_details_t) : M bool :=
  emit (EvLog "writeActiveFirmwareHeader") ;;
  match details with
  | None => ret false
  | Some d =>
    pageSize <- get_page_size ;;
    let programSize :=
      u32 (u32 (ARM_UC_INTERNAL_HEADER_SIZE_V2 P + pageSize - 1)
           / pageSize * pageSize) in
    MBED_BOOTLOADER_ASSERT (programSize <=? BUFFER_SIZE P) ;;
    MBED_BOOTLOADER_ASSERT (programSize <=? FIRMWARE_METADATA_HEADER_SIZE P) ;;
    buf <- get_buffer ;;
    set_buffer (memset buf xff programSize) ;;
    buf <- get_buffer ;;
    emit EvCreateHeader ;;
    let '(status, out_size, buf') :=
      arm_uc_create_internal_header_v2 P d (BUFFER_SIZE P) buf in
    set_buffer buf' ;;
    if (status =? ERR_NONE P) && (out_size =? ARM_UC_INTERNAL_HEADER_SIZE_V2 P)
    then
      ret' <- call_flash_program 0 (u32 (FIRMWARE_METADATA_HEADER_ADDRESS P))
                                 programSize ;;
      ret (ret' =? 0)
    else ret false
  end.

(** ** writeActiveFirmware *)

(** Inner loop (lines 364-376): one program call per page; returns
    [retval]. *)
Fixpoint program_pages (n : nat) (app_start_addr offset pageSize programSize
                                  programOffset retval : Z) : M Z :=
  if (programOffset <? programSize) && (retval =? 0) then
    match n with
    | O => hang
    | S n' =>
      retval' <- call_flash_program programOffset
                   (u32 (app_start_addr + offset + programOffset)) pageSize ;;
      program_pages n' app_start_addr offset pageSize programSize
                    (u32 (programOffset + pageSize)) retval'
    end
  else ret retval.

(** Outer loop (lines 330-391); returns [retval]. *)
Fixpoint write_loop (n : nat) (index dsize app_start_addr pageSize size_max
                               offset retval : Z) : M Z :=
  if (offset <? dsize) && (retval =? 0) then
    match n with
    | O => hang
    | S n' =>
      set_event (CLEAR_EVENT P) ;;
      let bsize :=
        u32 (if dsize - offset >? size_max then size_max else dsize - offset) in
      e <- get_env ;;
      buf <- get_buffer ;;
      emit (EvUcpRead index offset bsize) ;;
      let ucp_status := ARM_UCP_Read P e index offset size_max bsize buf in
      set_env (ucp_env ucp_status) ;;
      set_buffer (snd (ucp_data ucp_status)) ;;
      set_event (ucp_signal ucp_status 0) ;;
      let bsize := fst (ucp_data ucp_status) in
      (if ucp_error ucp_status =? ERR_NONE P
       then wait_event fuel (ucp_signal ucp_status) 0
       else ret tt) ;;
      ev <- get_event ;;
      if (ev =? ARM_UC_PAAL_EVENT_READ_DONE P) && (bsize >? 0) then
        let programSize := u32 (u32 (bsize + pageSize - 1)
                                / pageSize * pageSize) in
        retval' <- program_pages fuel app_start_addr offset pageSize
                                 programSize 0 retval ;;
        write_loop n' index dsize app_start_addr pageSize size_max
                   (u32 (offset + programSize)) retval'
      else ret (-1)
    end
  else ret retval.

Definition writeActiveFirmware (index : Z)
           (details : option arm_uc_firmware_details_t) : M bool :=
  emit (EvLog "writeActiveFirmware") ;;
  match details with
  | None => ret false
  | Some d =>
    pageSize <- get_page_size ;;
    let app_start_addr := u32 (MBED_CONF_APP_APPLICATION_START_ADDRESS P) in
    MBED_BOOTLOADER_ASSERT (app_start_addr mod pageSize =? 0) ;;
    let readSize := u32 (BUFFER_SIZE P / pageSize * pageSize) in
    retval <- write_loop fuel index (size d) app_start_addr pageSize readSize
                         0 0 ;;
    ret (retval =? 0)
  end.

(** ** copyStoredApplication *)

Definition copyStoredApplication (index : Z)
           (details : arm_uc_firmware_details_t)
  : M (bool * arm_uc_firmware_details_t) :=
  emit (EvLog "copyStoredApplication") ;;
  (* Step 1. Erase active application *)
  result <- eraseActiveFirmware (u32 (size details)) ;;
  (* Step 2. Write header *)
  result <- (if result : bool then writeActiveFirmwareHeader (Some details)
             else ret result) ;;
  (* Step 3. Copy application *)
  result <- (if result : bool then writeActiveFirmware index (Some details)
             else ret result) ;;
  (* Step 4. Verify application *)
  if result : bool then
    '(recheck, details') <- checkActiveApplication (Some details) ;;
    ret (result_eqb recheck RESULT_SUCCESS,
         match details' with Some d => d | None => details end)
  else ret (result, details).

(** ** copyActiveApplicationIntoFlash *)

Definition call_ubd_init : M Z :=
  fun w =>
    let '(st, e) := ubd_init P (env w) in
    Ret st (mkWorld e (buffer_array w) (event_callback w)
                    (trace w ++ [EvBdInit st])).

(** [ubd.read(&curr_details, addr, len)] *)
Definition call_ubd_read (addr len : Z) : M (Z * list byte) :=
  fun w =>
    let '(st, data, e) := ubd_read P (env w) addr len in
    Ret (st, data) (mkWorld e (buffer_array w) (event_callback w)
                            (trace w ++ [EvBdRead addr len st])).

(** [ubd.program(src, addr, len)]; the status is handed back so that the
    caller is seen to drop it. *)
Definition call_ubd_program (src : Src) (data : list byte) (addr len : Z)
  : M Z :=
  fun w =>
    let '(st, e) := ubd_program P (env w) data addr len in
    Ret st (mkWorld e (buffer_array w) (event_callback w)
                    (trace w ++ [EvBdProgram src addr len st])).

(** [BdSha256(&ubd, buffer_array, BUFFER_SIZE).calculate(addr, len, out)] *)
Definition call_bdSha256_calculate (addr len : Z) : M (list byte) :=
  fun w =>
    let '(sha, b, e) := bdSha256_calculate P (env w) (buffer_array w) addr len in
    Ret sha (mkWorld e b (event_callback w) (trace w ++ [EvBdSha addr len])).

(** The copy loop of lines 512-537; returns the last read status. *)
Fixpoint mirror_loop (n : nat) (dsize appStart remaining status offset : Z)
  : M Z :=
  if (remaining >? 0) && (status =? 0) then
    match n with
    | O => hang
    | S n' =>
      let readSize :=
        if remaining >? BUFFER_SIZE P then BUFFER_SIZE P else remaining in
      status' <- call_flash_read (u32 (appStart + (dsize - remaining)))
                                 readSize ;;
      buf <- get_buffer ;;
      call_ubd_program SrcBuffer (slice buf 0 readSize) offset readSize ;;
      mirror_loop n' dsize appStart (u32 (remaining - readSize)) status'
                  (u32 (offset + readSize))
    end
  else ret status.

(** Lines 544-563: the comparison of the digests and, on a match, the
    write of the details record. *)
Definition mirror_commit (details : arm_uc_firmware_details_t)
           (bdOffset : Z) (shaInBd : list byte) : M result :=
  let diff := memcmp (hash details) shaInBd SIZEOF_SHA256 in
  if diff =? 0 then
    call_ubd_program SrcDetails (bytes_of_details P details) bdOffset
                     (sizeof_details P) ;;
    ret RESULT_SUCCESS
  else ret RESULT_ERROR.

(** [uninit] is what the local [details] holds before the header read
    writes it. *)
Definition copyActiveApplicationIntoFlash
           (uninit : arm_uc_firmware_details_t) (bdOffset : Z) : M result :=
  emit (EvLog "copyActiveApplicationIntoFlash") ;;
  bd_status <- call_ubd_init ;;
  if negb (bd_status =? BD_ERROR_OK P) then ret RESULT_ERROR
  else
    let result := RESULT_ERROR in
    '(headerValid, details') <- readActiveFirmwareHeader (Some uninit) ;;
    let details := match details' with Some d => d | None => uninit end in
    if headerValid && (size details >? 0) then
      '(bd_status, raw) <- call_ubd_read bdOffset (sizeof_details P) ;;
      if negb (bd_status =? BD_ERROR_OK P) then ret RESULT_ERROR
      else
        let curr_details := details_of_bytes P raw in
        if (version curr_details =? version details) &&
           (size curr_details =? size details)
        then ret RESULT_SUCCESS
        else
          let offset := u32 (bdOffset + sizeof_details P) in
          let appStart := u32 (MBED_CONF_APP_APPLICATION_START_ADDRESS P) in
          let remaining := u32 (size details) in
          mirror_loop fuel (size details) appStart remaining 0 offset ;;
          shaInBd <- call_bdSha256_calculate
                       (u32 (bdOffset + sizeof_details P)) (size details) ;;
          mirror_commit details bdOffset shaInBd
    else if headerValid && (size details =? 0) then ret RESULT_EMPTY
    else ret result.

End Bootloader.

Arguments Ret {Env A}.
Arguments Halted {Env A}.
Arguments Hung {Env A}.
Arguments mkWorld {Env}.
Arguments ucp_error {Env T}.
Arguments ucp_signal {Env T}.
Arguments ucp_data {Env T}.
Arguments ucp_env {Env T}.
Arguments bind {Env A B}.
Arguments ret {Env A}.
Arguments env {Env}.
Arguments buffer_array {Env}.
Arguments event_callback {Env}.
Arguments trace {Env}.

Arguments readActiveFirmwareHeader {Env}.
Arguments check_loop {Env}.
Arguments checkActiveApplication {Env}.
Arguments erase_walk {Env}.
Arguments erase_loop {Env}.
Arguments eraseActiveFirmware {Env}.
Arguments writeActiveFirmwareHeader {Env}.
Arguments program_pages {Env}.
Arguments write_loop {Env}.
Arguments writeActiveFirmware {Env}.
Arguments copyStoredApplication {Env}.
Arguments mirror_loop {Env}.
Arguments mirror_commit {Env}.
Arguments copyActiveApplicationIntoFlash {Env}.
Arguments wait_event {Env}.

(** ** Reading the outcome of a run *)

Definition world_of {Env A} (r : Run Env A) : World Env :=
  match r with Ret _ w => w | Halted w => w | Hung w => w end.

Definition value_of {Env A} (r : Run Env A) : option A :=
  match r with Ret a _ => Some a | _ => None end.

(** The events a run appended to the trace it started from. *)
Definition new_events {Env} (w w' : World Env) : list Event :=
  skipn (List.length (trace w)) (trace w').

(** The bytes at the [n] addresses from [a] on, addresses being 32 bits
    wide. *)
Definition region_bytes (m : Z -> byte) (a : Z) (n : nat) : list byte :=
  map (fun i => m (u32 (a + Z.of_nat i))) (seq 0 n).

(** Feeding a list of chunks into a hash context, one update per chunk. *)
Definition feed_chunks {Env} (P : Platform Env)
           (ctx : mbedtls_sha256_context Env P) (chunks : list (list byte))
  : mbedtls_sha256_context Env P :=
  fold_left (mbedtls_sha256_update Env P) chunks ctx.

(** What a well-behaved flash driver does on a read that reports
    success: the first [n] bytes of the buffer are the bytes of the
    region, as seen through [mem], and the contents do not change. *)
Definition flash_read_ok {Env} (P : Platform Env) (mem : Env -> Z -> byte) : Prop :=
  forall e buf a n st buf' e',
    flash_read Env P e buf a n = (st, buf', e') ->
    st = 0 -> 0 <= n ->
    slice buf' 0 n = region_bytes (mem e) a (Z.to_nat n) /\
    (forall x, mem e' x = mem e x).

(** The hash primitive is a streaming hash: an update with no bytes
    changes nothing, and two updates are one update with the
    concatenation. *)
Definition sha256_streaming {Env} (P : Platform Env) : Prop :=
  (forall c : mbedtls_sha256_context Env P,
      mbedtls_sha256_update Env P c [] = c) /\
  (forall (c : mbedtls_sha256_context Env P) (a b : list byte),
      mbedtls_sha256_update Env P (mbedtls_sha256_update Env P c a) b =
      mbedtls_sha256_update Env P c (a ++ b)).

(** [P] with another block-device program call. *)
Definition with_ubd_program {Env} (P : Platform Env)
           (f : Env -> list byte -> Z -> Z -> Z * Env) : Platform Env :=
  mkPlatform Env
    (BUFFER_SIZE Env P) (MBED_CONF_APP_APPLICATION_START_ADDRESS Env P)
    (MBED_CONF_APP_MAX_APPLICATION_SIZE Env P)
    (FIRMWARE_METADATA_HEADER_ADDRESS Env P)
    (FIRMWARE_METADATA_HEADER_SIZE Env P)
    (ARM_UC_INTERNAL_HEADER_SIZE_V2 Env P) (sizeof_details Env P)
    (ERR_NONE Env P) (CLEAR_EVENT Env P)
    (ARM_UC_PAAL_EVENT_GET_ACTIVE_FIRMWARE_DETAILS_DONE Env P)
    (ARM_UC_PAAL_EVENT_READ_DONE Env P) (BD_ERROR_OK Env P)
    (flash_read Env P) (flash_program Env P) (flash_erase Env P)
    (flash_get_sector_size Env P) (flash_get_page_size Env P)
    (mbedtls_sha256_context Env P) (mbedtls_sha256_starts Env P)
    (mbedtls_sha256_update Env P) (mbedtls_sha256_finish Env P)
    (ARM_UCP_GetActiveFirmwareDetails Env P) (ARM_UCP_Read Env P)
    (arm_uc_create_internal_header_v2 Env P)
    (ubd_init Env P) (ubd_read Env P) f
    (details_of_bytes Env P) (bytes_of_details Env P)
    (bdSha256_calculate Env P).

(** ** A small concrete platform

    A flash of a few bytes addressed from 0, a block device, a stored
    header and a candidate image, with switches for the faults a driver
    can report.  The hash keeps the bytes it was fed and pads or cuts
    them to 32 bytes; it stands in for SHA-256 where only the streaming
    law matters. *)

Module Demo.

Record Dev : Type := mkDev {
  d_flash : list byte;
  d_bd : list byte;
  d_header : arm_uc_firmware_details_t;
  d_image : list byte
}.

Record Cfg : Type := mkCfg {
  c_buffer : Z;
  c_app_start : Z;
  c_max_size : Z;
  c_header_addr : Z;
  c_header_size : Z;
  c_page : Z;
  c_sector : Z -> Z;
  c_read_fails : Z -> bool;
  c_erase_fails : Z -> bool;
  c_program_fails : Z -> bool;
  c_bd_program_status : Z -> Z;
  c_header_event : Z
}.

(** Addresses past the end of the flash read as erased. *)
Definition mem (e : Dev) (x : Z) : byte :=
  if x <? Z.of_nat (List.length (d_flash e))
  then nth (Z.to_nat x) (d_flash e) xff else xff.

(** A write that does not fit the device changes nothing. *)
Definition write_at (l : list byte) (a : Z) (data : list byte) : list byte :=
  if a + Z.of_nat (List.length data) <=? Z.of_nat (List.length l) then
    firstn (Z.to_nat a) l ++ data ++
    skipn (Z.to_nat a + List.length data) l
  else l.

Definition byte_of_Z (z : Z) : byte :=
  match Byte.of_N (Z.to_N (z mod 256)) with Some b => b | None => x00 end.

Definition Z_of_byte (b : byte) : Z := Z.of_N (Byte.to_N b).

Definition digest (c : list byte) : list byte :=
  firstn 32 (c ++ repeat x00 32).

Definition decode (l : list byte) : arm_uc_firmware_details_t :=
  mkDetails (Z_of_byte (nth 0 l x00)) (Z_of_byte (nth 1 l x00))
            (firstn 32 (skipn 2 l)).

Definition encode (d : arm_uc_firmware_details_t) : list byte :=
  byte_of_Z (version d) :: byte_of_Z (size d) :: hash d.

Definition platform (c : Cfg) : Platform Dev :=
  mkPlatform Dev
    (c_buffer c) (c_app_start c) (c_max_size c) (c_header_addr c)
    (c_header_size c) 4 34
    0 (-1) 1 2 0
    (* flash_read *)
    (fun e buf a n =>
       if c_read_fails c a then (-1, buf, e)
       else (0, region_bytes (mem e) a (Z.to_nat n) ++ skipn (Z.to_nat n) buf,
             e))
    (* flash_program *)
    (fun e data a n =>
       if c_program_fails c a then (-1, e)
       else (0, mkDev (write_at (d_flash e) a data) (d_bd e) (d_header e)
                      (d_image e)))
    (* flash_erase *)
    (fun e a n =>
       if c_erase_fails c a then (-1, e)
       else (0, mkDev (write_at (d_flash e) a (repeat xff (Z.to_nat n)))
                      (d_bd e) (d_header e) (d_image e)))
    (fun _ a => c_sector c a)
    (fun _ => c_page c)
    (* hash *)
    (list byte) [] (fun ctx data => ctx ++ data) digest
    (* update client *)
    (fun e _ => mkReply Dev _ 0 (fun _ => c_header_event c) (d_header e) e)
    (fun e index offset size_max n buf =>
       mkReply Dev _ 0 (fun _ => 2)
               (n, slice (d_image e) offset n ++ skipn (Z.to_nat n) buf) e)
    (fun d size_max buf => (0, 4, buf))
    (* block device *)
    (fun e => (0, e))
    (fun e a n => (0, slice (d_bd e) a n, e))
    (fun e data a n =>
       (c_bd_program_status c a,
        mkDev (d_flash e) (write_at (d_bd e) a data) (d_header e)
              (d_image e)))
    decode encode
    (fun e buf a n => (digest (slice (d_bd e) a n), buf, e)).

(** A run starts with a zeroed staging buffer of the configured size,
    no event pending and an empty trace. *)
Definition world (c : Cfg) (e : Dev) : World Dev :=
  mkWorld e (repeat x00 (Z.to_nat (c_buffer c))) (-1) [].

(** No faults: 4-byte pages and sectors, a 4-byte staging buffer, the
    header at 0 and the application at 4. *)
Definition cfg0 : Cfg :=
  mkCfg 4 4 32 0 4 4 (fun _ => 4) (fun _ => false) (fun _ => false)
        (fun _ => false) (fun _ => 0) 1.

Definition payload0 : list byte := [x01; x02; x03; x04; x05; x06].

(** A valid image of 6 bytes in flash, and an erased block device. *)
Definition dev0 : Dev :=
  mkDev (repeat xff 4 ++ payload0 ++ repeat xff 6) (repeat xff 48)
        (mkDetails 1 6 (digest payload0)) payload0.

End Demo.

(** The world after a function printed its entry message. *)
Definition logged {Env} (fn : string) (w : World Env) : World Env :=
  mkWorld (env w) (buffer_array w) (event_callback w) (trace w ++ [EvLog fn]).

(** An event that is not a failed flash read. *)
Definition read_succeeded (ev : Event) : Prop :=
  match ev with EvFlashRead _ _ st => st = 0 | _ => True end.

(** The chunks handed to the hash, in call order. *)
Fixpoint hashed_chunks (evs : list Event) : list (list byte) :=
  match evs with
  | [] => []
  | EvHashUpdate data :: rest => data :: hashed_chunks rest
  | _ :: rest => hashed_chunks rest
  end.

(** Every read of the flash fails and leaves the buffer as it was. *)
Definition Demo_cfg_read_fails : Demo.Cfg :=
  Demo.mkCfg 4 4 32 0 4 4 (fun _ => 4) (fun _ => true) (fun _ => false)
             (fun _ => false) (fun _ => 0) 1.

(** The image of [Demo.dev0] under a header whose digest is that of
    four zero bytes, which is what the staging buffer holds. *)
Definition Demo_dev_stale : Demo.Dev :=
  Demo.mkDev (Demo.d_flash Demo.dev0) (Demo.d_bd Demo.dev0)
             (mkDetails 1 6 (Demo.digest (repeat x00 4)))
             (Demo.d_image Demo.dev0).

(** The image of [Demo.dev0] under a header that declares 2^32 bytes and
    records the digest of no bytes. *)
Definition Demo_dev_huge : Demo.Dev :=
  Demo.mkDev (Demo.d_flash Demo.dev0) (Demo.d_bd Demo.dev0)
             (mkDetails 1 (2 ^ 32) (Demo.digest []))
             (Demo.d_image Demo.dev0).

(** ** Traces *)

(** [w'] is [w] with events appended, all of them in the class [Q]. *)
Definition appends {Env} (Q : Event -> Prop) (w w' : World Env) : Prop :=
  exists evs, trace w' = trace w ++ evs /\ Forall Q evs.

Definition run_appends {Env A} (Q : Event -> Prop) (r : Run Env A)
           (w : World Env) : Prop :=
  appends Q w (world_of r).

(** ** Erase sequences *)



(** The end address the first loop of [eraseActiveFirmware] finds for a
    firmware size, if the walk ends. *)
Definition erase_end {Env} (P : Platform Env) (fuel : nat)
           (firmwareSize : Z) (w : World Env) : option Z :=
  value_of (erase_walk P fuel (u32 (FIRMWARE_METADATA_HEADER_ADDRESS Env P))
              (u32 (FIRMWARE_METADATA_HEADER_SIZE Env P + firmwareSize))
              (logged "eraseActiveFirmware" w)).

(** The address one past the region: application start plus maximum
    application size. *)
Definition erase_limit {Env} (P : Platform Env) : Z :=
  u32 (MBED_CONF_APP_MAX_APPLICATION_SIZE Env P +
       MBED_CONF_APP_APPLICATION_START_ADDRESS Env P).




(** A firmware size of 2^32 - 2, the largest but one a 32-bit
    parameter holds. *)
Definition almost_4GiB : Z := 4294967294.

(** The sector at address 4 cannot be erased. *)
Definition Demo_cfg_erase_fails : Demo.Cfg :=
  Demo.mkCfg 4 4 32 0 4 4 (fun _ => 4) (fun _ => false) (fun a => a =? 4)
             (fun _ => false) (fun _ => 0) 1.


(** A header that declares an empty image. *)
Definition Demo_dev_empty : Demo.Dev :=
  Demo.mkDev (Demo.d_flash Demo.dev0) (Demo.d_bd Demo.dev0)
             (mkDetails 1 0 (Demo.digest [])) [].

(** ** Page alignment *)

(** A program call at a multiple of the page size, or a request to the
    update source at an offset that is one; other events are not
    constrained. *)
Definition page_aligned (p : Z) (ev : Event) : Prop :=
  match ev with
  | EvFlashProgram a _ _ => a mod p = 0
  | EvUcpRead _ off _ => off mod p = 0
  | _ => True
  end.

(** The alignment of the program calls as the specification states it:
    a page-aligned application start is all it takes. *)
Definition program_calls_aligned_as_specified {Env} (P : Platform Env)
           (fuel : nat) (index : Z) (d : arm_uc_firmware_details_t)
           (w : World Env) : Prop :=
  let p := flash_get_page_size Env P (env w) in
  u32 (MBED_CONF_APP_APPLICATION_START_ADDRESS Env P) mod p = 0 ->
  Forall (page_aligned p)
         (new_events w (world_of (writeActiveFirmware P fuel index (Some d) w))).

(** Pages of 3 bytes, and the application at the last address of the
    32-bit space, which is a multiple of 3. *)
Definition Demo_cfg_page3 : Demo.Cfg :=
  Demo.mkCfg 6 4294967295 32 0 4 3 (fun _ => 4) (fun _ => false)
             (fun _ => false) (fun _ => false) (fun _ => 0) 1.

(** ** The commit of the mirror *)

(** An event that is neither the digest computation over the block
    device nor a write of the details record. *)
Definition before_commit (ev : Event) : Prop :=
  match ev with
  | EvBdProgram SrcDetails _ _ _ => False
  | EvBdSha _ _ => False
  | _ => True
  end.

(** The three shapes a run of the mirror can have.  It did not reach the
    comparison of the digests: no digest computation, no details
    record.  It reached it and returned [RESULT_ERROR]: the digest
    computation is its last event.  It reached it and returned
    [RESULT_SUCCESS]: the digest computation is followed by the write of
    the details record at [off], which is the last event. *)
Definition commit_last {Env} (off len : Z) (r : Run Env result)
           (w : World Env) : Prop :=
  exists evs,
    trace (world_of r) = trace w ++ evs /\
    (Forall before_commit evs \/
     (exists pre a n,
         evs = pre ++ [EvBdSha a n] /\
         Forall before_commit pre /\
         value_of r = Some RESULT_ERROR) \/
     (exists pre a n st,
         evs = pre ++ [EvBdSha a n; EvBdProgram SrcDetails off len st] /\
         Forall before_commit pre /\
         value_of r = Some RESULT_SUCCESS)).

(** Not a write of the details record. *)
Definition no_record_write (ev : Event) : Prop :=
  match ev with
  | EvBdProgram SrcDetails _ _ _ => False
  | _ => True
  end.

(** The world of the mirror after its entry message and the
    initialisation of the block device, which returned [st] and left
    the device [e]. *)
Definition mirror_started {Env} (w : World Env) (st : Z) (e : Env)
  : World Env :=
  mkWorld e (buffer_array w) (event_callback w)
          ((trace w ++ [EvLog "copyActiveApplicationIntoFlash"])
           ++ [EvBdInit st]).

(** The world after a read of the block device that returned [st] and
    left the device [e]. *)
Definition after_bd_read {Env} (w : World Env) (addr len st : Z) (e : Env)
  : World Env :=
  mkWorld e (buffer_array w) (event_callback w)
          (trace w ++ [EvBdRead addr len st]).

(** Neither a read of the internal flash nor a program call to the
    block device. *)
Definition no_copy (ev : Event) : Prop :=
  match ev with
  | EvFlashRead _ _ _ => False
  | EvBdProgram _ _ _ _ => False
  | _ => True
  end.

(** ** Runs that differ in their traces only *)

Definition same_state {Env} (w w' : World Env) : Prop :=
  env w = env w' /\ buffer_array w = buffer_array w' /\
  event_callback w = event_callback w'.

Definition same_run {Env A} (r r' : Run Env A) : Prop :=
  match r, r' with
  | Ret a w, Ret a' w' => a = a' /\ same_state w w'
  | Halted w, Halted w' => same_state w w'
  | Hung w, Hung w' => same_state w w'
  | _, _ => False
  end.

(** The block device of [Demo.cfg0] with every program call reporting
    a failure while writing all the same. *)
Definition Demo_failing_status (e : Demo.Dev) (data : list byte) (a n : Z)
  : Z * Demo.Dev :=
  (-1, snd (ubd_program Demo.Dev (Demo.platform Demo.cfg0) e data a n)).

(** ** What the verification may do *)

(** The events of a verification: entry messages, the header request,
    flash reads of 1 to [B] bytes and hash updates of at most [B]
    bytes. *)
Definition verify_event (B : Z) (ev : Event) : Prop :=
  match ev with
  | EvLog _ => True
  | EvGetDetails => True
  | EvFlashRead _ n _ => 0 < n <= B
  | EvHashUpdate data => Z.of_nat (List.length data) <= B
  | _ => False
  end.

(** ** Where an erase sequence ends *)

(** [evs] are successful erase calls and nothing else, for sectors of
    positive size that lie one behind the other: the first starts at
    [a], each next one where its predecessor ends, and the last ends at
    [e]. *)
Fixpoint erase_chain (a : Z) (evs : list Event) (e : Z) : Prop :=
  match evs with
  | [] => a = e
  | EvFlashErase x n st :: rest =>
    x = a /\ 0 < n /\ st = 0 /\ erase_chain (a + n) rest e
  | _ :: _ => False
  end.

(** An erase call inside the address range from [lo] to [hi]; other
    events are not erase calls at all. *)
Definition erase_within (lo hi : Z) (ev : Event) : Prop :=
  match ev with
  | EvFlashErase x n _ => lo <= x /\ x + n <= hi
  | _ => False
  end.

(** Erasing does not change the sector layout the driver reports. *)
Definition sectors_stable {Env} (P : Platform Env) : Prop :=
  forall e a n st e',
    flash_erase Env P e a n = (st, e') ->
    forall x, flash_get_sector_size Env P e' x = flash_get_sector_size Env P e x.

(** ** The header page *)

(** The size of the program call that writes the header: the header
    size rounded up to whole pages of [p] bytes, in 32 bits. *)
Definition header_program_size {Env} (P : Platform Env) (p : Z) : Z :=
  u32 (u32 (ARM_UC_INTERNAL_HEADER_SIZE_V2 Env P + p - 1) / p * p).

(** Pages, sectors, staging buffer and reserved header space of 8 bytes,
    twice the encoded header. *)
Definition Demo_cfg_page8 : Demo.Cfg :=
  Demo.mkCfg 8 8 32 0 8 8 (fun _ => 8) (fun _ => false) (fun _ => false)
             (fun _ => false) (fun _ => 0) 1.

(** ** Sequences of program calls *)

(** The program calls among [evs] are for consecutive pages of [p]
    bytes, the first at [a], addresses being 32 bits wide. *)
Fixpoint pages_from (p a : Z) (evs : list Event) : Prop :=
  match evs with
  | [] => True
  | EvFlashProgram x n _ :: rest =>
    x = a /\ n = p /\ pages_from p (u32 (a + p)) rest
  | _ :: rest => pages_from p a rest
  end.

Fixpoint program_count (evs : list Event) : Z :=
  match evs with
  | [] => 0
  | EvFlashProgram _ _ _ :: rest => 1 + program_count rest
  | _ :: rest => program_count rest
  end.

Definition program_ok (ev : Event) : Prop :=
  match ev with EvFlashProgram _ _ st => st = 0 | _ => True end.

(** Either no program call failed, or one did, it is the last event and
    its status is what the loop returns. *)
Definition stops_at_failure (evs : list Event) (v : option Z) : Prop :=
  Forall program_ok evs \/
  exists pre x n st,
    evs = pre ++ [EvFlashProgram x n st] /\ Forall program_ok pre /\
    st <> 0 /\ v = Some st.

(** The events of the region writer: entry message, requests to the
    update source for at most [B] bytes, and program calls of one page
    of [p] bytes. *)
Definition write_event (p B : Z) (ev : Event) : Prop :=
  match ev with
  | EvLog _ => True
  | EvUcpRead _ _ n => 0 <= n <= B
  | EvFlashProgram _ n _ => n = p
  | _ => False
  end.

(** ** What the mirror may do *)

(** The events of a mirror run: entry messages, block-device
    initialisation and reads, the header request, flash reads and
    block-device program calls of 1 to [B] bytes from the staging
    buffer, the digest computation and the write of the details
    record. *)
Definition mirror_event (B : Z) (ev : Event) : Prop :=
  match ev with
  | EvLog _ => True
  | EvGetDetails => True
  | EvBdInit _ => True
  | EvBdRead _ _ _ => True
  | EvFlashRead _ n _ => 0 < n <= B
  | EvBdProgram SrcBuffer _ n _ => 0 < n <= B
  | EvBdProgram SrcDetails _ _ _ => True
  | EvBdSha _ _ => True
  | _ => False
  end.

(** ** Devices that behave, for the copy of the mirror *)

(** A successful read of the flash leaves the contents of the block
    device, as seen through [bdv], as they were. *)
Definition flash_read_keeps {Env} (P : Platform Env)
           (bdv : Env -> Z -> byte) : Prop :=
  forall e buf a n st buf' e',
    flash_read Env P e buf a n = (st, buf', e') -> st = 0 ->
    forall x, bdv e' x = bdv e x.

(** A program call of the block device that reports success has
    written its [n] bytes at [a], left the other addresses of the
    block device alone and not touched the flash. *)
Definition ubd_program_ok {Env} (P : Platform Env)
           (mem bdv : Env -> Z -> byte) : Prop :=
  forall e data a n st e',
    ubd_program Env P e data a n = (st, e') -> st = 0 ->
    List.length data = Z.to_nat n -> 0 <= n <= 2 ^ 32 ->
    region_bytes (bdv e') a (Z.to_nat n) = data /\
    (forall x, 0 <= x < 2 ^ 32 ->
               (forall i, 0 <= i < n -> x <> u32 (a + i)) ->
               bdv e' x = bdv e x) /\
    (forall x, mem e' x = mem e x).

(** Neither a failed flash read nor a failed program call of the block
    device. *)
Definition copy_succeeded (ev : Event) : Prop :=
  match ev with
  | EvFlashRead _ _ st => st = 0
  | EvBdProgram _ _ _ st => st = 0
  | _ => True
  end.

(** A platform whose flash and block device are total functions from
    addresses to bytes; every call succeeds. *)
Module Fun.

Record Dev : Type := mkDev {
  flash : Z -> byte;
  bd : Z -> byte
}.

Definition program (e : Dev) (data : list byte) (a n : Z) : Dev :=
  mkDev (flash e)
        (fun x => let i := u32 (x - a) in
                  if i <? n then nth (Z.to_nat i) data x00 else bd e x).

Definition platform (buffer app : Z) : Platform Dev :=
  mkPlatform Dev
    buffer app 0 0 0 0 0
    0 (-1) 1 2 0
    (fun e buf a n =>
       (0, region_bytes (flash e) a (Z.to_nat n) ++ skipn (Z.to_nat n) buf, e))
    (fun e _ _ _ => (0, e))
    (fun e _ _ => (0, e))
    (fun _ _ => 1)
    (fun _ => 1)
    (list byte) [] (fun ctx data => ctx ++ data) (fun ctx => ctx)
    (fun e d => mkReply Dev _ 0 (fun _ => 1) d e)
    (fun e _ _ _ n buf => mkReply Dev _ 0 (fun _ => 2) (n, buf) e)
    (fun _ _ buf => (0, 0, buf))
    (fun e => (0, e))
    (fun e a n => (0, region_bytes (bd e) a (Z.to_nat n), e))
    (fun e data a n => (0, program e data a n))
    (fun _ => mkDetails 0 0 [])
    (fun _ => [])
    (fun e buf a n => (region_bytes (bd e) a (Z.to_nat n), buf, e)).

End Fun.

(** ** Two calls of the mirror *)

(** Initialising the block device and asking for the active header
    leave the contents of the block device, as seen through [bdv], as
    they were. *)
Definition bd_kept_between_calls {Env} (P : Platform Env)
           (bdv : Env -> Z -> byte) : Prop :=
  (forall e st e',
      ubd_init Env P e = (st, e') -> forall x, bdv e' x = bdv e x) /\
  (forall e d x,
      bdv (ucp_env (ARM_UCP_GetActiveFirmwareDetails Env P e d)) x = bdv e x).

(** A read of the block device that reports success returns the bytes
    the device holds. *)
Definition ubd_read_ok {Env} (P : Platform Env) (bdv : Env -> Z -> byte)
  : Prop :=
  forall e a n st raw e',
    ubd_read Env P e a n = (st, raw, e') -> st = BD_ERROR_OK Env P ->
    raw = region_bytes (bdv e) a (Z.to_nat n).

(** A program call of the block device that reports success has
    stored its [n] bytes at [a]. *)
Definition ubd_program_stores {Env} (P : Platform Env)
           (bdv : Env -> Z -> byte) : Prop :=
  forall e data a n st e',
    ubd_program Env P e data a n = (st, e') -> st = 0 ->
    List.length data = Z.to_nat n -> 0 <= n <= 2 ^ 32 ->
    region_bytes (bdv e') a (Z.to_nat n) = data.

(** The details record the block device holds at [off], decoded. *)
Definition stored_record {Env} (P : Platform Env) (bdv : Env -> Z -> byte)
           (e : Env) (off : Z) : arm_uc_firmware_details_t :=
  details_of_bytes Env P
    (region_bytes (bdv e) off (Z.to_nat (sizeof_details Env P))).

(** The record stored at [off] has the version and the size of [d]. *)
Definition record_current {Env} (P : Platform Env) (bdv : Env -> Z -> byte)
           (e : Env) (off : Z) (d : arm_uc_firmware_details_t) : Prop :=
  version (stored_record P bdv e off) = version d /\
  size (stored_record P bdv e off) = size d.

(** The record [d] is encoded in [sizeof_details] bytes, and decoding
    them gives back its version and size. *)
Definition record_round_trip {Env} (P : Platform Env)
           (d : arm_uc_firmware_details_t) : Prop :=
  0 <= sizeof_details Env P <= 2 ^ 32 /\
  List.length (bytes_of_details Env P d) = Z.to_nat (sizeof_details Env P) /\
  version (details_of_bytes Env P (bytes_of_details Env P d)) = version d /\
  size (details_of_bytes Env P (bytes_of_details Env P d)) = size d.

(** What the specification says of two calls in a row: after a first
    call that reported success, a second one reports success and
    copies nothing. *)
Definition mirror_twice_as_specified {Env} (P : Platform Env) (fuel : nat)
           (uninit : arm_uc_firmware_details_t) (bdOffset : Z)
           (w : World Env) : Prop :=
  forall w1,
    copyActiveApplicationIntoFlash P fuel uninit bdOffset w
    = Ret RESULT_SUCCESS w1 ->
    let second := copyActiveApplicationIntoFlash P fuel uninit bdOffset w1 in
    value_of second = Some RESULT_SUCCESS /\
    Forall no_copy (new_events w1 (world_of second)).

(** [P] with another block-device read. *)
Definition with_ubd_read {Env} (P : Platform Env)
           (f : Env -> Z -> Z -> Z * list byte * Env) : Platform Env :=
  mkPlatform Env
    (BUFFER_SIZE Env P) (MBED_CONF_APP_APPLICATION_START_ADDRESS Env P)
    (MBED_CONF_APP_MAX_APPLICATION_SIZE Env P)
    (FIRMWARE_METADATA_HEADER_ADDRESS Env P)
    (FIRMWARE_METADATA_HEADER_SIZE Env P)
    (ARM_UC_INTERNAL_HEADER_SIZE_V2 Env P) (sizeof_details Env P)
    (ERR_NONE Env P) (CLEAR_EVENT Env P)
    (ARM_UC_PAAL_EVENT_GET_ACTIVE_FIRMWARE_DETAILS_DONE Env P)
    (ARM_UC_PAAL_EVENT_READ_DONE Env P) (BD_ERROR_OK Env P)
    (flash_read Env P) (flash_program Env P) (flash_erase Env P)
    (flash_get_sector_size Env P) (flash_get_page_size Env P)
    (mbedtls_sha256_context Env P) (mbedtls_sha256_starts Env P)
    (mbedtls_sha256_update Env P) (mbedtls_sha256_finish Env P)
    (ARM_UCP_GetActiveFirmwareDetails Env P) (ARM_UCP_Read Env P)
    (arm_uc_create_internal_header_v2 Env P)
    (ubd_init Env P) f (ubd_program Env P)
    (details_of_bytes Env P) (bytes_of_details Env P)
    (bdSha256_calculate Env P).

(** The contents of the block device of the concrete platform. *)
Definition Demo_bdv (e : Demo.Dev) (x : Z) : byte :=
  nth (Z.to_nat x) (Demo.d_bd e) xff.

(** A block device that checks the range of a program call: one that
    does not lie within the device, or within 32-bit addresses, fails
    and writes nothing; and whose reads return one byte per address
    asked for. *)
Definition Demo_checked_program (e : Demo.Dev) (data : list byte) (a n : Z)
  : Z * Demo.Dev :=
  if (0 <=? a) &&
     (a + Z.of_nat (List.length data) <=? Z.of_nat (List.length (Demo.d_bd e)))
     && (Z.of_nat (List.length (Demo.d_bd e)) <=? 2 ^ 32)
  then (0, Demo.mkDev (Demo.d_flash e) (Demo.write_at (Demo.d_bd e) a data)
                      (Demo.d_header e) (Demo.d_image e))
  else (-1, e).

Definition Demo_checked_read (e : Demo.Dev) (a n : Z)
  : Z * list byte * Demo.Dev :=
  (0, region_bytes (Demo_bdv e) a (Z.to_nat n), e).

Definition Demo_checked : Platform Demo.Dev :=
  with_ubd_read
    (with_ubd_program (Demo.platform Demo.cfg0) Demo_checked_program)
    Demo_checked_read.

(** The block device of [Demo.cfg0], except that a program call at
    address 0, where the details record goes, fails and writes
    nothing. *)
Definition Demo_lost_record (e : Demo.Dev) (data : list byte) (a n : Z)
  : Z * Demo.Dev :=
  if a =? 0 then (-1, e)
  else ubd_program Demo.Dev (Demo.platform Demo.cfg0) e data a n.


(** ** Arithmetic and list facts *)

Lemma u32_small (z : Z) : 0 <= z < 2 ^ 32 -> u32 z = z.
Proof. intros H. unfold u32. apply Z.mod_small. exact H. Qed.

Lemma u32_nonneg (z : Z) : 0 <= u32 z.
Proof. unfold u32. apply Z.mod_pos_bound. lia. Qed.

Lemma u32_add_l (a b : Z) : u32 (u32 a + b) = u32 (a + b).
Proof. unfold u32. apply Zplus_mod_idemp_l. Qed.

Lemma region_bytes_u32 (m : Z -> byte) (a : Z) (n : nat) :
  region_bytes m (u32 a) n = region_bytes m a n.
Proof.
  unfold region_bytes. apply map_ext. intros i. now rewrite u32_add_l.
Qed.

Lemma map_seq_shift {A} (f : nat -> A) (n k s : nat) :
  map f (seq (n + s) k) = map (fun i => f (n + i)%nat) (seq s k).
Proof.
  revert s. induction k as [|k IH]; intros s; simpl.
  - reflexivity.
  - f_equal. rewrite <- Nat.add_succ_r. apply IH.
Qed.

Lemma region_bytes_app (m : Z -> byte) (a : Z) (n k : nat) :
  region_bytes m a (n + k) =
  region_bytes m a n ++ region_bytes m (a + Z.of_nat n) k.
Proof.
  unfold region_bytes. rewrite seq_app, map_app. f_equal.
  replace (0 + n)%nat with (n + 0)%nat by lia.
  rewrite map_seq_shift. apply map_ext. intros i.
  f_equal. f_equal. lia.
Qed.

Lemma region_bytes_ext (m m' : Z -> byte) (a : Z) (n : nat) :
  (forall x, m' x = m x) -> region_bytes m' a n = region_bytes m a n.
Proof. intros H. unfold region_bytes. apply map_ext. intros i. apply H. Qed.

Lemma region_bytes_length (m : Z -> byte) (a : Z) (n : nat) :
  List.length (region_bytes m a n) = n.
Proof. unfold region_bytes. now rewrite length_map, length_seq. Qed.

Lemma new_events_app {Env} (w w' : World Env) (evs : list Event) :
  trace w' = trace w ++ evs -> new_events w w' = evs.
Proof.
  intros H. unfold new_events. rewrite H.
  rewrite skipn_app, skipn_all, Nat.sub_diag. reflexivity.
Qed.

(** ** The digest loop *)

Section Digest.

Context {Env : Type} (P : Platform Env).

Local Abbreviation ctx_t := (mbedtls_sha256_context Env P).
Local Abbreviation update := (mbedtls_sha256_update Env P).

Lemma feed_chunks_concat (c : ctx_t) (chunks : list (list byte)) :
  sha256_streaming P ->
  feed_chunks P c chunks = update c (List.concat chunks).
Proof.
  intros [Hnil Happ]. revert c.
  induction chunks as [|ch chunks IH]; intros c.
  - simpl. now rewrite Hnil.
  - unfold feed_chunks in *. simpl. rewrite IH. apply Happ.
Qed.

Lemma check_loop_stops (n : nat) (dsize appStart remaining status : Z)
      (c : ctx_t) (w : World Env) :
  status <> 0 ->
  check_loop P n dsize appStart remaining status c w = Ret (c, status) w.
Proof.
  intros Hst. destruct n; simpl;
    (replace (status =? 0) with false by (symmetry; now apply Z.eqb_neq));
    now rewrite andb_false_r.
Qed.

Lemma check_loop_spec (mem : Env -> Z -> byte) :
  sha256_streaming P -> flash_read_ok P mem -> 0 < BUFFER_SIZE Env P ->
  forall (n : nat) (dsize appStart remaining : Z) (c : ctx_t) (w : World Env),
    0 <= remaining < 2 ^ 32 ->
    (Z.to_nat remaining <= n)%nat ->
    exists c' st w' evs,
      check_loop P n dsize appStart remaining 0 c w = Ret (c', st) w' /\
      trace w' = trace w ++ evs /\
      (Forall read_succeeded evs -> st = 0) /\
      (st = 0 ->
       c' = update c (region_bytes (mem (env w))
                                   (appStart + (dsize - remaining))
                                   (Z.to_nat remaining)) /\
       (forall x, mem (env w') x = mem (env w) x)).
Proof.
  intros [Hnil Happ] Hr Hb.
  induction n as [|n IH]; intros dsize appStart remaining c w Hrem Hn.
  - assert (remaining = 0) by lia. subst. simpl.
    exists c, 0, w, []. rewrite app_nil_r. repeat split; try reflexivity.
    now rewrite Hnil.
  - simpl. destruct (remaining >? 0) eqn:Hpos; simpl.
    2:{ assert (remaining = 0) by lia. subst.
        exists c, 0, w, []. rewrite app_nil_r.
        repeat split; try reflexivity. now rewrite Hnil. }
    set (readSize := if remaining >? BUFFER_SIZE Env P
                     then BUFFER_SIZE Env P else remaining).
    assert (Hrs : 0 < readSize <= remaining)
      by (unfold readSize; destruct (remaining >? BUFFER_SIZE Env P) eqn:E; lia).
    unfold bind at 1. unfold call_flash_read.
    destruct (flash_read Env P (env w) (buffer_array w)
                (u32 (appStart + (dsize - remaining))) readSize)
      as [[st buf'] e'] eqn:Hread.
    unfold bind at 1. unfold get_buffer at 1. cbn [buffer_array].
    unfold bind at 1. unfold emit at 1.
    cbn [env buffer_array event_callback trace].
    destruct (Z.eq_dec st 0) as [Hst|Hst].
    + subst st.
      destruct (Hr _ _ _ _ _ _ _ Hread eq_refl ltac:(lia)) as [Hdata Hmem].
      rewrite u32_small by lia.
      match goal with |- context [check_loop P n dsize appStart ?r 0 ?c1 ?w1] =>
        destruct (IH dsize appStart r c1 w1 ltac:(lia) ltac:(lia))
          as (c' & st' & w' & evs & Hrun & Htr & Hall & Hok) end.
      cbn [trace] in Htr.
      eexists c', st', w', (_ :: _ :: evs). split; [exact Hrun|].
      split; [rewrite Htr, <- !app_assoc; reflexivity|].
      split.
      * intros HF. apply Hall. inversion HF as [|? ? _ HF']; subst.
        now inversion HF'.
      * intros Hst'. destruct (Hok Hst') as [Hc Hm]. cbn [env] in Hc, Hm.
        split.
        -- rewrite Hc, Hdata. rewrite region_bytes_u32.
           rewrite (region_bytes_ext _ _ _ _ Hmem).
           replace (Z.to_nat remaining)
             with (Z.to_nat readSize + Z.to_nat (remaining - readSize))%nat
             by lia.
           rewrite region_bytes_app. rewrite Z2Nat.id by lia.
           replace (appStart + (dsize - remaining) + readSize)
             with (appStart + (dsize - (remaining - readSize))) by lia.
           apply Happ.
        -- intros x. rewrite Hm. apply Hmem.
    + rewrite check_loop_stops by exact Hst.
      eexists _, st, _, [_; _]. split; [reflexivity|]. cbn [trace].
      split; [rewrite <- app_assoc; reflexivity|].
      split.
      * intros HF. inversion HF as [|? ? H1 _]; subst. exact H1.
      * intros E. contradiction.
Qed.

Lemma check_loop_chunks (mem : Env -> Z -> byte) :
  flash_read_ok P mem -> 0 < BUFFER_SIZE Env P ->
  forall (n : nat) (dsize appStart remaining : Z) (c : ctx_t) (w : World Env),
    0 <= remaining < 2 ^ 32 ->
    (Z.to_nat remaining <= n)%nat ->
    exists c' st w' evs,
      check_loop P n dsize appStart remaining 0 c w = Ret (c', st) w' /\
      trace w' = trace w ++ evs /\
      (st = 0 ->
       List.concat (hashed_chunks evs) =
       region_bytes (mem (env w)) (appStart + (dsize - remaining))
                    (Z.to_nat remaining)).
Proof.
  intros Hr Hb.
  induction n as [|n IH]; intros dsize appStart remaining c w Hrem Hn.
  - assert (remaining = 0) by lia. subst. simpl.
    exists c, 0, w, []. rewrite app_nil_r. repeat split; reflexivity.
  - simpl. destruct (remaining >? 0) eqn:Hpos; simpl.
    2:{ assert (remaining = 0) by lia. subst.
        exists c, 0, w, []. rewrite app_nil_r. repeat split; reflexivity. }
    set (readSize := if remaining >? BUFFER_SIZE Env P
                     then BUFFER_SIZE Env P else remaining).
    assert (Hrs : 0 < readSize <= remaining)
      by (unfold readSize; destruct (remaining >? BUFFER_SIZE Env P) eqn:E; lia).
    unfold bind at 1. unfold call_flash_read.
    destruct (flash_read Env P (env w) (buffer_array w)
                (u32 (appStart + (dsize - remaining))) readSize)
      as [[st buf'] e'] eqn:Hread.
    unfold bind at 1. unfold get_buffer at 1. cbn [buffer_array].
    unfold bind at 1. unfold emit at 1.
    cbn [env buffer_array event_callback trace].
    destruct (Z.eq_dec st 0) as [Hst|Hst].
    + subst st.
      destruct (Hr _ _ _ _ _ _ _ Hread eq_refl ltac:(lia)) as [Hdata Hmem].
      rewrite u32_small by lia.
      match goal with |- context [check_loop P n dsize appStart ?r 0 ?c1 ?w1] =>
        destruct (IH dsize appStart r c1 w1 ltac:(lia) ltac:(lia))
          as (c' & st' & w' & evs & Hrun & Htr & Hch) end.
      cbn [trace env] in Htr, Hch.
      eexists c', st', w', (_ :: _ :: evs). split; [exact Hrun|].
      split; [rewrite Htr, <- !app_assoc; reflexivity|].
      intros Hst'. cbn [hashed_chunks List.concat].
      rewrite (Hch Hst'), Hdata, region_bytes_u32.
      rewrite (region_bytes_ext _ _ _ _ Hmem).
      replace (Z.to_nat remaining)
        with (Z.to_nat readSize + Z.to_nat (remaining - readSize))%nat
        by lia.
      rewrite region_bytes_app. rewrite Z2Nat.id by lia.
      replace (appStart + (dsize - remaining) + readSize)
        with (appStart + (dsize - (remaining - readSize))) by lia.
      reflexivity.
    + rewrite check_loop_stops by exact Hst.
      eexists _, st, _, [_; _]. split; [reflexivity|]. cbn [trace].
      split; [rewrite <- app_assoc; reflexivity|].
      intros E. contradiction.
Qed.

End Digest.

(** ** The concrete platform meets the driver assumptions *)

Lemma slice_app_exact (a b : list byte) (n : Z) :
  List.length a = Z.to_nat n -> slice (a ++ b) 0 n = a.
Proof.
  intros H. unfold slice. simpl. rewrite <- H.
  rewrite firstn_app, Nat.sub_diag, firstn_all. simpl. apply app_nil_r.
Qed.

Lemma demo_read_ok (c : Demo.Cfg) : flash_read_ok (Demo.platform c) Demo.mem.
Proof.
  intros e buf a n st buf' e' H Hst Hn. simpl in H.
  destruct (Demo.c_read_fails c a).
  - inversion H; subst. discriminate.
  - inversion H; subst. split; [|reflexivity].
    apply slice_app_exact. apply region_bytes_length.
Qed.

Lemma demo_streaming (c : Demo.Cfg) : sha256_streaming (Demo.platform c).
Proof.
  split; simpl; intros.
  - apply app_nil_r.
  - symmetry. apply app_assoc.
Qed.

(** ** Chunk-boundary invariance *)

(** X13.  With a streaming hash and a flash whose successful reads
    return the region's bytes, hashing a payload chunk by chunk gives the
    digest of one update with the whole payload, for every way of
    cutting the payload into chunks.  And the read loop of the
    verification, for any positive buffer capacity and a range shorter
    than 2^32 bytes, returns (given fuel for one iteration per byte);
    when no read of the run failed, its status is 0, the flash is as it
    was, the chunks it fed to the hash are, one after the other, the
    bytes of the range, and the digest of its context is that of the
    whole range hashed in one call. *)
Theorem chunked_digest_invariant {Env} (P : Platform Env)
        (mem : Env -> Z -> byte) (fuel : nat) (dsize : Z) (w : World Env) :
  sha256_streaming P -> flash_read_ok P mem -> 0 < BUFFER_SIZE Env P ->
  0 <= dsize < 2 ^ 32 -> (Z.to_nat dsize <= fuel)%nat ->
  let appStart := MBED_CONF_APP_APPLICATION_START_ADDRESS Env P in
  let whole := region_bytes (mem (env w)) appStart (Z.to_nat dsize) in
  let one_call :=
    mbedtls_sha256_finish Env P
      (mbedtls_sha256_update Env P (mbedtls_sha256_starts Env P) whole) in
  (forall chunks : list (list byte),
      List.concat chunks = whole ->
      mbedtls_sha256_finish Env P
        (feed_chunks P (mbedtls_sha256_starts Env P) chunks) = one_call) /\
  exists c st w',
    check_loop P fuel dsize (u32 appStart) (u32 dsize) 0
               (mbedtls_sha256_starts Env P) w = Ret (c, st) w' /\
    (Forall read_succeeded (new_events w w') ->
     st = 0 /\
     (forall x, mem (env w') x = mem (env w) x) /\
     List.concat (hashed_chunks (new_events w w')) = whole /\
     mbedtls_sha256_finish Env P c = one_call).
Proof.
  intros Hs Hr Hb Hd Hf appStart whole one_call. split.
  - intros chunks Hc. rewrite feed_chunks_concat by exact Hs.
    now rewrite Hc.
  - rewrite (u32_small dsize) by exact Hd.
    destruct (check_loop_spec P mem Hs Hr Hb fuel dsize (u32 appStart) dsize
                (mbedtls_sha256_starts Env P) w Hd Hf)
      as (c & st & w' & evs & Hrun & Htr & Hall & Hok).
    destruct (check_loop_chunks P mem Hr Hb fuel dsize (u32 appStart) dsize
                (mbedtls_sha256_starts Env P) w Hd Hf)
      as (c2 & st2 & w2 & evs2 & Hrun2 & Htr2 & Hch).
    rewrite Hrun in Hrun2. inversion Hrun2; subst c2 st2 w2. clear Hrun2.
    rewrite Htr in Htr2. apply app_inv_head in Htr2. subst evs2.
    assert (Hrange :
      region_bytes (mem (env w)) (u32 appStart + (dsize - dsize))
                   (Z.to_nat dsize) = whole).
    { replace (u32 appStart + (dsize - dsize)) with (u32 appStart) by lia.
      apply region_bytes_u32. }
    exists c, st, w'. split; [exact Hrun|].
    rewrite (new_events_app _ _ _ Htr). intros HF.
    pose proof (Hall HF) as Hst. destruct (Hok Hst) as [Hc Hm].
    split; [exact Hst|]. split; [exact Hm|].
    split; [rewrite (Hch Hst); exact Hrange|].
    rewrite Hc, Hrange. reflexivity.
Qed.

Lemma chunked_digest_invariant_witness :
  let P := Demo.platform Demo.cfg0 in
  let w := Demo.world Demo.cfg0 Demo.dev0 in
  let one_call := Demo.digest Demo.payload0 in
  (forall chunks : list (list byte),
      List.concat chunks = Demo.payload0 ->
      Demo.digest (feed_chunks P [] chunks) = one_call) /\
  exists c st w',
    check_loop P 6 6 (u32 4) (u32 6) 0 [] w = Ret (c, st) w' /\
    (Forall read_succeeded (new_events w w') ->
     st = 0 /\
     (forall x, Demo.mem (env w') x = Demo.mem (env w) x) /\
     List.concat (hashed_chunks (new_events w w')) = Demo.payload0 /\
     Demo.digest c = one_call).
Proof.
  exact (chunked_digest_invariant (Demo.platform Demo.cfg0) Demo.mem 6 6
           (Demo.world Demo.cfg0 Demo.dev0)
           (demo_streaming Demo.cfg0) (demo_read_ok Demo.cfg0)
           ltac:(simpl; lia) ltac:(lia) ltac:(simpl; lia)).
Defined.

(** ** Verification of the active application *)

Lemma memcmp_nat_zero_iff (n : nat) (a b : list byte) :
  memcmp_nat a b n = 0 <-> firstn n a = firstn n b.
Proof.
  revert a b. induction n as [|n IH]; intros a b; simpl.
  - split; reflexivity.
  - destruct a as [|x a], b as [|y b]; simpl.
    + split; reflexivity.
    + split; intros H; [lia | discriminate].
    + split; intros H; [lia | discriminate].
    + destruct (Byte.eqb x y) eqn:E.
      * apply Byte.byte_dec_bl in E. subst y. rewrite IH.
        split; intros H; [now f_equal | now inversion H].
      * apply Byte.eqb_false in E.
        split; intros H.
        -- destruct (N.ltb _ _); lia.
        -- inversion H. contradiction.
Qed.

Lemma memcmp_zero_iff (a b : list byte) (n : Z) :
  memcmp a b n = 0 <-> firstn (Z.to_nat n) a = firstn (Z.to_nat n) b.
Proof. apply memcmp_nat_zero_iff. Qed.

(** X12.  Once the header read has returned: a failed read
    makes the verification return [RESULT_ERROR]; a valid header with
    size 0 makes it return [RESULT_EMPTY]; and for a valid header with a
    size between 1 and 2^32 - 1 the verification returns, and when no
    flash read of the run failed it returns [RESULT_SUCCESS] exactly when
    the 32 bytes of the recorded digest are those of the digest of the
    declared range, and [RESULT_ERROR] otherwise. *)
Theorem verify_outcome {Env} (P : Platform Env) (mem : Env -> Z -> byte)
        (fuel : nat) (d0 d : arm_uc_firmware_details_t) (valid : bool)
        (w w2 : World Env) :
  readActiveFirmwareHeader P fuel (Some d0)
                           (logged "checkActiveApplication" w)
  = Ret (valid, Some d) w2 ->
  (valid = false ->
   checkActiveApplication P fuel (Some d0) w = Ret (RESULT_ERROR, Some d) w2)
  /\
  (valid = true -> size d = 0 ->
   checkActiveApplication P fuel (Some d0) w = Ret (RESULT_EMPTY, Some d) w2)
  /\
  (valid = true -> 0 < size d < 2 ^ 32 ->
   sha256_streaming P -> flash_read_ok P mem -> 0 < BUFFER_SIZE Env P ->
   (Z.to_nat (size d) <= fuel)%nat ->
   exists r w3,
     checkActiveApplication P fuel (Some d0) w = Ret (r, Some d) w3 /\
     (Forall read_succeeded (new_events w2 w3) ->
      let declared :=
        region_bytes (mem (env w2))
                     (MBED_CONF_APP_APPLICATION_START_ADDRESS Env P)
                     (Z.to_nat (size d)) in
      let SHA :=
        mbedtls_sha256_finish Env P
          (mbedtls_sha256_update Env P (mbedtls_sha256_starts Env P)
                                 declared) in
      (r = RESULT_SUCCESS <-> firstn 32 (hash d) = firstn 32 SHA) /\
      (r <> RESULT_SUCCESS -> r = RESULT_ERROR))).
Proof.
  intros Hhdr.
  assert (Hc :
    checkActiveApplication P fuel (Some d0) w =
    (if valid && (size d >? 0) then
       bind (check_loop P fuel (size d)
               (u32 (MBED_CONF_APP_APPLICATION_START_ADDRESS Env P))
               (u32 (size d)) 0 (mbedtls_sha256_starts Env P))
            (fun x => let '(ctx, _) := x in
               if memcmp (hash d) (mbedtls_sha256_finish Env P ctx)
                         SIZEOF_SHA256 =? 0
               then ret (RESULT_SUCCESS, Some d)
               else ret (RESULT_ERROR, Some d))
     else if valid && (size d =? 0) then ret (RESULT_EMPTY, Some d)
     else ret (RESULT_ERROR, Some d)) w2).
  { unfold checkActiveApplication.
    unfold bind at 1. unfold emit at 1. fold (logged "checkActiveApplication" w).
    unfold bind at 1. rewrite Hhdr. reflexivity. }
  split; [|split].
  - intros ->. rewrite Hc. reflexivity.
  - intros -> Hz. rewrite Hc, Hz. reflexivity.
  - intros -> Hsz Hs Hr Hb Hf. rewrite Hc.
    replace (size d >? 0) with true by (symmetry; apply Z.gtb_lt; lia).
    simpl. rewrite (u32_small (size d)) by lia.
    destruct (check_loop_spec P mem Hs Hr Hb fuel (size d)
                (u32 (MBED_CONF_APP_APPLICATION_START_ADDRESS Env P))
                (size d) (mbedtls_sha256_starts Env P) w2
                ltac:(lia) Hf)
      as (c & st & w3 & evs & Hrun & Htr & Hall & Hok).
    unfold bind. rewrite Hrun.
    assert (Hbytes : st = 0 ->
      c = mbedtls_sha256_update Env P (mbedtls_sha256_starts Env P)
            (region_bytes (mem (env w2))
               (MBED_CONF_APP_APPLICATION_START_ADDRESS Env P)
               (Z.to_nat (size d)))).
    { intros Hst. destruct (Hok Hst) as [Hc' _]. rewrite Hc'. f_equal.
      replace (u32 (MBED_CONF_APP_APPLICATION_START_ADDRESS Env P)
               + (size d - size d))
        with (u32 (MBED_CONF_APP_APPLICATION_START_ADDRESS Env P)) by lia.
      apply region_bytes_u32. }
    destruct (memcmp (hash d) (mbedtls_sha256_finish Env P c) SIZEOF_SHA256
              =? 0) eqn:Hcmp.
    + exists RESULT_SUCCESS, w3. split; [reflexivity|].
      intros HF. rewrite (new_events_app _ _ _ Htr) in HF.
      rewrite <- (Hbytes (Hall HF)). split.
      * split; [intros _|reflexivity].
        apply Z.eqb_eq in Hcmp. now apply memcmp_zero_iff in Hcmp.
      * congruence.
    + exists RESULT_ERROR, w3. split; [reflexivity|].
      intros HF. rewrite (new_events_app _ _ _ Htr) in HF.
      rewrite <- (Hbytes (Hall HF)). split.
      * split; [discriminate|]. intros Heq.
        apply Z.eqb_neq in Hcmp. exfalso. apply Hcmp.
        now apply memcmp_zero_iff.
      * reflexivity.
Qed.

Lemma verify_outcome_witness :
  let P := Demo.platform Demo.cfg0 in
  let w := Demo.world Demo.cfg0 Demo.dev0 in
  let d := Demo.d_header Demo.dev0 in
  exists r w3,
    checkActiveApplication P 6 (Some (mkDetails 0 0 [])) w
    = Ret (r, Some d) w3 /\
    (Forall read_succeeded
            (new_events
               (world_of (readActiveFirmwareHeader P 6 (Some (mkDetails 0 0 []))
                            (logged "checkActiveApplication" w))) w3) ->
     (r = RESULT_SUCCESS <->
      firstn 32 (hash d) = firstn 32 (Demo.digest Demo.payload0)) /\
     (r <> RESULT_SUCCESS -> r = RESULT_ERROR)).
Proof.
  exact (proj2 (proj2
    (verify_outcome (Demo.platform Demo.cfg0) Demo.mem 6 (mkDetails 0 0 [])
       (Demo.d_header Demo.dev0) true
       (Demo.world Demo.cfg0 Demo.dev0)
       (world_of (readActiveFirmwareHeader (Demo.platform Demo.cfg0) 6
                    (Some (mkDetails 0 0 []))
                    (logged "checkActiveApplication"
                            (Demo.world Demo.cfg0 Demo.dev0))))
       eq_refl))
    eq_refl ltac:(simpl; lia) (demo_streaming Demo.cfg0)
    (demo_read_ok Demo.cfg0) ltac:(simpl; lia) ltac:(simpl; lia)).
Defined.

Lemma firstn_region_bytes (m : Z -> byte) (a : Z) (k n : nat) :
  (k <= n)%nat -> firstn k (region_bytes m a n) = region_bytes m a k.
Proof.
  intros H. replace n with (k + (n - k))%nat by lia.
  rewrite region_bytes_app. rewrite firstn_app, region_bytes_length.
  rewrite Nat.sub_diag. simpl. rewrite app_nil_r.
  apply firstn_all2. rewrite region_bytes_length. lia.
Qed.

Lemma demo_digest_long (c : list byte) :
  (32 <= List.length c)%nat -> Demo.digest c = firstn 32 c.
Proof.
  intros H. unfold Demo.digest. rewrite firstn_app.
  replace (32 - List.length c)%nat with 0%nat by lia.
  simpl. apply app_nil_r.
Qed.

(** C1, the code at a failing input.  The header is valid and declares
    2^32 bytes, a size its 64-bit field holds.  The 32-bit counter of
    the read loop is initialised with that size and so starts at 0: the
    run issues no flash read, the digest of no bytes is compared with
    the recorded one, and the verification returns [RESULT_SUCCESS]
    although the recorded digest is not the digest of the declared
    range. *)
Theorem oversized_image_passes_unread :
  let P := Demo.platform Demo.cfg0 in
  let w := Demo.world Demo.cfg0 Demo_dev_huge in
  let d := Demo.d_header Demo_dev_huge in
  let run := checkActiveApplication P 8 (Some (mkDetails 0 0 [])) w in
  let declared :=
    region_bytes (Demo.mem (env w))
                 (MBED_CONF_APP_APPLICATION_START_ADDRESS Demo.Dev P)
                 (Z.to_nat (size d)) in
  size d = 2 ^ 32 /\
  value_of run = Some (RESULT_SUCCESS, Some d) /\
  trace (world_of run) =
    [EvLog "checkActiveApplication"; EvLog "readActiveFirmwareHeader";
     EvGetDetails] /\
  firstn 32 (hash d) <>
  firstn 32 (mbedtls_sha256_finish Demo.Dev P
               (mbedtls_sha256_update Demo.Dev P
                  (mbedtls_sha256_starts Demo.Dev P) declared)).
Proof.
  intros P w d run declared.
  split; [reflexivity|].
  split; [vm_compute; reflexivity|].
  split; [vm_compute; reflexivity|].
  intros Heq. unfold declared, d, P, w in Heq.
  cbn [Demo.platform mbedtls_sha256_finish
    mbedtls_sha256_update mbedtls_sha256_starts
    MBED_CONF_APP_APPLICATION_START_ADDRESS Demo.cfg0 Demo.c_app_start
    Demo_dev_huge Demo.d_header size hash env Demo.world] in Heq.
  cbn [app] in Heq.
  rewrite (demo_digest_long (region_bytes _ _ _)) in Heq
    by (rewrite region_bytes_length; lia).
  rewrite firstn_firstn in Heq. cbn [Nat.min] in Heq.
  rewrite firstn_region_bytes in Heq by lia.
  vm_compute in Heq. discriminate.
Qed.

(** C3, the code at a failing input.  For a declared size of 2^32 + 4
    bytes the 32-bit counter of the read loop starts at 4: the loop
    reads and hashes one chunk of four bytes and stops with status 0.
    The digest of its context is that of those four bytes, not the
    digest of the declared range hashed in one call. *)
Theorem oversized_range_is_hashed_in_part :
  let P := Demo.platform Demo.cfg0 in
  let w := Demo.world Demo.cfg0 Demo.dev0 in
  let dsize := 2 ^ 32 + 4 in
  let appStart := MBED_CONF_APP_APPLICATION_START_ADDRESS Demo.Dev P in
  let whole := region_bytes (Demo.mem (env w)) appStart (Z.to_nat dsize) in
  let one_call :=
    mbedtls_sha256_finish Demo.Dev P
      (mbedtls_sha256_update Demo.Dev P (mbedtls_sha256_starts Demo.Dev P)
                             whole) in
  let run := check_loop P 8 dsize (u32 appStart) (u32 dsize) 0
                        (mbedtls_sha256_starts Demo.Dev P) w in
  (exists c, value_of run = Some (c, 0) /\
             mbedtls_sha256_finish Demo.Dev P c <> one_call) /\
  trace (world_of run) =
    [EvFlashRead 4 4 0; EvHashUpdate [x01; x02; x03; x04]].
Proof.
  intros P w dsize appStart whole one_call run.
  split; [|vm_compute; reflexivity].
  exists [x01; x02; x03; x04]. split; [vm_compute; reflexivity|].
  intros Heq. unfold one_call, whole, appStart, dsize, P, w in Heq.
  cbn [Demo.platform mbedtls_sha256_finish
    mbedtls_sha256_update mbedtls_sha256_starts
    MBED_CONF_APP_APPLICATION_START_ADDRESS Demo.cfg0 Demo.c_app_start
    env Demo.world] in Heq.
  cbn [app] in Heq.
  rewrite (demo_digest_long (region_bytes _ _ _)) in Heq
    by (rewrite region_bytes_length; lia).
  rewrite firstn_region_bytes in Heq by lia.
  vm_compute in Heq. discriminate.
Qed.

(** C2, the code at a failing input.  Every flash read fails and leaves
    the staging buffer as it was; the loop stops after the first chunk,
    but that chunk - four stale bytes - has been fed to the hash, the
    hash is finalised and compared, and since the header records the
    digest of those four bytes the verification returns
    [RESULT_SUCCESS]. *)
Lemma failed_read_chunk_is_hashed :
  let P := Demo.platform Demo_cfg_read_fails in
  let w := Demo.world Demo_cfg_read_fails Demo_dev_stale in
  let run := checkActiveApplication P 6 (Some (mkDetails 0 0 [])) w in
  value_of run = Some (RESULT_SUCCESS, Some (Demo.d_header Demo_dev_stale)) /\
  trace (world_of run) =
    [EvLog "checkActiveApplication"; EvLog "readActiveFirmwareHeader";
     EvGetDetails; EvFlashRead 4 4 (-1); EvHashUpdate (repeat x00 4)].
Proof. vm_compute. split; reflexivity. Qed.

(** ** Trace classes of the primitives *)

Section Traces.

Context {Env : Type} (P : Platform Env) (Q : Event -> Prop).

Lemma appends_refl (w : World Env) : appends Q w w.
Proof. exists []. split; [now rewrite app_nil_r | constructor]. Qed.

Lemma appends_trans (w1 w2 w3 : World Env) :
  appends Q w1 w2 -> appends Q w2 w3 -> appends Q w1 w3.
Proof.
  intros (e1 & H1 & F1) (e2 & H2 & F2). exists (e1 ++ e2). split.
  - now rewrite H2, H1, app_assoc.
  - apply Forall_app. now split.
Qed.

Lemma appends_same_trace (w w' : World Env) :
  trace w' = trace w -> appends Q w w'.
Proof. intros H. exists []. split; [now rewrite app_nil_r | constructor]. Qed.

Lemma appends_one (w w' : World Env) (e : Event) :
  trace w' = trace w ++ [e] -> Q e -> appends Q w w'.
Proof. intros H HQ. exists [e]. split; [exact H | now constructor]. Qed.

Lemma ra_bind {A B} (m : M Env A) (f : A -> M Env B) (w : World Env) :
  run_appends Q (m w) w ->
  (forall a w1, m w = Ret a w1 -> run_appends Q (f a w1) w1) ->
  run_appends Q (bind m f w) w.
Proof.
  unfold run_appends, bind. intros Hm Hf.
  destruct (m w) as [a w1|w1|w1] eqn:E; simpl in *; try exact Hm.
  eapply appends_trans; [exact Hm | now apply Hf].
Qed.

Lemma ra_ret {A} (a : A) (w : World Env) : run_appends Q (ret a w) w.
Proof. apply appends_refl. Qed.

Lemma ra_emit (e : Event) (w : World Env) :
  Q e -> run_appends Q (emit Env e w) w.
Proof. intros H. eapply appends_one; [reflexivity | exact H]. Qed.

Lemma ra_wait_event (n : nat) (sig : nat -> Z) (k : nat) (w : World Env) :
  run_appends Q (wait_event P n sig k w) w.
Proof.
  revert k w. induction n as [|n IH]; intros k w; simpl.
  - destruct (event_callback w =? CLEAR_EVENT Env P); apply appends_refl.
  - destruct (event_callback w =? CLEAR_EVENT Env P); [|apply appends_refl].
    apply ra_bind; [now apply appends_same_trace|]. intros [] w1 H.
    apply IH.
Qed.

End Traces.

(** ** The region eraser *)

Section Eraser.

Context {Env : Type} (P : Platform Env).

Lemma erase_walk_world (n : nat) (a s : Z) (w : World Env) :
  world_of (erase_walk P n a s w) = w.
Proof.
  revert a w. induction n as [|n IH]; intros a w; simpl;
    destruct (a <? u32 (FIRMWARE_METADATA_HEADER_ADDRESS Env P + s));
    try reflexivity.
  unfold bind, get_sector_size. apply IH.
Qed.

Lemma erase_walk_covers (n : nat) (a s x : Z) (w : World Env) :
  value_of (erase_walk P n a s w) = Some x ->
  u32 (FIRMWARE_METADATA_HEADER_ADDRESS Env P + s) <= x.
Proof.
  revert a w. induction n as [|n IH]; intros a w; simpl;
    destruct (a <? u32 (FIRMWARE_METADATA_HEADER_ADDRESS Env P + s)) eqn:E;
    simpl; intros H; try discriminate; try (inversion H; subst; lia).
  unfold bind, get_sector_size in H. eapply IH. exact H.
Qed.




End Eraser.



(** The precondition on the sum is needed.  With the header at 0 and
    4 bytes of header, a firmware size of 2^32 - 2 makes the 32-bit sum
    wrap to 2: one sector of 4 bytes is erased and the function returns
    [true]. *)
Example erase_size_wraps :
  let P := Demo.platform Demo.cfg0 in
  let run := eraseActiveFirmware P 8 almost_4GiB
                                 (Demo.world Demo.cfg0 Demo.dev0) in
  value_of run = Some true /\
  trace (world_of run) = [EvLog "eraseActiveFirmware"; EvFlashErase 0 4 0].
Proof. vm_compute. split; reflexivity. Qed.


(** ** Header read and verification: shape of the results *)

Section Shapes.

Context {Env : Type} (P : Platform Env) (fuel : nat).

Lemma read_header_some (d : arm_uc_firmware_details_t) (w w' : World Env)
      (b : bool) (o : option arm_uc_firmware_details_t) :
  readActiveFirmwareHeader P fuel (Some d) w = Ret (b, o) w' ->
  exists d', o = Some d'.
Proof.
  unfold readActiveFirmwareHeader.
  unfold bind, emit, set_event, get_env, set_env, get_event, ret.
  cbn [env buffer_array event_callback trace].
  destruct (ucp_error _ =? ERR_NONE Env P).
  - destruct (wait_event P fuel _ 0 _); intros H; inversion H; eauto.
  - intros H; inversion H; eauto.
Qed.

Lemma ra_read_header (Q : Event -> Prop)
      (o : option arm_uc_firmware_details_t) (w : World Env) :
  Q (EvLog "readActiveFirmwareHeader") -> Q EvGetDetails ->
  run_appends Q (readActiveFirmwareHeader P fuel o w) w.
Proof.
  intros Hlog Hget. unfold readActiveFirmwareHeader.
  apply ra_bind; [now apply ra_emit|]. intros [] w1 _.
  destruct o as [d|]; [|apply ra_ret].
  apply ra_bind; [now apply appends_same_trace|]. intros [] w2 _.
  apply ra_bind; [now apply appends_same_trace|]. intros e w3 _.
  apply ra_bind; [now apply ra_emit|]. intros [] w4 _.
  apply ra_bind; [now apply appends_same_trace|]. intros [] w5 _.
  apply ra_bind; [now apply appends_same_trace|]. intros [] w6 _.
  destruct (ucp_error _ =? ERR_NONE Env P); [|apply ra_ret].
  apply ra_bind; [apply ra_wait_event|]. intros [] w7 _.
  apply ra_bind; [now apply appends_same_trace|]. intros ev w8 _.
  apply ra_ret.
Qed.

Lemma check_some (d : arm_uc_firmware_details_t) (w w' : World Env)
      (r : result) (o : option arm_uc_firmware_details_t) :
  checkActiveApplication P fuel (Some d) w = Ret (r, o) w' ->
  (exists d', o = Some d') \/ r = RESULT_ERROR.
Proof.
  unfold checkActiveApplication. unfold bind at 1. unfold emit at 1.
  unfold bind at 1.
  destruct (readActiveFirmwareHeader P fuel (Some d) _)
    as [[b o'] w1|w1|w1] eqn:Hh; try discriminate.
  destruct o' as [d'|]; [|intros H; inversion H; now right].
  destruct (b && (size d' >? 0)).
  - unfold bind.
    destruct (check_loop P fuel _ _ _ _ _ w1) as [[c st] w2|w2|w2];
      try discriminate.
    destruct (memcmp _ _ _ =? 0); intros H; inversion H; eauto.
  - destruct (b && (size d' =? 0)); intros H; inversion H; eauto.
Qed.

Lemma check_after_header (d0 d : arm_uc_firmware_details_t) (valid : bool)
      (w w2 : World Env) :
  readActiveFirmwareHeader P fuel (Some d0)
                           (logged "checkActiveApplication" w)
  = Ret (valid, Some d) w2 ->
  checkActiveApplication P fuel (Some d0) w =
  (if valid && (size d >? 0) then
     bind (check_loop P fuel (size d)
             (u32 (MBED_CONF_APP_APPLICATION_START_ADDRESS Env P))
             (u32 (size d)) 0 (mbedtls_sha256_starts Env P))
          (fun x => let '(ctx, _) := x in
             if memcmp (hash d) (mbedtls_sha256_finish Env P ctx)
                       SIZEOF_SHA256 =? 0
             then ret (RESULT_SUCCESS, Some d)
             else ret (RESULT_ERROR, Some d))
   else if valid && (size d =? 0) then ret (RESULT_EMPTY, Some d)
   else ret (RESULT_ERROR, Some d)) w2.
Proof.
  intros Hhdr. unfold checkActiveApplication.
  unfold bind at 1. unfold emit at 1. fold (logged "checkActiveApplication" w).
  unfold bind at 1. rewrite Hhdr. reflexivity.
Qed.

Lemma check_success_size (d d' : arm_uc_firmware_details_t)
      (w w' : World Env) :
  checkActiveApplication P fuel (Some d) w = Ret (RESULT_SUCCESS, Some d') w' ->
  0 < size d'.
Proof.
  destruct (readActiveFirmwareHeader P fuel (Some d)
              (logged "checkActiveApplication" w))
    as [[b o] w1|w1|w1] eqn:Hh.
  - destruct (read_header_some _ _ _ _ _ Hh) as [d1 ->].
    rewrite (check_after_header _ _ _ _ _ Hh).
    destruct (size d1 >? 0) eqn:Hs.
    + destruct b; simpl.
      * unfold bind.
        destruct (check_loop P fuel _ _ _ _ _ w1) as [[c st] w2|w2|w2];
          try discriminate.
        destruct (memcmp _ _ _ =? 0); intros H; inversion H; subst. lia.
      * destruct (size d1 =? 0); discriminate.
    + rewrite andb_false_r. destruct (b && (size d1 =? 0)); discriminate.
  - unfold checkActiveApplication. unfold bind at 1. unfold emit at 1.
    fold (logged "checkActiveApplication" w). unfold bind at 1.
    rewrite Hh. discriminate.
  - unfold checkActiveApplication. unfold bind at 1. unfold emit at 1.
    fold (logged "checkActiveApplication" w). unfold bind at 1.
    rewrite Hh. discriminate.
Qed.

End Shapes.

(** ** The replace-in-place sequence *)

Section Replace.

Context {Env : Type} (P : Platform Env) (fuel : nat).

Lemma ra_erase_loop (Q : Event -> Prop) (n : nat) (a s res : Z)
      (w : World Env) :
  (forall a n st, Q (EvFlashErase a n st)) ->
  run_appends Q (erase_loop P n a s res w) w.
Proof.
  intros HQ. revert a res w. induction n as [|n IH]; intros a res w; simpl;
    destruct (a <? u32 (FIRMWARE_METADATA_HEADER_ADDRESS Env P + s));
    try apply appends_refl.
  apply ra_bind; [now apply appends_same_trace|]. intros sz w1 _.
  apply ra_bind.
  - unfold call_flash_erase. destruct (flash_erase Env P _ _ _) as [st e].
    eapply appends_one; [reflexivity | apply HQ].
  - intros st w2 _. destruct (negb (st =? 0)); [apply ra_ret | apply IH].
Qed.

Lemma ra_erase (Q : Event -> Prop) (firmwareSize : Z) (w : World Env) :
  Q (EvLog "eraseActiveFirmware") ->
  (forall a n st, Q (EvFlashErase a n st)) ->
  run_appends Q (eraseActiveFirmware P fuel firmwareSize w) w.
Proof.
  intros Hlog HQ. unfold eraseActiveFirmware.
  apply ra_bind; [now apply ra_emit|]. intros [] w1 _.
  apply ra_bind.
  - apply appends_same_trace. now rewrite erase_walk_world.
  - intros x w2 _. destruct (x <? _); [|apply ra_ret].
    apply ra_bind; [now apply ra_erase_loop|]. intros v w3 _. apply ra_ret.
Qed.

Lemma copy_stored_unfold (index : Z) (d : arm_uc_firmware_details_t)
      (w : World Env) :
  copyStoredApplication P fuel index d w =
  bind (eraseActiveFirmware P fuel (u32 (size d)))
    (fun result =>
     bind (if result : bool then writeActiveFirmwareHeader P (Some d)
           else ret result)
       (fun result =>
        bind (if result : bool then writeActiveFirmware P fuel index (Some d)
              else ret result)
          (fun result =>
           if result : bool then
             bind (checkActiveApplication P fuel (Some d))
                  (fun x => let '(recheck, details') := x in
                     ret (result_eqb recheck RESULT_SUCCESS,
                          match details' with
                          | Some d0 => d0 | None => d end))
           else ret (result, d))))
    (logged "copyStoredApplication" w).
Proof. reflexivity. Qed.

Lemma copy_stored_true_inv (index : Z) (d d' : arm_uc_firmware_details_t)
      (w w' : World Env) :
  copyStoredApplication P fuel index d w = Ret (true, d') w' ->
  exists w1 w2 w3,
    eraseActiveFirmware P fuel (u32 (size d))
                        (logged "copyStoredApplication" w) = Ret true w1 /\
    writeActiveFirmwareHeader P (Some d) w1 = Ret true w2 /\
    writeActiveFirmware P fuel index (Some d) w2 = Ret true w3 /\
    checkActiveApplication P fuel (Some d) w3
    = Ret (RESULT_SUCCESS, Some d') w'.
Proof.
  intros Hret. rewrite copy_stored_unfold in Hret. unfold bind at 1 in Hret.
  destruct (eraseActiveFirmware P fuel (u32 (size d))
              (logged "copyStoredApplication" w))
    as [[|] w1|w1|w1] eqn:He; try discriminate.
  unfold bind at 1 in Hret.
  destruct (writeActiveFirmwareHeader P (Some d) w1) as [[|] w2|w2|w2]
    eqn:Hh; try discriminate.
  unfold bind at 1 in Hret.
  destruct (writeActiveFirmware P fuel index (Some d) w2)
    as [[|] w3|w3|w3] eqn:Hw; try discriminate.
  unfold bind at 1 in Hret.
  destruct (checkActiveApplication P fuel (Some d) w3)
    as [[r o] w4|w4|w4] eqn:Hc; try discriminate.
  unfold ret in Hret. inversion Hret; subst.
  destruct r; try discriminate.
  destruct (check_some P fuel _ _ _ _ _ Hc) as [[d0 ->]|]; [|discriminate].
  exists w1, w2, w3. repeat split; assumption.
Qed.

(** C4.  The steps run in the order erase, write header, write
    payload, verify, each in the world the step before left.  When a
    step returns [false] the sequence returns [false] in the world that
    step left, so no later step ran; after a failed erase, in
    particular, the entry message of [writeActiveFirmwareHeader] is not
    in the trace.  When all three writing steps return [true] the
    result is whether the verification returned [RESULT_SUCCESS], and
    the sequence returns [true] only if it did. *)
Theorem replace_in_place_sequence (index : Z)
        (d : arm_uc_firmware_details_t) (w : World Env) :
  let w0 := logged "copyStoredApplication" w in
  let run := copyStoredApplication P fuel index d w in
  let erase := eraseActiveFirmware P fuel (u32 (size d)) w0 in
  (forall w1, erase = Ret false w1 ->
     run = Ret (false, d) w1 /\
     ~ In (EvLog "writeActiveFirmwareHeader") (new_events w w1)) /\
  (forall w1 w2,
     erase = Ret true w1 ->
     writeActiveFirmwareHeader P (Some d) w1 = Ret false w2 ->
     run = Ret (false, d) w2) /\
  (forall w1 w2 w3,
     erase = Ret true w1 ->
     writeActiveFirmwareHeader P (Some d) w1 = Ret true w2 ->
     writeActiveFirmware P fuel index (Some d) w2 = Ret false w3 ->
     run = Ret (false, d) w3) /\
  (forall w1 w2 w3 w4 r d',
     erase = Ret true w1 ->
     writeActiveFirmwareHeader P (Some d) w1 = Ret true w2 ->
     writeActiveFirmware P fuel index (Some d) w2 = Ret true w3 ->
     checkActiveApplication P fuel (Some d) w3 = Ret (r, Some d') w4 ->
     run = Ret (result_eqb r RESULT_SUCCESS, d') w4) /\
  (forall d' w',
     run = Ret (true, d') w' ->
     exists w1 w2 w3,
       erase = Ret true w1 /\
       writeActiveFirmwareHeader P (Some d) w1 = Ret true w2 /\
       writeActiveFirmware P fuel index (Some d) w2 = Ret true w3 /\
       checkActiveApplication P fuel (Some d) w3
       = Ret (RESULT_SUCCESS, Some d') w').
Proof.
  intros w0 run erase.
  assert (Hrun : run = _) by apply copy_stored_unfold.
  fold w0 in Hrun. unfold bind at 1 in Hrun. fold erase in Hrun.
  repeat split.
  - rewrite Hrun, H. reflexivity.
  - intros Hin.
    pose proof (ra_erase
      (fun ev => ev <> EvLog "writeActiveFirmwareHeader")
      (u32 (size d)) w0 ltac:(discriminate) ltac:(discriminate))
      as (evs & Htr & HF).
    fold erase in Htr. rewrite H in Htr. cbn [world_of] in Htr.
    unfold w0, logged in Htr. cbn [trace] in Htr.
    rewrite <- app_assoc in Htr.
    rewrite (new_events_app _ _ _ Htr) in Hin.
    destruct Hin as [Hin|Hin]; [discriminate|].
    rewrite Forall_forall in HF. now apply (HF _ Hin).
  - intros w1 w2 He Hh. rewrite Hrun, He. unfold bind. now rewrite Hh.
  - intros w1 w2 w3 He Hh Hw. rewrite Hrun, He. unfold bind.
    now rewrite Hh, Hw.
  - intros w1 w2 w3 w4 r d' He Hh Hw Hc. rewrite Hrun, He. unfold bind.
    now rewrite Hh, Hw, Hc.
  - intros d' w' Hret. apply copy_stored_true_inv. exact Hret.
Qed.

(** C9.  Let the details record declare size 0, and let the header read
    of the final verification return a record of that size.  Then the
    sequence never returns [true]; and when erase, header write and
    payload write all returned [true], the verification returns
    [RESULT_EMPTY] for a valid header ([RESULT_ERROR] for a failed
    read), not [RESULT_SUCCESS], and the sequence returns [false]. *)
Theorem empty_image_is_never_installed (index : Z)
        (d : arm_uc_firmware_details_t) (w : World Env) :
  size d = 0 ->
  (forall b d' w',
      copyStoredApplication P fuel index d w = Ret (b, d') w' ->
      size d' = size d -> b = false) /\
  (forall w1 w2 w3 wh valid d',
      eraseActiveFirmware P fuel (u32 (size d))
                          (logged "copyStoredApplication" w) = Ret true w1 ->
      writeActiveFirmwareHeader P (Some d) w1 = Ret true w2 ->
      writeActiveFirmware P fuel index (Some d) w2 = Ret true w3 ->
      readActiveFirmwareHeader P fuel (Some d)
                               (logged "checkActiveApplication" w3)
      = Ret (valid, Some d') wh ->
      size d' = size d ->
      checkActiveApplication P fuel (Some d) w3
      = Ret (if valid then RESULT_EMPTY else RESULT_ERROR, Some d') wh /\
      copyStoredApplication P fuel index d w = Ret (false, d') wh).
Proof.
  intros Hz. split.
  - intros b d' w' Hrun Hsz. destruct b; [|reflexivity].
    destruct (copy_stored_true_inv _ _ _ _ _ Hrun)
      as (w1 & w2 & w3 & _ & _ & _ & Hc).
    apply check_success_size in Hc. lia.
  - intros w1 w2 w3 wh valid d' He Hh Hw Hr Hsz.
    assert (Hc : checkActiveApplication P fuel (Some d) w3
                 = Ret (if valid then RESULT_EMPTY else RESULT_ERROR, Some d')
                       wh).
    { rewrite (check_after_header P fuel _ _ _ _ _ Hr).
      rewrite Hsz, Hz. simpl. rewrite andb_false_r.
      destruct valid; reflexivity. }
    split; [exact Hc|].
    rewrite copy_stored_unfold. unfold bind. rewrite He, Hh, Hw, Hc.
    destruct valid; reflexivity.
Qed.

End Replace.

Lemma empty_image_is_never_installed_witness :
  let P := Demo.platform Demo.cfg0 in
  let d := mkDetails 1 0 (Demo.digest []) in
  let w := Demo.world Demo.cfg0 Demo_dev_empty in
  let w1 := world_of (eraseActiveFirmware P 8 (u32 0)
                        (logged "copyStoredApplication" w)) in
  let w2 := world_of (writeActiveFirmwareHeader P (Some d) w1) in
  let w3 := world_of (writeActiveFirmware P 8 0 (Some d) w2) in
  let wh := world_of (readActiveFirmwareHeader P 8 (Some d)
                        (logged "checkActiveApplication" w3)) in
  checkActiveApplication P 8 (Some d) w3 = Ret (RESULT_EMPTY, Some d) wh /\
  copyStoredApplication P 8 0 d w = Ret (false, d) wh.
Proof.
  intros P d w w1 w2 w3 wh.
  exact (proj2 (empty_image_is_never_installed P 8 0 d w eq_refl)
           w1 w2 w3 wh true d
           ltac:(vm_compute; reflexivity) ltac:(vm_compute; reflexivity)
           ltac:(vm_compute; reflexivity) ltac:(vm_compute; reflexivity)
           eq_refl).
Defined.

(** ** The region writer *)

Section Writer.

Context {Env : Type} (P : Platform Env) (fuel : nat).

Lemma divide_u32 (p x : Z) : (p | 2 ^ 32) -> (p | x) -> (p | u32 x).
Proof.
  intros Hp Hx. unfold u32. rewrite Z.mod_eq by lia.
  apply Z.divide_sub_r; [exact Hx|]. now apply Z.divide_mul_l.
Qed.

Lemma ra_program_pages (p : Z) :
  p <> 0 -> (p | 2 ^ 32) ->
  forall (n : nat) (app off programSize po retval : Z) (w : World Env),
    (p | app) -> (p | off) -> (p | po) ->
    run_appends (page_aligned p)
                (program_pages P n app off p programSize po retval w) w.
Proof.
  intros Hp0 Hp. induction n as [|n IH];
    intros app off programSize po retval w Ha Ho Hpo; simpl;
    destruct ((po <? programSize) && (retval =? 0));
    try apply appends_refl.
  apply ra_bind.
  - unfold call_flash_program. destruct (flash_program Env P _ _ _ _) as [st e].
    eapply appends_one; [reflexivity|]. simpl.
    apply Z.mod_divide; [exact Hp0|]. apply divide_u32; [exact Hp|].
    repeat apply Z.divide_add_r; assumption.
  - intros st w1 _. apply IH; try assumption.
    apply divide_u32; [exact Hp|]. apply Z.divide_add_r; [assumption|].
    apply Z.divide_refl.
Qed.

Lemma ra_write_loop (p : Z) :
  p <> 0 -> (p | 2 ^ 32) ->
  forall (n : nat) (index dsize app size_max offset retval : Z)
         (w : World Env),
    (p | app) -> (p | offset) ->
    run_appends (page_aligned p)
                (write_loop P fuel n index dsize app p size_max offset retval w)
                w.
Proof.
  intros Hp0 Hp. induction n as [|n IH];
    intros index dsize app size_max offset retval w Ha Ho; simpl;
    destruct ((offset <? dsize) && (retval =? 0));
    try apply appends_refl.
  apply ra_bind; [now apply appends_same_trace|]. intros [] w1 _.
  apply ra_bind; [now apply appends_same_trace|]. intros e w2 _.
  apply ra_bind; [now apply appends_same_trace|]. intros buf w3 _.
  apply ra_bind.
  { apply ra_emit. simpl. now apply Z.mod_divide. }
  intros [] w4 _.
  apply ra_bind; [now apply appends_same_trace|]. intros [] w5 _.
  apply ra_bind; [now apply appends_same_trace|]. intros [] w6 _.
  apply ra_bind; [now apply appends_same_trace|]. intros [] w7 _.
  apply ra_bind.
  { destruct (ucp_error _ =? ERR_NONE Env P);
      [apply ra_wait_event | apply ra_ret]. }
  intros [] w8 _.
  apply ra_bind; [now apply appends_same_trace|]. intros ev w9 _.
  destruct ((ev =? ARM_UC_PAAL_EVENT_READ_DONE Env P) && _); [|apply ra_ret].
  apply ra_bind.
  { apply ra_program_pages; try assumption. apply Z.divide_0_r. }
  intros st w10 _. apply IH; [assumption|].
  apply divide_u32; [exact Hp|]. apply Z.divide_add_r; [assumption|].
  apply divide_u32; [exact Hp|]. apply Z.divide_factor_r.
Qed.

End Writer.

(** C6, as amended.  Let the page size divide 2^32 and the application
    start be a multiple of it.  Then the assertion before the loop
    passes, the loop starts at offset 0, and in every run - returning or
    not - every program call is at a multiple of the page size, and so
    is every offset at which the update source is asked for a chunk. *)
Theorem program_calls_page_aligned {Env} (P : Platform Env) (fuel : nat)
        (index : Z) (d : arm_uc_firmware_details_t) (w : World Env) :
  let p := flash_get_page_size Env P (env w) in
  let app := u32 (MBED_CONF_APP_APPLICATION_START_ADDRESS Env P) in
  0 < p -> (p | 2 ^ 32) -> app mod p = 0 ->
  let run := writeActiveFirmware P fuel index (Some d) w in
  run =
    bind (write_loop P fuel fuel index (size d) app p
                     (u32 (BUFFER_SIZE Env P / p * p)) 0 0)
         (fun retval => ret (retval =? 0))
         (logged "writeActiveFirmware" w) /\
  run_appends (page_aligned p) run w.
Proof.
  intros p app Hpos Hdiv Hal run.
  assert (Hrun : run =
    bind (write_loop P fuel fuel index (size d) app p
                     (u32 (BUFFER_SIZE Env P / p * p)) 0 0)
         (fun retval => ret (retval =? 0))
         (logged "writeActiveFirmware" w)).
  { unfold run, writeActiveFirmware. unfold bind at 1. unfold emit at 1.
    fold (logged "writeActiveFirmware" w).
    unfold bind at 1. unfold get_page_size at 1.
    cbn [logged env]. fold p. fold app. rewrite Hal. reflexivity. }
  split; [exact Hrun|]. rewrite Hrun.
  eapply appends_trans.
  - apply (appends_one (page_aligned p) w (logged "writeActiveFirmware" w)
             (EvLog "writeActiveFirmware")); [reflexivity | exact I].
  - apply ra_bind.
    + apply ra_write_loop; try lia; try assumption.
      * apply Z.mod_divide; [lia | exact Hal].
      * apply Z.divide_0_r.
    + intros v w1 _. apply ra_ret.
Qed.

Lemma program_calls_page_aligned_witness :
  let P := Demo.platform Demo.cfg0 in
  let w := Demo.world Demo.cfg0 Demo.dev0 in
  run_appends (page_aligned 4)
              (writeActiveFirmware P 8 0 (Some (Demo.d_header Demo.dev0)) w) w.
Proof.
  exact (proj2 (program_calls_page_aligned (Demo.platform Demo.cfg0) 8 0
                  (Demo.d_header Demo.dev0) (Demo.world Demo.cfg0 Demo.dev0)
                  ltac:(simpl; lia)
                  ltac:(exists (2 ^ 30); reflexivity)
                  eq_refl)).
Defined.

(** C6, counterexample.  With pages of 3 bytes the application may start
    at 0xFFFFFFFF, a multiple of 3; the second page of the first chunk
    is then programmed at 0xFFFFFFFF + 3, which is address 2 in 32
    bits. *)
Lemma program_calls_aligned_as_specified_fails :
  ~ program_calls_aligned_as_specified
      (Demo.platform Demo_cfg_page3) 8 0 (Demo.d_header Demo.dev0)
      (Demo.world Demo_cfg_page3 Demo.dev0).
Proof.
  intros H. specialize (H eq_refl).
  vm_compute in H.
  inversion H as [|? ? _ H1]; subst. inversion H1 as [|? ? _ H2]; subst.
  inversion H2 as [|? ? _ H3]; subst. inversion H3 as [|? ? Hbad _]; subst.
  discriminate Hbad.
Qed.

(** ** The mirror into the block device *)

Section Mirror.

Context {Env : Type} (P : Platform Env) (fuel : nat).

Lemma ra_mirror_loop (Q : Event -> Prop) (n : nat)
      (dsize appStart remaining status offset : Z) (w : World Env) :
  (forall a k st, Q (EvFlashRead a k st)) ->
  (forall a k st, Q (EvBdProgram SrcBuffer a k st)) ->
  run_appends Q (mirror_loop P n dsize appStart remaining status offset w) w.
Proof.
  intros Hr Hp. revert remaining status offset w.
  induction n as [|n IH]; intros remaining status offset w; simpl;
    destruct ((remaining >? 0) && (status =? 0)); try apply appends_refl.
  apply ra_bind.
  { unfold call_flash_read. destruct (flash_read Env P _ _ _ _) as [[st b] e].
    eapply appends_one; [reflexivity | apply Hr]. }
  intros st w1 _.
  apply ra_bind; [now apply appends_same_trace|]. intros buf w2 _.
  apply ra_bind.
  { unfold call_ubd_program. destruct (ubd_program Env P _ _ _ _) as [st' e].
    eapply appends_one; [reflexivity | apply Hp]. }
  intros st' w3 _. apply IH.
Qed.

Lemma commit_last_of_appends (off len : Z) (r : Run Env result)
      (w : World Env) :
  run_appends before_commit r w -> commit_last off len r w.
Proof. intros (evs & Htr & HF). exists evs. split; [exact Htr | now left]. Qed.

Lemma commit_last_bind {A} (off len : Z) (m : M Env A)
      (f : A -> M Env result) (w : World Env) :
  run_appends before_commit (m w) w ->
  (forall a w1, m w = Ret a w1 -> commit_last off len (f a w1) w1) ->
  commit_last off len (bind m f w) w.
Proof.
  intros Hm Hf. unfold bind.
  destruct (m w) as [a w1|w1|w1] eqn:E;
    try (now apply commit_last_of_appends).
  destruct Hm as (e1 & H1 & F1). cbn [world_of] in H1.
  destruct (Hf a w1 eq_refl)
    as (e2 & H2 & [F2|[(pre & x & n & -> & Fp & Hv)
                      |(pre & x & n & st & -> & Fp & Hv)]]).
  - exists (e1 ++ e2). split; [now rewrite H2, H1, app_assoc|].
    left. apply Forall_app. now split.
  - exists (e1 ++ pre ++ [EvBdSha x n]).
    split; [now rewrite H2, H1, <- app_assoc|].
    right. left. exists (e1 ++ pre), x, n.
    split; [now rewrite app_assoc|].
    split; [apply Forall_app; now split | exact Hv].
  - exists (e1 ++ pre ++ [EvBdSha x n; EvBdProgram SrcDetails off len st]).
    split; [now rewrite H2, H1, <- app_assoc|].
    right. right. exists (e1 ++ pre), x, n, st.
    split; [now rewrite app_assoc|].
    split; [apply Forall_app; now split | exact Hv].
Qed.

Lemma mirror_commit_spec (d : arm_uc_firmware_details_t) (off : Z)
      (sha : list byte) (w : World Env) :
  let r := mirror_commit P d off sha w in
  (firstn 32 (hash d) <> firstn 32 sha -> r = Ret RESULT_ERROR w) /\
  (firstn 32 (hash d) = firstn 32 sha ->
   value_of r = Some RESULT_SUCCESS /\
   exists st,
     trace (world_of r) =
     trace w ++ [EvBdProgram SrcDetails off (sizeof_details Env P) st]).
Proof.
  unfold mirror_commit. split.
  - intros Hne.
    destruct (Z.eqb_spec (memcmp (hash d) sha SIZEOF_SHA256) 0) as [E|E];
      [|reflexivity].
    apply memcmp_zero_iff in E. contradiction.
  - intros Heq. apply (memcmp_zero_iff _ _ SIZEOF_SHA256) in Heq.
    rewrite Heq. simpl. unfold bind, call_ubd_program.
    destruct (ubd_program Env P _ _ _ _) as [st e]. cbn.
    split; [reflexivity|]. now exists st.
Qed.

Lemma commit_last_tail (d : arm_uc_firmware_details_t) (off a n : Z)
      (w : World Env) :
  commit_last off (sizeof_details Env P)
    (bind (call_bdSha256_calculate Env P a n)
          (fun shaInBd => mirror_commit P d off shaInBd) w) w.
Proof.
  unfold bind, call_bdSha256_calculate.
  destruct (bdSha256_calculate Env P _ _ _ _) as [[sha b] e].
  set (w1 := mkWorld e b (event_callback w) (trace w ++ [EvBdSha a n])).
  destruct (mirror_commit_spec d off sha w1) as [Hne Heq].
  destruct (list_eq_dec Byte.byte_eq_dec (firstn 32 (hash d)) (firstn 32 sha))
    as [E|E].
  - destruct (Heq E) as [Hv [st Htr]].
    exists [EvBdSha a n; EvBdProgram SrcDetails off (sizeof_details Env P) st].
    split; [rewrite Htr; unfold w1; cbn [trace]; now rewrite <- app_assoc|].
    right. right. exists [], a, n, st. split; [reflexivity|].
    split; [constructor | exact Hv].
  - rewrite (Hne E). exists [EvBdSha a n]. split; [reflexivity|].
    right. left. exists [], a, n. split; [reflexivity|].
    split; [constructor | reflexivity].
Qed.

Lemma commit_last_mirror (uninit : arm_uc_firmware_details_t)
      (bdOffset : Z) (w : World Env) :
  commit_last bdOffset (sizeof_details Env P)
              (copyActiveApplicationIntoFlash P fuel uninit bdOffset w) w.
Proof.
  unfold copyActiveApplicationIntoFlash.
  apply commit_last_bind; [now apply ra_emit|]. intros [] w1' _.
  apply commit_last_bind.
  { unfold call_ubd_init. destruct (ubd_init Env P _) as [st e].
    eapply appends_one; [reflexivity | exact I]. }
  intros st w2' _.
  destruct (negb (st =? BD_ERROR_OK Env P));
    [apply commit_last_of_appends, ra_ret|].
  apply commit_last_bind; [apply ra_read_header; exact I|].
  intros [hv o] w3 _.
  destruct (hv && _).
  - apply commit_last_bind.
    { unfold call_ubd_read. destruct (ubd_read Env P _ _ _) as [[st2 raw'] e].
      eapply appends_one; [reflexivity | exact I]. }
    intros [st2 raw'] w4 _.
    destruct (negb (st2 =? BD_ERROR_OK Env P));
      [apply commit_last_of_appends, ra_ret|].
    destruct ((_ =? _) && (_ =? _));
      [apply commit_last_of_appends, ra_ret|].
    apply commit_last_bind; [apply ra_mirror_loop; intros; exact I|].
    intros st3' w5' _. apply commit_last_tail.
  - destruct (hv && _); apply commit_last_of_appends, ra_ret.
Qed.

Lemma mirror_reaches_comparison (Q : Event -> Prop)
      (uninit d : arm_uc_firmware_details_t) (bdOffset : Z)
      (w w2 w5 : World Env) (e1 e3 : Env) (raw : list byte) (st3 : Z) :
  (forall fn, Q (EvLog fn)) -> Q EvGetDetails ->
  (forall st, Q (EvBdInit st)) -> (forall a n st, Q (EvBdRead a n st)) ->
  (forall a n st, Q (EvFlashRead a n st)) ->
  (forall a n st, Q (EvBdProgram SrcBuffer a n st)) ->
  ubd_init Env P (env w) = (BD_ERROR_OK Env P, e1) ->
  readActiveFirmwareHeader P fuel (Some uninit)
    (mirror_started w (BD_ERROR_OK Env P) e1) = Ret (true, Some d) w2 ->
  0 < size d ->
  ubd_read Env P (env w2) bdOffset (sizeof_details Env P)
  = (BD_ERROR_OK Env P, raw, e3) ->
  (version (details_of_bytes Env P raw) <> version d \/
   size (details_of_bytes Env P raw) <> size d) ->
  mirror_loop P fuel (size d)
              (u32 (MBED_CONF_APP_APPLICATION_START_ADDRESS Env P))
              (u32 (size d)) 0 (u32 (bdOffset + sizeof_details Env P))
              (after_bd_read w2 bdOffset (sizeof_details Env P)
                             (BD_ERROR_OK Env P) e3)
  = Ret st3 w5 ->
  copyActiveApplicationIntoFlash P fuel uninit bdOffset w =
  bind (call_bdSha256_calculate Env P (u32 (bdOffset + sizeof_details Env P))
                                (size d))
       (fun shaInBd => mirror_commit P d bdOffset shaInBd) w5 /\
  appends Q w w5.
Proof.
  intros Qlog Qget Qinit Qread Qfr Qbp Hinit Hhdr Hsz Hread Hdiff Hloop.
  split.
  - unfold copyActiveApplicationIntoFlash.
    unfold bind at 1. unfold emit at 1.
    unfold bind at 1. unfold call_ubd_init at 1. cbn [env].
    rewrite Hinit. cbn [buffer_array event_callback trace].
    rewrite Z.eqb_refl. cbn [negb].
    fold (mirror_started w (BD_ERROR_OK Env P) e1).
    unfold bind at 1. rewrite Hhdr.
    replace (size d >? 0) with true by (symmetry; apply Z.gtb_lt; lia).
    cbn [andb].
    unfold bind at 1. unfold call_ubd_read at 1. rewrite Hread.
    rewrite Z.eqb_refl. cbn [negb].
    fold (after_bd_read w2 bdOffset (sizeof_details Env P)
                        (BD_ERROR_OK Env P) e3).
    replace ((version (details_of_bytes Env P raw) =? version d) &&
             (size (details_of_bytes Env P raw) =? size d)) with false.
    2:{ symmetry. apply andb_false_iff.
        destruct Hdiff as [H|H]; [left | right]; now apply Z.eqb_neq. }
    unfold bind at 1. rewrite Hloop. reflexivity.
  - apply (appends_trans Q w (mirror_started w (BD_ERROR_OK Env P) e1)).
    { exists [EvLog "copyActiveApplicationIntoFlash";
              EvBdInit (BD_ERROR_OK Env P)].
      split; [unfold mirror_started; cbn [trace];
              now rewrite <- app_assoc|].
      constructor; [apply Qlog|]. constructor; [apply Qinit | constructor]. }
    apply (appends_trans Q _ w2).
    { pose proof (ra_read_header P fuel Q (Some uninit)
                    (mirror_started w (BD_ERROR_OK Env P) e1)
                    (Qlog _) Qget) as H.
      unfold run_appends in H. now rewrite Hhdr in H. }
    apply (appends_trans Q _ (after_bd_read w2 bdOffset (sizeof_details Env P)
                                            (BD_ERROR_OK Env P) e3)).
    { eapply appends_one; [reflexivity | apply Qread]. }
    pose proof (ra_mirror_loop Q fuel (size d)
                  (u32 (MBED_CONF_APP_APPLICATION_START_ADDRESS Env P))
                  (u32 (size d)) 0 (u32 (bdOffset + sizeof_details Env P))
                  (after_bd_read w2 bdOffset (sizeof_details Env P)
                                 (BD_ERROR_OK Env P) e3) Qfr Qbp) as H.
    unfold run_appends in H. now rewrite Hloop in H.
Qed.

End Mirror.

(** C7.  Let a run of the mirror reach the comparison of the digests:
    the block device initialises, the header read returns a valid
    header of positive size, the stored details record is read and is
    not current, and the copy loop returns.  The digest compared with
    the one of the header is the one computed over the block device as
    the copy loop left it, from the offset behind the details record
    on, over the size of the header.  Up to and including that
    computation the run wrote no details record.  If the 32 bytes of
    the two digests differ, the run returns [RESULT_ERROR] right after
    the computation: the details record is not written.  If they
    agree, the run writes the encoded header at the offset - the one
    program call after the computation and the last event - and returns
    [RESULT_SUCCESS].  And every run of the mirror, reaching the
    comparison or not, has one of three shapes: no digest computation
    and no details record; the digest computation as its last event,
    with [RESULT_ERROR]; or the digest computation followed by the
    write of the details record as its last event, with
    [RESULT_SUCCESS]. *)
Theorem mirror_commits_last {Env} (P : Platform Env) (fuel : nat)
        (uninit d : arm_uc_firmware_details_t) (bdOffset : Z)
        (w w2 w5 : World Env) (e1 e3 : Env) (raw : list byte) (st3 : Z) :
  let off := u32 (bdOffset + sizeof_details Env P) in
  ubd_init Env P (env w) = (BD_ERROR_OK Env P, e1) ->
  readActiveFirmwareHeader P fuel (Some uninit)
    (mirror_started w (BD_ERROR_OK Env P) e1) = Ret (true, Some d) w2 ->
  0 < size d ->
  ubd_read Env P (env w2) bdOffset (sizeof_details Env P)
  = (BD_ERROR_OK Env P, raw, e3) ->
  (version (details_of_bytes Env P raw) <> version d \/
   size (details_of_bytes Env P raw) <> size d) ->
  mirror_loop P fuel (size d)
              (u32 (MBED_CONF_APP_APPLICATION_START_ADDRESS Env P))
              (u32 (size d)) 0 off
              (after_bd_read w2 bdOffset (sizeof_details Env P)
                             (BD_ERROR_OK Env P) e3)
  = Ret st3 w5 ->
  let calc :=
    bdSha256_calculate Env P (env w5) (buffer_array w5) off (size d) in
  let shaInBd := fst (fst calc) in
  let w6 := mkWorld (snd calc) (snd (fst calc)) (event_callback w5)
                    (trace w5 ++ [EvBdSha off (size d)]) in
  let prog :=
    ubd_program Env P (env w6) (bytes_of_details Env P d) bdOffset
                (sizeof_details Env P) in
  let run := copyActiveApplicationIntoFlash P fuel uninit bdOffset w in
  Forall no_record_write (new_events w w6) /\
  (firstn 32 (hash d) <> firstn 32 shaInBd -> run = Ret RESULT_ERROR w6) /\
  (firstn 32 (hash d) = firstn 32 shaInBd ->
   run = Ret RESULT_SUCCESS
             (mkWorld (snd prog) (buffer_array w6) (event_callback w6)
                      (trace w6 ++
                       [EvBdProgram SrcDetails bdOffset
                                    (sizeof_details Env P) (fst prog)]))) /\
  commit_last bdOffset (sizeof_details Env P) run w.
Proof.
  intros off Hinit Hhdr Hsz Hread Hdiff Hloop calc shaInBd w6 prog run.
  destruct (mirror_reaches_comparison P fuel no_record_write uninit d bdOffset
              w w2 w5 e1 e3 raw st3
              ltac:(intros; exact I) I ltac:(intros; exact I)
              ltac:(intros; exact I) ltac:(intros; exact I)
              ltac:(intros; exact I) Hinit Hhdr Hsz Hread Hdiff Hloop)
    as [Hrun (evs & Htr & HF)].
  fold off in Hrun. fold run in Hrun.
  assert (Hrun' : run = mirror_commit P d bdOffset shaInBd w6).
  { rewrite Hrun. unfold bind, call_bdSha256_calculate.
    unfold shaInBd, w6, calc.
    destruct (bdSha256_calculate Env P (env w5) (buffer_array w5) off (size d))
      as [[sha b] e]. reflexivity. }
  split; [|split; [|split]].
  - rewrite (new_events_app w w6 (evs ++ [EvBdSha off (size d)])).
    + apply Forall_app. split; [exact HF | repeat constructor].
    + unfold w6. cbn [trace]. rewrite Htr. now rewrite <- app_assoc.
  - intros Hne. rewrite Hrun'.
    apply (proj1 (mirror_commit_spec P d bdOffset shaInBd w6)). exact Hne.
  - intros Heq. rewrite Hrun'. unfold mirror_commit.
    apply (memcmp_zero_iff _ _ SIZEOF_SHA256) in Heq. rewrite Heq.
    cbn [Z.eqb]. unfold bind, call_ubd_program. unfold prog.
    destruct (ubd_program Env P (env w6) (bytes_of_details Env P d) bdOffset
                (sizeof_details Env P)) as [st e]. reflexivity.
  - apply commit_last_mirror.
Qed.

Lemma mirror_commits_last_witness :
  let P := Demo.platform Demo.cfg0 in
  let uninit := mkDetails 0 0 [] in
  let d := Demo.d_header Demo.dev0 in
  let w := Demo.world Demo.cfg0 Demo.dev0 in
  let w2 := world_of (readActiveFirmwareHeader P 8 (Some uninit)
                        (mirror_started w (BD_ERROR_OK Demo.Dev P) Demo.dev0)) in
  let off := u32 (0 + sizeof_details Demo.Dev P) in
  let w5 := world_of
              (mirror_loop P 8 (size d)
                 (u32 (MBED_CONF_APP_APPLICATION_START_ADDRESS Demo.Dev P))
                 (u32 (size d)) 0 off
                 (after_bd_read w2 0 (sizeof_details Demo.Dev P)
                                (BD_ERROR_OK Demo.Dev P) Demo.dev0)) in
  let calc :=
    bdSha256_calculate Demo.Dev P (env w5) (buffer_array w5) off (size d) in
  let shaInBd := fst (fst calc) in
  let w6 := mkWorld (snd calc) (snd (fst calc)) (event_callback w5)
                    (trace w5 ++ [EvBdSha off (size d)]) in
  let prog :=
    ubd_program Demo.Dev P (env w6) (bytes_of_details Demo.Dev P d) 0
                (sizeof_details Demo.Dev P) in
  let run := copyActiveApplicationIntoFlash P 8 uninit 0 w in
  Forall no_record_write (new_events w w6) /\
  (firstn 32 (hash d) <> firstn 32 shaInBd -> run = Ret RESULT_ERROR w6) /\
  (firstn 32 (hash d) = firstn 32 shaInBd ->
   run = Ret RESULT_SUCCESS
             (mkWorld (snd prog) (buffer_array w6) (event_callback w6)
                      (trace w6 ++
                       [EvBdProgram SrcDetails 0
                                    (sizeof_details Demo.Dev P) (fst prog)]))) /\
  commit_last 0 (sizeof_details Demo.Dev P) run w.
Proof.
  intros P uninit d w w2 off w5.
  exact (mirror_commits_last P 8 uninit d 0 w w2 w5 Demo.dev0 Demo.dev0
           (slice (Demo.d_bd Demo.dev0) 0 34) 0
           ltac:(reflexivity) ltac:(vm_compute; reflexivity)
           ltac:(simpl; lia) ltac:(vm_compute; reflexivity)
           ltac:(left; vm_compute; discriminate)
           ltac:(vm_compute; reflexivity)).
Defined.

Lemma mirror_skip_run {Env} (P : Platform Env) (fuel : nat)
      (uninit d : arm_uc_firmware_details_t) (bdOffset : Z)
      (w w2 : World Env) (e1 e3 : Env) (raw : list byte) :
  ubd_init Env P (env w) = (BD_ERROR_OK Env P, e1) ->
  readActiveFirmwareHeader P fuel (Some uninit)
    (mirror_started w (BD_ERROR_OK Env P) e1) = Ret (true, Some d) w2 ->
  0 < size d ->
  ubd_read Env P (env w2) bdOffset (sizeof_details Env P)
  = (BD_ERROR_OK Env P, raw, e3) ->
  version (details_of_bytes Env P raw) = version d ->
  size (details_of_bytes Env P raw) = size d ->
  let run := copyActiveApplicationIntoFlash P fuel uninit bdOffset w in
  run = Ret RESULT_SUCCESS
            (after_bd_read w2 bdOffset (sizeof_details Env P)
                           (BD_ERROR_OK Env P) e3) /\
  Forall no_copy (new_events w (world_of run)).
Proof.
  intros Hinit Hhdr Hsz Hread Hv Hs run.
  assert (Hrun : run =
    Ret RESULT_SUCCESS
        (after_bd_read w2 bdOffset (sizeof_details Env P)
                       (BD_ERROR_OK Env P) e3)).
  { unfold run, copyActiveApplicationIntoFlash.
    unfold bind at 1. unfold emit at 1.
    unfold bind at 1. unfold call_ubd_init at 1. cbn [env].
    rewrite Hinit. cbn [buffer_array event_callback trace].
    rewrite Z.eqb_refl. cbn [negb].
    fold (mirror_started w (BD_ERROR_OK Env P) e1).
    unfold bind at 1. rewrite Hhdr.
    replace (size d >? 0) with true by (symmetry; apply Z.gtb_lt; lia).
    cbn [andb].
    unfold bind at 1. unfold call_ubd_read at 1. rewrite Hread.
    rewrite Z.eqb_refl. cbn [negb].
    rewrite Hv, Hs, !Z.eqb_refl. reflexivity. }
  split; [exact Hrun|]. rewrite Hrun. cbn [world_of].
  destruct (ra_read_header P fuel no_copy (Some uninit)
              (mirror_started w (BD_ERROR_OK Env P) e1) I I)
    as (evs & Htr & HF).
  rewrite Hhdr in Htr. cbn [world_of] in Htr.
  unfold mirror_started in Htr. cbn [trace] in Htr.
  rewrite (new_events_app w _
    ([EvLog "copyActiveApplicationIntoFlash"; EvBdInit (BD_ERROR_OK Env P)]
     ++ evs ++
     [EvBdRead bdOffset (sizeof_details Env P) (BD_ERROR_OK Env P)])).
  - constructor; [exact I|]. constructor; [exact I|].
    apply Forall_app. split; [exact HF | repeat constructor].
  - unfold after_bd_read. cbn [trace]. rewrite Htr.
    rewrite <- !app_assoc. reflexivity.
Qed.

(** ** The statuses of the block-device program calls *)

Section Statuses.

Context {Env : Type} (P : Platform Env)
        (f : Env -> list byte -> Z -> Z -> Z * Env).

Hypothesis same_effect :
  forall e data a n, snd (f e data a n) = snd (ubd_program Env P e data a n).

Local Abbreviation P' := (with_ubd_program P f).

Lemma same_state_refl (w : World Env) : same_state w w.
Proof. repeat split. Qed.

Lemma sim_bind {A B} (m m' : M Env A) (k k' : A -> M Env B)
      (w w' : World Env) :
  same_run (m w) (m' w') ->
  (forall a w1 w1', same_state w1 w1' -> same_run (k a w1) (k' a w1')) ->
  same_run (bind m k w) (bind m' k' w').
Proof.
  unfold bind. intros Hm Hk.
  destruct (m w) as [a w1|w1|w1], (m' w') as [a' w1'|w1'|w1'];
    simpl in Hm; try contradiction; try exact Hm.
  destruct Hm as [-> Hs]. now apply Hk.
Qed.

Ltac same_worlds w w' H :=
  destruct w as [e b ev t], w' as [e' b' ev' t'];
  destruct H as (He & Hb & Hev); cbn in He, Hb, Hev; subst e' b' ev'.

Lemma sim_emit (x x' : Event) (w w' : World Env) :
  same_state w w' -> same_run (emit Env x w) (emit Env x' w').
Proof. intros H. same_worlds w w' H. repeat split. Qed.

Lemma sim_wait_event (n : nat) (sig : nat -> Z) (k : nat) (w w' : World Env) :
  same_state w w' ->
  same_run (wait_event P n sig k w) (wait_event P' n sig k w').
Proof.
  revert k w w'. induction n as [|n IH]; intros k w w' H; simpl.
  - same_worlds w w' H. cbn.
    destruct (ev =? CLEAR_EVENT Env P); repeat split.
  - assert (Hcb : event_callback w = event_callback w') by apply H.
    rewrite <- Hcb.
    change (CLEAR_EVENT Env P') with (CLEAR_EVENT Env P).
    destruct (event_callback w =? CLEAR_EVENT Env P); [|now split].
    apply sim_bind.
    + same_worlds w w' H. repeat split.
    + intros [] w1 w1' H1. now apply IH.
Qed.

Lemma sim_read_header (o : option arm_uc_firmware_details_t) (fuel : nat)
      (w w' : World Env) :
  same_state w w' ->
  same_run (readActiveFirmwareHeader P fuel o w)
           (readActiveFirmwareHeader P' fuel o w').
Proof.
  intros H. unfold readActiveFirmwareHeader.
  apply sim_bind; [now apply sim_emit|]. intros [] w1 w1' H1.
  destruct o as [d|]; [|now split].
  apply sim_bind.
  { same_worlds w1 w1' H1. repeat split. }
  intros [] w2 w2' H2.
  apply sim_bind.
  { same_worlds w2 w2' H2. repeat split. }
  intros x w3 w3' H3.
  apply sim_bind; [now apply sim_emit|]. intros [] w4 w4' H4.
  change (ARM_UCP_GetActiveFirmwareDetails Env P')
    with (ARM_UCP_GetActiveFirmwareDetails Env P).
  change (ERR_NONE Env P') with (ERR_NONE Env P).
  apply sim_bind.
  { same_worlds w4 w4' H4. repeat split. }
  intros [] w5 w5' H5.
  apply sim_bind.
  { same_worlds w5 w5' H5. repeat split. }
  intros [] w6 w6' H6.
  destruct (ucp_error _ =? ERR_NONE Env P); [|now split].
  apply sim_bind; [now apply sim_wait_event|]. intros [] w7 w7' H7.
  apply sim_bind.
  { same_worlds w7 w7' H7. repeat split. }
  intros y w8 w8' H8. now split.
Qed.

Lemma sim_ubd_program (src : Src) (data : list byte) (a n : Z)
      (w w' : World Env) :
  same_state w w' ->
  exists st st' w1 w1',
    call_ubd_program Env P src data a n w = Ret st w1 /\
    call_ubd_program Env P' src data a n w' = Ret st' w1' /\
    same_state w1 w1'.
Proof.
  intros H. same_worlds w w' H. unfold call_ubd_program. cbn.
  pose proof (same_effect e data a n) as Hs.
  destruct (f e data a n) as [s1 e1], (ubd_program Env P e data a n)
    as [s2 e2]. simpl in Hs. subst e2.
  eexists _, _, _, _. split; [reflexivity|]. split; [reflexivity|].
  repeat split.
Qed.

Lemma sim_mirror_loop (n : nat) (dsize appStart : Z) :
  forall (remaining status offset : Z) (w w' : World Env),
    same_state w w' ->
    same_run (mirror_loop P n dsize appStart remaining status offset w)
             (mirror_loop P' n dsize appStart remaining status offset w').
Proof.
  induction n as [|n IH]; intros remaining status offset w w' H; simpl;
    change (BUFFER_SIZE Env P') with (BUFFER_SIZE Env P);
    destruct ((remaining >? 0) && (status =? 0)); try (now split);
    try exact H.
  apply sim_bind.
  { same_worlds w w' H. unfold call_flash_read. cbn.
    change (flash_read Env P') with (flash_read Env P).
    destruct (flash_read Env P _ _ _ _) as [[st b1] e1]. repeat split. }
  intros st w1 w1' H1.
  apply sim_bind.
  { same_worlds w1 w1' H1. repeat split. }
  intros buf w2 w2' H2.
  unfold bind.
  destruct (sim_ubd_program SrcBuffer
              (slice buf 0 (if remaining >? BUFFER_SIZE Env P
                            then BUFFER_SIZE Env P else remaining))
              offset
              (if remaining >? BUFFER_SIZE Env P
               then BUFFER_SIZE Env P else remaining) w2 w2' H2)
    as (s1 & s2 & w3 & w3' & E1 & E2 & H3).
  rewrite E1, E2. now apply IH.
Qed.

Lemma same_run_value {A} (r r' : Run Env A) :
  same_run r r' ->
  value_of r = value_of r' /\ same_state (world_of r) (world_of r').
Proof.
  destruct r, r'; simpl; try contradiction; try (now split).
  intros [-> H]. now split.
Qed.

(** C10.  Replace the program call of the block device by one that has
    the same effect on the device and returns other statuses.  Started
    in the same world, the mirror then ends the same way, returns the
    same value and leaves the same device, staging buffer and event
    variable: no status of a program call reaches the result. *)
Theorem program_statuses_are_dropped (fuel : nat)
        (uninit : arm_uc_firmware_details_t) (bdOffset : Z) (w : World Env) :
  let r := copyActiveApplicationIntoFlash P fuel uninit bdOffset w in
  let r' := copyActiveApplicationIntoFlash P' fuel uninit bdOffset w in
  same_run r r' /\
  value_of r = value_of r' /\
  same_state (world_of r) (world_of r').
Proof.
  intros r r'.
  assert (H : same_run r r'); [|split; [exact H | now apply same_run_value]].
  unfold r, r', copyActiveApplicationIntoFlash.
  change (BD_ERROR_OK Env P') with (BD_ERROR_OK Env P).
  change (sizeof_details Env P') with (sizeof_details Env P).
  change (details_of_bytes Env P') with (details_of_bytes Env P).
  change (MBED_CONF_APP_APPLICATION_START_ADDRESS Env P')
    with (MBED_CONF_APP_APPLICATION_START_ADDRESS Env P).
  apply sim_bind; [apply sim_emit, same_state_refl|]. intros [] w1 w1' H1.
  apply sim_bind.
  { same_worlds w1 w1' H1. unfold call_ubd_init. cbn.
    change (ubd_init Env P') with (ubd_init Env P).
    destruct (ubd_init Env P e) as [st e1]. repeat split. }
  intros st w2 w2' H2.
  destruct (negb (st =? BD_ERROR_OK Env P)); [now split|].
  apply sim_bind; [now apply sim_read_header|].
  intros [hv o] w3 w3' H3.
  destruct (hv && _).
  - apply sim_bind.
    { same_worlds w3 w3' H3. unfold call_ubd_read. cbn.
      change (ubd_read Env P') with (ubd_read Env P).
      destruct (ubd_read Env P e _ _) as [[st2 raw] e1]. repeat split. }
    intros [st2 raw] w4 w4' H4.
    destruct (negb (st2 =? BD_ERROR_OK Env P)); [now split|].
    destruct ((_ =? _) && (_ =? _)); [now split|].
    apply sim_bind; [now apply sim_mirror_loop|].
    intros st3 w5 w5' H5.
    apply sim_bind.
    { same_worlds w5 w5' H5. unfold call_bdSha256_calculate. cbn.
      change (bdSha256_calculate Env P') with (bdSha256_calculate Env P).
      destruct (bdSha256_calculate Env P e _ _ _) as [[sha b1] e1].
      repeat split. }
    intros sha w6 w6' H6. unfold mirror_commit.
    change (sizeof_details Env P') with (sizeof_details Env P).
    change (bytes_of_details Env P') with (bytes_of_details Env P).
    destruct (memcmp _ sha SIZEOF_SHA256 =? 0); [|now split].
    unfold bind.
    destruct (sim_ubd_program SrcDetails
                (bytes_of_details Env P
                   match o with Some d => d | None => uninit end)
                bdOffset (sizeof_details Env P) w6 w6' H6)
      as (s1 & s2 & w7 & w7' & E1 & E2 & H7).
    rewrite E1, E2. now split.
  - destruct (hv && _); now split.
Qed.

End Statuses.

Lemma program_statuses_are_dropped_witness :
  let P := Demo.platform Demo.cfg0 in
  let w := Demo.world Demo.cfg0 Demo.dev0 in
  let r := copyActiveApplicationIntoFlash P 8 (mkDetails 0 0 []) 0 w in
  let r' := copyActiveApplicationIntoFlash
              (with_ubd_program P Demo_failing_status) 8
              (mkDetails 0 0 []) 0 w in
  same_run r r' /\
  value_of r = value_of r' /\
  same_state (world_of r) (world_of r').
Proof.
  exact (program_statuses_are_dropped (Demo.platform Demo.cfg0)
           Demo_failing_status (fun e data a n => eq_refl) 8
           (mkDetails 0 0 []) 0 (Demo.world Demo.cfg0 Demo.dev0)).
Defined.


(** ** Two whole runs on the concrete platform *)

(** Installing the 6-byte image of [Demo.dev0] in place succeeds, by the
    four steps in order. *)
Example demo_replace_in_place :
  let run := copyStoredApplication (Demo.platform Demo.cfg0) 8 0
               (Demo.d_header Demo.dev0) (Demo.world Demo.cfg0 Demo.dev0) in
  value_of run = Some (true, Demo.d_header Demo.dev0) /\
  trace (world_of run) =
    [EvLog "copyStoredApplication"; EvLog "eraseActiveFirmware";
     EvFlashErase 0 4 0; EvFlashErase 4 4 0; EvFlashErase 8 4 0;
     EvLog "writeActiveFirmwareHeader"; EvCreateHeader; EvFlashProgram 0 4 0;
     EvLog "writeActiveFirmware"; EvUcpRead 0 0 4; EvFlashProgram 4 4 0;
     EvUcpRead 0 4 2; EvFlashProgram 8 4 0;
     EvLog "checkActiveApplication"; EvLog "readActiveFirmwareHeader";
     EvGetDetails; EvFlashRead 4 4 0; EvHashUpdate [x01; x02; x03; x04];
     EvFlashRead 8 2 0; EvHashUpdate [x05; x06]].
Proof. vm_compute. split; reflexivity. Qed.

(** With the sector at 4 failing to erase, the sequence stops there. *)
Example demo_replace_erase_failure :
  let run := copyStoredApplication (Demo.platform Demo_cfg_erase_fails) 8 0
               (Demo.d_header Demo.dev0)
               (Demo.world Demo_cfg_erase_fails Demo.dev0) in
  value_of run = Some (false, Demo.d_header Demo.dev0) /\
  trace (world_of run) =
    [EvLog "copyStoredApplication"; EvLog "eraseActiveFirmware";
     EvFlashErase 0 4 0; EvFlashErase 4 4 (-1)].
Proof. vm_compute. split; reflexivity. Qed.

(** ** More on the header read *)

Section HeaderRead.

Context {Env : Type} (P : Platform Env).

Lemma wait_event_signalled (sig : nat -> Z) :
  forall (j n k : nat) (w : World Env),
    (j <= n)%nat ->
    event_callback w = sig k ->
    (forall i, (k <= i < k + j)%nat -> sig i = CLEAR_EVENT Env P) ->
    sig (k + j)%nat <> CLEAR_EVENT Env P ->
    exists w',
      wait_event P n sig k w = Ret tt w' /\
      event_callback w' = sig (k + j)%nat /\
      env w' = env w /\ buffer_array w' = buffer_array w /\
      trace w' = trace w.
Proof.
  induction j as [|j IH]; intros n k w Hn Hev Hclear Hsig.
  - rewrite Nat.add_0_r in Hsig.
    exists w. rewrite Nat.add_0_r.
    assert (E : (event_callback w =? CLEAR_EVENT Env P) = false)
      by (apply Z.eqb_neq; now rewrite Hev).
    destruct n; simpl; rewrite E; repeat split; assumption.
  - destruct n as [|n]; [lia|]. simpl.
    assert (E : (event_callback w =? CLEAR_EVENT Env P) = true).
    { apply Z.eqb_eq. rewrite Hev. apply Hclear. lia. }
    rewrite E. unfold bind, set_event.
    destruct (IH n (S k)
                (mkWorld (env w) (buffer_array w) (sig (S k)) (trace w))
                ltac:(lia) eq_refl) as (w' & Hrun & H1 & H2 & H3 & H4).
    + intros i Hi. apply Hclear. lia.
    + replace (S k + j)%nat with (k + S j)%nat by lia. exact Hsig.
    + exists w'. split; [exact Hrun|].
      replace (k + S j)%nat with (S k + j)%nat by lia.
      repeat split; assumption.
Qed.

Lemma wait_event_silent (sig : nat -> Z) :
  forall (n k : nat) (w : World Env),
    event_callback w = sig k ->
    (forall i, (k <= i <= k + n)%nat -> sig i = CLEAR_EVENT Env P) ->
    exists w',
      wait_event P n sig k w = Hung w' /\
      env w' = env w /\ trace w' = trace w.
Proof.
  induction n as [|n IH]; intros k w Hev Hclear; simpl.
  - assert (E : (event_callback w =? CLEAR_EVENT Env P) = true).
    { apply Z.eqb_eq. rewrite Hev. apply Hclear. lia. }
    rewrite E. exists w. repeat split.
  - assert (E : (event_callback w =? CLEAR_EVENT Env P) = true).
    { apply Z.eqb_eq. rewrite Hev. apply Hclear. lia. }
    rewrite E. unfold bind, set_event.
    destruct (IH (S k)
                (mkWorld (env w) (buffer_array w) (sig (S k)) (trace w))
                eq_refl) as (w' & Hrun & H1 & H2).
    + intros i Hi. apply Hclear. lia.
    + exists w'. repeat split; assumption.
Qed.

Lemma wait_event_frame (sig : nat -> Z) :
  forall (n k : nat) (w : World Env),
    let w' := world_of (wait_event P n sig k w) in
    env w' = env w /\ buffer_array w' = buffer_array w /\
    trace w' = trace w.
Proof.
  induction n as [|n IH]; intros k w; simpl;
    destruct (event_callback w =? CLEAR_EVENT Env P);
    try (repeat split; reflexivity).
  unfold bind, set_event.
  apply (IH (S k) (mkWorld (env w) (buffer_array w) (sig (S k)) (trace w))).
Qed.

End HeaderRead.

(** X1.  The header read, for a non-null record.  A request the update
    client refuses makes it return [false] at once, without waiting.
    An accepted request makes it wait; when the first value of
    [event_callback] other than [CLEAR_EVENT] arrives within the bound
    on the wait, it returns whether that value is the
    details-done event, and the event variable holds that value; when
    none arrives it does not return.  In each case the record is the
    one the update client left, the device is the one it left, and the
    trace gained the entry message and the request. *)
Theorem header_read_outcome {Env} (P : Platform Env) (fuel : nat)
        (d : arm_uc_firmware_details_t) (w : World Env) :
  let reply := ARM_UCP_GetActiveFirmwareDetails Env P (env w) d in
  let run := readActiveFirmwareHeader P fuel (Some d) w in
  let done := ARM_UC_PAAL_EVENT_GET_ACTIVE_FIRMWARE_DETAILS_DONE Env P in
  (ucp_error reply <> ERR_NONE Env P ->
   value_of run = Some (false, Some (ucp_data reply))) /\
  (ucp_error reply = ERR_NONE Env P ->
   forall k : nat,
     (k <= fuel)%nat ->
     (forall i, (i < k)%nat -> ucp_signal reply i = CLEAR_EVENT Env P) ->
     ucp_signal reply k <> CLEAR_EVENT Env P ->
     value_of run = Some (ucp_signal reply k =? done, Some (ucp_data reply)) /\
     event_callback (world_of run) = ucp_signal reply k) /\
  (ucp_error reply = ERR_NONE Env P ->
   (forall i, (i <= fuel)%nat -> ucp_signal reply i = CLEAR_EVENT Env P) ->
   value_of run = None) /\
  env (world_of run) = ucp_env reply /\
  trace (world_of run) =
    trace w ++ [EvLog "readActiveFirmwareHeader"; EvGetDetails].
Proof.
  intros reply run done.
  set (w1 := mkWorld (ucp_env reply) (buffer_array w) (ucp_signal reply 0)
                     ((trace w ++ [EvLog "readActiveFirmwareHeader"])
                      ++ [EvGetDetails])).
  assert (Hrun : run =
    if ucp_error reply =? ERR_NONE Env P then
      bind (wait_event P fuel (ucp_signal reply) 0)
           (fun _ => bind (get_event Env)
              (fun ev => ret (ev =? done, Some (ucp_data reply)))) w1
    else Ret (false, Some (ucp_data reply)) w1).
  { unfold run, readActiveFirmwareHeader.
    unfold bind at 1. unfold emit at 1.
    unfold bind at 1. unfold set_event at 1.
    unfold bind at 1. unfold get_env at 1.
    unfold bind at 1. unfold emit at 1.
    unfold bind at 1. unfold set_env at 1.
    unfold bind at 1. unfold set_event at 1.
    cbn [env buffer_array event_callback trace]. fold reply. fold w1.
    destruct (ucp_error reply =? ERR_NONE Env P); reflexivity. }
  assert (Htr : forall x, [EvLog "readActiveFirmwareHeader"; EvGetDetails]
                          = x -> trace w1 = trace w ++ x).
  { intros x <-. unfold w1. cbn [trace]. now rewrite <- app_assoc. }
  destruct (Z.eqb_spec (ucp_error reply) (ERR_NONE Env P)) as [Herr|Herr].
  - split; [intros H; contradiction|].
    split; [|split].
    + intros _ k Hk Hclear Hsig.
      destruct (wait_event_signalled P (ucp_signal reply) k fuel 0%nat w1
                  Hk eq_refl) as (w' & Hw & Hev & _).
      * intros i Hi. apply Hclear. lia.
      * exact Hsig.
      * rewrite Hrun. unfold bind. rewrite Hw. unfold get_event, ret.
        cbn [value_of world_of]. rewrite Hev. now split.
    + intros _ Hclear.
      destruct (wait_event_silent P (ucp_signal reply) fuel 0%nat w1 eq_refl)
        as (w' & Hw & _).
      * intros i Hi. apply Hclear. lia.
      * rewrite Hrun. unfold bind. rewrite Hw. reflexivity.
    + rewrite Hrun. unfold bind.
      destruct (wait_event_frame P (ucp_signal reply) fuel 0%nat w1)
        as (Henv & _ & Hevs).
      destruct (wait_event P fuel (ucp_signal reply) 0 w1) as [[] w'|w'|w'];
        cbn [world_of get_event ret] in *; rewrite Henv, Hevs;
        (split; [reflexivity | now apply Htr]).
  - split.
    + intros _. rewrite Hrun. reflexivity.
    + split; [intros H; contradiction|]. split; [intros H; contradiction|].
      rewrite Hrun. cbn [world_of]. split; [reflexivity | now apply Htr].
Qed.

(** ** The verification only reads *)

Lemma slice_length_le (b : list byte) (off n : Z) :
  0 <= n -> Z.of_nat (List.length (slice b off n)) <= n.
Proof.
  intros H. unfold slice.
  pose proof (firstn_le_length (Z.to_nat n) (skipn (Z.to_nat off) b)). lia.
Qed.

Lemma ra_check_loop {Env} (P : Platform Env) (n : nat)
      (dsize appStart : Z) :
  0 < BUFFER_SIZE Env P ->
  forall (remaining status : Z) (c : mbedtls_sha256_context Env P)
         (w : World Env),
    run_appends (verify_event (BUFFER_SIZE Env P))
                (check_loop P n dsize appStart remaining status c w) w.
Proof.
  intros HB. induction n as [|n IH]; intros remaining status c w; simpl;
    destruct (remaining >? 0) eqn:Hpos; simpl;
    try apply appends_refl;
    destruct (status =? 0); try apply appends_refl.
  assert (Hrs : 0 < (if remaining >? BUFFER_SIZE Env P
                     then BUFFER_SIZE Env P else remaining)
                <= BUFFER_SIZE Env P)
    by (destruct (remaining >? BUFFER_SIZE Env P) eqn:E; lia).
  apply ra_bind.
  { unfold call_flash_read. destruct (flash_read Env P _ _ _ _) as [[st b] e].
    eapply appends_one; [reflexivity | exact Hrs]. }
  intros st w1 _.
  apply ra_bind; [now apply appends_same_trace|]. intros buf w2 _.
  apply ra_bind.
  { apply ra_emit. simpl.
    assert (Hle := slice_length_le buf 0 _ (Z.lt_le_incl _ _ (proj1 Hrs))).
    lia. }
  intros [] w3 _. apply IH.
Qed.

(** X2.  With a staging buffer of positive size, a verification - of
    any record, null or not, returning or not - issues nothing but its
    entry messages, the header request, flash reads and hash updates:
    no erase, no program call, no access to the block device.  Every
    flash read asks for at least 1 and at most [BUFFER_SIZE] bytes, and
    no hash update is given more than [BUFFER_SIZE] bytes. *)
Theorem verification_only_reads {Env} (P : Platform Env) (fuel : nat)
        (details : option arm_uc_firmware_details_t) (w : World Env) :
  0 < BUFFER_SIZE Env P ->
  run_appends (verify_event (BUFFER_SIZE Env P))
              (checkActiveApplication P fuel details w) w.
Proof.
  intros HB. unfold checkActiveApplication.
  apply ra_bind; [now apply ra_emit|]. intros [] w1 _.
  destruct details as [d0|]; [|apply ra_ret].
  apply ra_bind; [apply ra_read_header; exact I|].
  intros [hv o] w2 _. destruct o as [d|]; [|apply ra_ret].
  destruct (hv && (size d >? 0)).
  - apply ra_bind; [now apply ra_check_loop|].
    intros [c st] w3 _. destruct (memcmp _ _ _ =? 0); apply ra_ret.
  - destruct (hv && (size d =? 0)); apply ra_ret.
Qed.

Lemma verification_only_reads_witness :
  run_appends (verify_event 4)
    (checkActiveApplication (Demo.platform Demo.cfg0) 6
       (Some (mkDetails 0 0 [])) (Demo.world Demo.cfg0 Demo.dev0))
    (Demo.world Demo.cfg0 Demo.dev0).
Proof.
  exact (verification_only_reads (Demo.platform Demo.cfg0) 6
           (Some (mkDetails 0 0 [])) (Demo.world Demo.cfg0 Demo.dev0)
           ltac:(simpl; lia)).
Defined.

(** ** More on the region eraser *)

Section EraserRange.

Context {Env : Type} (P : Platform Env).

Variable sec : Z -> Z.
Variables hdr target s : Z.

Hypothesis target_def :
  target = u32 (FIRMWARE_METADATA_HEADER_ADDRESS Env P + s).
Hypothesis sectors_fit :
  forall a, hdr <= a < target -> 0 < sec a /\ a + sec a < 2 ^ 32.
Hypothesis hdr_pos : 0 <= hdr.

Lemma erase_walk_step (m : nat) (a x : Z) (wl : World Env) :
  (forall y, flash_get_sector_size Env P (env wl) y = sec y) ->
  hdr <= a ->
  value_of (erase_walk P m a s wl) = Some x ->
  (a < target ->
   exists m', m = S m' /\
              value_of (erase_walk P m' (a + sec a) s wl) = Some x) /\
  (target <= a -> x = a).
Proof.
  intros Hsec Ha Hv.
  destruct m as [|m]; simpl in Hv; rewrite <- target_def in Hv;
    destruct (a <? target) eqn:E; simpl in Hv; try discriminate.
  - split; [lia|]. intros _. now inversion Hv.
  - split; [|lia]. intros _. exists m. split; [reflexivity|].
    unfold bind, get_sector_size in Hv. rewrite Hsec in Hv.
    rewrite u32_small in Hv; [exact Hv|].
    destruct (sectors_fit a ltac:(lia)). lia.
  - split; [lia|]. intros _. now inversion Hv.
Qed.

Lemma erase_walk_reaches (m : nat) :
  forall (a x : Z) (wl : World Env),
    (forall y, flash_get_sector_size Env P (env wl) y = sec y) ->
    hdr <= a ->
    value_of (erase_walk P m a s wl) = Some x ->
    a <= x /\ (a < target -> a + sec a <= x).
Proof.
  induction m as [|m IH]; intros a x wl Hsec Ha Hv;
    destruct (erase_walk_step _ a x wl Hsec Ha Hv) as [Hlt Hge];
    destruct (Z.lt_ge_cases a target) as [L|G].
  - destruct (Hlt L) as (m' & E & _). discriminate.
  - rewrite (Hge G). split; lia.
  - destruct (Hlt L) as (m' & E & Hv'). inversion E; subst m'.
    destruct (sectors_fit a ltac:(lia)) as [Hp _].
    destruct (IH (a + sec a) x wl Hsec ltac:(lia) Hv') as [H1 _].
    split; lia.
  - rewrite (Hge G). split; lia.
Qed.

Lemma erase_loop_within (Hstable : sectors_stable P) (x : Z)
      (wl : World Env) :
  (forall y, flash_get_sector_size Env P (env wl) y = sec y) ->
  forall (n m : nat) (a res : Z) (w : World Env) (r : Run Env Z),
    (forall y, flash_get_sector_size Env P (env w) y = sec y) ->
    hdr <= a ->
    value_of (erase_walk P m a s wl) = Some x ->
    erase_loop P n a s res w = r ->
    exists evs,
      trace (world_of r) = trace w ++ evs /\
      Forall (erase_within hdr x) evs /\
      (value_of r = Some 0 -> erase_chain a evs x).
Proof.
  intros Hwl. induction n as [|n IH]; intros m a res w r Hsec Ha Hv Hr;
    simpl in Hr; rewrite <- target_def in Hr;
    destruct (erase_walk_step _ a x wl Hwl Ha Hv) as [Hlt Hge];
    destruct (a <? target) eqn:E.
  - subst r. exists []. rewrite app_nil_r. repeat split; try constructor.
    discriminate.
  - subst r. exists []. rewrite app_nil_r. repeat split; try constructor.
    intros _. simpl. symmetry. apply Hge. lia.
  - destruct (Hlt ltac:(lia)) as (m' & -> & Hv').
    destruct (erase_walk_reaches _ a x wl Hwl Ha Hv) as [_ Hreach].
    destruct (sectors_fit a ltac:(lia)) as [Hp Hw].
    unfold bind at 1 in Hr. unfold get_sector_size at 1 in Hr.
    unfold bind at 1 in Hr. unfold call_flash_erase at 1 in Hr.
    rewrite Hsec in Hr.
    destruct (flash_erase Env P (env w) a (sec a)) as [st e1] eqn:Her.
    destruct (Z.eqb_spec st 0) as [Hst|Hst]; cbn [negb] in Hr.
    + subst st. rewrite u32_small in Hr by lia.
      assert (Hsec1 : forall y, flash_get_sector_size Env P e1 y = sec y)
        by (intros y; rewrite (Hstable _ _ _ _ _ Her); apply Hsec).
      destruct (IH m' (a + sec a) 0
                  (mkWorld e1 (buffer_array w) (event_callback w)
                           (trace w ++ [EvFlashErase a (sec a) 0]))
                  r Hsec1 ltac:(lia) Hv' Hr)
        as (evs & Htr & HF & Hend).
      cbn [trace] in Htr.
      exists (EvFlashErase a (sec a) 0 :: evs).
      split; [rewrite Htr, <- app_assoc; reflexivity|].
      split.
      * constructor; [|exact HF]. simpl. split; [lia | apply Hreach; lia].
      * intros H0. simpl.
        split; [reflexivity|]. split; [exact Hp|]. split; [reflexivity|].
        now apply Hend.
    + subst r. exists [EvFlashErase a (sec a) st].
      cbn [ret world_of trace value_of]. split; [reflexivity|].
      split.
      * constructor; [|constructor]. simpl.
        split; [lia | apply Hreach; lia].
      * intros H0. inversion H0. contradiction.
  - subst r. exists []. rewrite app_nil_r. repeat split; try constructor.
    intros _. simpl. symmetry. apply Hge. lia.
Qed.

End EraserRange.

Lemma erase_walk_ret {Env} (P : Platform Env) (fuel : nat)
      (firmwareSize x : Z) (w : World Env) :
  erase_end P fuel firmwareSize w = Some x ->
  erase_walk P fuel (u32 (FIRMWARE_METADATA_HEADER_ADDRESS Env P))
    (u32 (FIRMWARE_METADATA_HEADER_SIZE Env P + firmwareSize))
    (logged "eraseActiveFirmware" w)
  = Ret x (logged "eraseActiveFirmware" w).
Proof.
  unfold erase_end. intros Hend.
  pose proof (erase_walk_world P fuel
    (u32 (FIRMWARE_METADATA_HEADER_ADDRESS Env P))
    (u32 (FIRMWARE_METADATA_HEADER_SIZE Env P + firmwareSize))
    (logged "eraseActiveFirmware" w)) as Hw.
  destruct (erase_walk _ _ _ _ _) as [y w'|w'|w']; simpl in *;
    try discriminate. inversion Hend. now subst.
Qed.

Lemma erase_after_walk {Env} (P : Platform Env) (fuel : nat)
      (firmwareSize x : Z) (w : World Env) :
  erase_end P fuel firmwareSize w = Some x ->
  eraseActiveFirmware P fuel firmwareSize w =
  if x <? erase_limit P then
    bind (erase_loop P fuel (u32 (FIRMWARE_METADATA_HEADER_ADDRESS Env P))
            (u32 (FIRMWARE_METADATA_HEADER_SIZE Env P + firmwareSize)) (-1))
         (fun result => ret (result =? 0))
         (logged "eraseActiveFirmware" w)
  else Ret false (logged "eraseActiveFirmware" w).
Proof.
  intros Hend. unfold eraseActiveFirmware.
  unfold bind at 1. unfold emit at 1.
  fold (logged "eraseActiveFirmware" w).
  unfold bind at 1. rewrite (erase_walk_ret _ _ _ _ _ Hend).
  fold (erase_limit P). destruct (x <? erase_limit P); reflexivity.
Qed.

(** X3.  Two requests the eraser turns down without erasing anything,
    returning [false] after its entry message.  One whose end address,
    rounded up to the sector boundary, reaches the end of the region:
    the guard is strict, so an image that would fill the region exactly
    is refused.  And one for which nothing lies between the header
    address and the end of the needed span, as when header size plus
    firmware size is a multiple of 2^32: no sector is erased and the
    initial result, a failure, is what is returned. *)
Theorem erase_rejections {Env} (P : Platform Env) (fuel : nat)
        (firmwareSize : Z) (w : World Env) :
  let w1 := logged "eraseActiveFirmware" w in
  let run := eraseActiveFirmware P fuel firmwareSize w in
  let hdr := u32 (FIRMWARE_METADATA_HEADER_ADDRESS Env P) in
  let target :=
    u32 (FIRMWARE_METADATA_HEADER_ADDRESS Env P +
         u32 (FIRMWARE_METADATA_HEADER_SIZE Env P + firmwareSize)) in
  (forall end_addr,
      erase_end P fuel firmwareSize w = Some end_addr ->
      erase_limit P <= end_addr -> run = Ret false w1) /\
  (target <= hdr -> run = Ret false w1).
Proof.
  intros w1 run hdr target. split.
  - intros x Hend Hle. unfold run.
    rewrite (erase_after_walk _ _ _ _ _ Hend).
    replace (x <? erase_limit P) with false
      by (symmetry; apply Z.ltb_ge; exact Hle).
    reflexivity.
  - intros Hle.
    assert (Hend : erase_end P fuel firmwareSize w = Some hdr).
    { unfold erase_end. fold hdr.
      destruct fuel; simpl; fold target;
        (replace (hdr <? target) with false
           by (symmetry; apply Z.ltb_ge; exact Hle)); reflexivity. }
    unfold run. rewrite (erase_after_walk _ _ _ _ _ Hend).
    destruct (hdr <? erase_limit P); [|reflexivity].
    fold hdr. unfold bind.
    destruct fuel; simpl; fold target;
      (replace (hdr <? target) with false
         by (symmetry; apply Z.ltb_ge; exact Hle)); reflexivity.
Qed.

(** X4.  Let header address, header size and firmware size be
    non-negative with a sum below 2^32, let erasing leave the sector
    layout as it is, and let every sector that starts between the header
    address and the end of header plus firmware have a positive size
    and end below 2^32.  When the walk ends at an address below the end
    of the region, every erase call of the run lies between the header
    address and that end address - nothing beyond what the capacity
    check approved is erased - and when the function returns [true] the
    run erased, each with success, the sectors that lie one behind the
    other from the header address to exactly that end address, which is
    at or behind the end of header plus firmware. *)
Theorem erase_stays_in_region {Env} (P : Platform Env) (fuel : nat)
        (firmwareSize : Z) (w : World Env) (end_addr : Z) :
  let base := FIRMWARE_METADATA_HEADER_ADDRESS Env P in
  let need := base + FIRMWARE_METADATA_HEADER_SIZE Env P + firmwareSize in
  0 <= base -> 0 <= FIRMWARE_METADATA_HEADER_SIZE Env P ->
  0 <= firmwareSize -> need < 2 ^ 32 ->
  sectors_stable P ->
  (forall a, base <= a < need ->
             0 < flash_get_sector_size Env P (env w) a /\
             a + flash_get_sector_size Env P (env w) a < 2 ^ 32) ->
  erase_end P fuel firmwareSize w = Some end_addr ->
  end_addr < erase_limit P ->
  let run := eraseActiveFirmware P fuel firmwareSize w in
  exists evs,
    trace (world_of run) = trace (logged "eraseActiveFirmware" w) ++ evs /\
    Forall (erase_within base end_addr) evs /\
    (value_of run = Some true ->
     erase_chain base evs end_addr /\ need <= end_addr).
Proof.
  intros base need Hb Hs Hf Hneed Hstable Hfit Hend Hlt run.
  set (hdr := u32 (FIRMWARE_METADATA_HEADER_ADDRESS Env P)).
  set (target := u32 (FIRMWARE_METADATA_HEADER_ADDRESS Env P +
                      u32 (FIRMWARE_METADATA_HEADER_SIZE Env P + firmwareSize))).
  assert (Eb : hdr = base) by (apply u32_small; fold base; lia).
  assert (En : target = need).
  { unfold target. rewrite (u32_small (_ + firmwareSize)) by lia.
    unfold need, base. rewrite Z.add_assoc. apply u32_small.
    fold base. fold need. unfold need in Hneed. lia. }
  assert (Hfit' : forall a, hdr <= a < target ->
             0 < flash_get_sector_size Env P (env w) a /\
             a + flash_get_sector_size Env P (env w) a < 2 ^ 32)
    by (rewrite Eb, En; exact Hfit).
  unfold run. rewrite (erase_after_walk _ _ _ _ _ Hend).
  replace (end_addr <? erase_limit P) with true
    by (symmetry; apply Z.ltb_lt; exact Hlt).
  pose proof (erase_walk_ret _ _ _ _ _ Hend) as Hwalk.
  destruct (erase_loop_within P (flash_get_sector_size Env P (env w))
              hdr target
              (u32 (FIRMWARE_METADATA_HEADER_SIZE Env P + firmwareSize))
              eq_refl Hfit' (u32_nonneg _) Hstable end_addr
              (logged "eraseActiveFirmware" w) ltac:(reflexivity)
              fuel fuel hdr (-1) (logged "eraseActiveFirmware" w) _
              ltac:(reflexivity) ltac:(lia)
              ltac:(unfold hdr; rewrite Hwalk; reflexivity) eq_refl)
    as (evs & Htr & HF & Hchain).
  exists evs. unfold bind. fold hdr. rewrite <- Eb.
  destruct (erase_loop P fuel hdr _ (-1) (logged "eraseActiveFirmware" w))
    as [v w'|w'|w']; cbn [world_of value_of ret] in *;
    (split; [exact Htr|]); (split; [exact HF|]); try discriminate.
  intros Hv. inversion Hv as [Hv0]. apply Z.eqb_eq in Hv0. subst v.
  split; [now apply Hchain|].
  rewrite <- En.
  apply (erase_walk_covers P fuel hdr _ end_addr
           (logged "eraseActiveFirmware" w)).
  unfold hdr. rewrite Hwalk. reflexivity.
Qed.

Lemma erase_stays_in_region_witness :
  let P := Demo.platform Demo.cfg0 in
  let w := Demo.world Demo.cfg0 Demo.dev0 in
  let run := eraseActiveFirmware P 8 6 w in
  exists evs,
    trace (world_of run) = trace (logged "eraseActiveFirmware" w) ++ evs /\
    Forall (erase_within 0 12) evs /\
    (value_of run = Some true ->
     erase_chain 0 evs 12 /\ 0 + 4 + 6 <= 12).
Proof.
  refine (erase_stays_in_region (Demo.platform Demo.cfg0) 8 6
            (Demo.world Demo.cfg0 Demo.dev0) 12
            ltac:(simpl; lia) ltac:(simpl; lia) ltac:(lia) ltac:(simpl; lia)
            _ _ eq_refl ltac:(vm_compute; reflexivity)).
  - intros e a n st e' H x. reflexivity.
  - intros a [_ Ha]. change (a < 10) in Ha.
    cbn [Demo.platform flash_get_sector_size Demo.cfg0 Demo.c_sector]. lia.
Defined.

(** ** The header write *)

Section HeaderWrite.

Context {Env : Type} (P : Platform Env).

Lemma header_write_unfold (d : arm_uc_firmware_details_t) (w : World Env) :
  let n := header_program_size P (flash_get_page_size Env P (env w)) in
  let w1 := logged "writeActiveFirmwareHeader" w in
  let codec :=
    arm_uc_create_internal_header_v2 Env P d (BUFFER_SIZE Env P)
      (memset (buffer_array w) xff n) in
  let buf' := snd codec in
  let w2 := mkWorld (env w) buf' (event_callback w)
                    ((trace w ++ [EvLog "writeActiveFirmwareHeader"])
                     ++ [EvCreateHeader]) in
  writeActiveFirmwareHeader P (Some d) w =
  if n <=? BUFFER_SIZE Env P then
    if n <=? FIRMWARE_METADATA_HEADER_SIZE Env P then
      if (fst (fst codec) =? ERR_NONE Env P) &&
         (snd (fst codec) =? ARM_UC_INTERNAL_HEADER_SIZE_V2 Env P)
      then
        let prog :=
          flash_program Env P (env w) (slice buf' 0 n)
            (u32 (FIRMWARE_METADATA_HEADER_ADDRESS Env P)) n in
        Ret (fst prog =? 0)
            (mkWorld (snd prog) buf' (event_callback w)
               (trace w2 ++
                [EvFlashProgram
                   (u32 (FIRMWARE_METADATA_HEADER_ADDRESS Env P)) n
                   (fst prog)]))
      else Ret false w2
    else Halted w1
  else Halted w1.
Proof.
  intros n w1 codec buf' w2. unfold writeActiveFirmwareHeader.
  unfold bind at 1. unfold emit at 1.
  unfold bind at 1. unfold get_page_size at 1. cbn [env].
  fold (header_program_size P (flash_get_page_size Env P (env w))). fold n.
  unfold bind at 1. unfold MBED_BOOTLOADER_ASSERT at 1.
  destruct (n <=? BUFFER_SIZE Env P); [|reflexivity]. unfold ret at 1.
  unfold bind at 1. unfold MBED_BOOTLOADER_ASSERT at 1.
  destruct (n <=? FIRMWARE_METADATA_HEADER_SIZE Env P); [|reflexivity].
  unfold ret at 1.
  unfold bind at 1. unfold get_buffer at 1.
  unfold bind at 1. unfold set_buffer at 1.
  unfold bind at 1. unfold get_buffer at 1.
  unfold bind at 1. unfold emit at 1.
  cbn [env buffer_array event_callback trace]. fold codec.
  unfold buf', w2. destruct codec as [[status out_size] b1].
  cbn [fst snd]. unfold bind at 1. unfold set_buffer at 1.
  cbn [env buffer_array event_callback trace].
  destruct ((status =? ERR_NONE Env P) && _); [|reflexivity].
  unfold bind, call_flash_program.
  cbn [env buffer_array event_callback trace].
  destruct (flash_program Env P _ _ _ _) as [st e']. reflexivity.
Qed.

Lemma header_program_size_bounds (p : Z) :
  0 < p ->
  let n := header_program_size P p in
  n mod p = 0 /\
  (0 <= ARM_UC_INTERNAL_HEADER_SIZE_V2 Env P ->
   ARM_UC_INTERNAL_HEADER_SIZE_V2 Env P + p - 1 < 2 ^ 32 ->
   ARM_UC_INTERNAL_HEADER_SIZE_V2 Env P <= n <
   ARM_UC_INTERNAL_HEADER_SIZE_V2 Env P + p).
Proof.
  intros Hp n. unfold n, header_program_size.
  set (x := u32 (ARM_UC_INTERNAL_HEADER_SIZE_V2 Env P + p - 1)).
  assert (Hx : 0 <= x < 2 ^ 32) by (unfold x, u32; apply Z.mod_pos_bound; lia).
  assert (Hq : 0 <= x / p * p <= x).
  { pose proof (Z.mul_div_le x p Hp). pose proof (Z.div_pos x p).
    split; [apply Z.mul_nonneg_nonneg; lia | lia]. }
  rewrite (u32_small (x / p * p)) by lia.
  split; [apply Z.mod_mul; lia|].
  intros H0 H1. unfold x. rewrite u32_small by lia.
  pose proof (Z.mul_div_le (ARM_UC_INTERNAL_HEADER_SIZE_V2 Env P + p - 1) p Hp).
  pose proof (Z.mul_succ_div_gt
                (ARM_UC_INTERNAL_HEADER_SIZE_V2 Env P + p - 1) p Hp).
  lia.
Qed.

End HeaderWrite.

(** X5.  Writing the header of a non-null record, with a positive page
    size.  The run is one of three: it stops in an assertion - the
    rounded size exceeds the staging buffer or the reserved header
    space - before any call; or the codec fails and [false] is
    returned without a program call; or exactly one program call is
    issued, at the header address, and the result is whether that call
    returned 0.  The size of that call is a whole number of pages and
    exceeds neither [BUFFER_SIZE] nor the reserved header size; when
    the rounding does not overflow 32 bits it is the header size
    rounded up to the next page boundary. *)
Theorem header_write_single_call {Env} (P : Platform Env)
        (d : arm_uc_firmware_details_t) (w : World Env) :
  let p := flash_get_page_size Env P (env w) in
  let run := writeActiveFirmwareHeader P (Some d) w in
  0 < p ->
  exists evs,
    trace (world_of run) =
    trace w ++ EvLog "writeActiveFirmwareHeader" :: evs /\
    ((evs = [] /\ run = Halted (logged "writeActiveFirmwareHeader" w)) \/
     (evs = [EvCreateHeader] /\ value_of run = Some false) \/
     (exists n st,
         evs = [EvCreateHeader;
                EvFlashProgram (u32 (FIRMWARE_METADATA_HEADER_ADDRESS Env P))
                               n st] /\
         value_of run = Some (st =? 0) /\
         n mod p = 0 /\
         n <= BUFFER_SIZE Env P /\
         n <= FIRMWARE_METADATA_HEADER_SIZE Env P /\
         (0 <= ARM_UC_INTERNAL_HEADER_SIZE_V2 Env P ->
          ARM_UC_INTERNAL_HEADER_SIZE_V2 Env P + p - 1 < 2 ^ 32 ->
          ARM_UC_INTERNAL_HEADER_SIZE_V2 Env P <= n <
          ARM_UC_INTERNAL_HEADER_SIZE_V2 Env P + p))).
Proof.
  intros p run Hp. unfold run. rewrite header_write_unfold. fold p.
  destruct (header_program_size_bounds P p Hp) as [Hmod Hround].
  destruct (Z.leb_spec (header_program_size P p) (BUFFER_SIZE Env P))
    as [HB|HB].
  2:{ exists []. split; [reflexivity|]. left. now split. }
  destruct (Z.leb_spec (header_program_size P p)
                       (FIRMWARE_METADATA_HEADER_SIZE Env P)) as [HH|HH].
  2:{ exists []. split; [reflexivity|]. left. now split. }
  destruct (_ && _).
  - eexists [EvCreateHeader; EvFlashProgram _ _ _].
    cbn [world_of trace]. split; [now rewrite <- !app_assoc|].
    right. right. eexists _, _. split; [reflexivity|].
    split; [reflexivity|].
    split; [exact Hmod|]. split; [exact HB|]. split; [exact HH|].
    exact Hround.
  - exists [EvCreateHeader]. cbn [world_of trace].
    split; [now rewrite <- !app_assoc|]. right. left. now split.
Qed.

Lemma header_write_single_call_witness :
  let P := Demo.platform Demo.cfg0 in
  let w := Demo.world Demo.cfg0 Demo.dev0 in
  let run := writeActiveFirmwareHeader P (Some (Demo.d_header Demo.dev0)) w in
  exists evs,
    trace (world_of run) =
    trace w ++ EvLog "writeActiveFirmwareHeader" :: evs /\
    ((evs = [] /\ run = Halted (logged "writeActiveFirmwareHeader" w)) \/
     (evs = [EvCreateHeader] /\ value_of run = Some false) \/
     (exists n st,
         evs = [EvCreateHeader; EvFlashProgram (u32 0) n st] /\
         value_of run = Some (st =? 0) /\
         n mod 4 = 0 /\ n <= 4 /\ n <= 4 /\
         (0 <= 4 -> 4 + 4 - 1 < 2 ^ 32 -> 4 <= n < 4 + 4))).
Proof.
  exact (header_write_single_call (Demo.platform Demo.cfg0)
           (Demo.d_header Demo.dev0) (Demo.world Demo.cfg0 Demo.dev0)
           ltac:(simpl; lia)).
Defined.

Lemma firstn_split_at {A} (h n : nat) (l : list A) :
  (h <= n)%nat ->
  firstn n l = firstn h l ++ firstn (n - h) (skipn h l).
Proof.
  revert n l. induction h as [|h IH]; intros n l Hle.
  - simpl. now rewrite Nat.sub_0_r.
  - destruct n as [|n]; [lia|]. destruct l as [|x l]; simpl.
    + now rewrite firstn_nil.
    + f_equal. apply IH. lia.
Qed.

Lemma skipn_repeat_app {A} (x : A) (h n : nat) (l : list A) :
  (h <= n)%nat -> skipn h (repeat x n ++ l) = repeat x (n - h) ++ l.
Proof.
  revert n. induction h as [|h IH]; intros n Hle.
  - simpl. now rewrite Nat.sub_0_r.
  - destruct n as [|n]; [lia|]. simpl. apply IH. lia.
Qed.

(** X6.  Let the assertions on the rounded header size pass, and let
    the codec succeed, report the header size and leave the staging
    buffer from the header size on as it found it.  Then the bytes
    handed to the one program call are the encoded header followed by
    0xFF up to the page boundary: the padding of the header page is
    the erased value, whatever the buffer held before. *)
Theorem header_page_padding {Env} (P : Platform Env)
        (d : arm_uc_firmware_details_t) (w : World Env) :
  let n := header_program_size P (flash_get_page_size Env P (env w)) in
  let H := ARM_UC_INTERNAL_HEADER_SIZE_V2 Env P in
  let filled := memset (buffer_array w) xff n in
  let codec :=
    arm_uc_create_internal_header_v2 Env P d (BUFFER_SIZE Env P) filled in
  n <= BUFFER_SIZE Env P ->
  n <= FIRMWARE_METADATA_HEADER_SIZE Env P ->
  fst (fst codec) = ERR_NONE Env P ->
  snd (fst codec) = H ->
  0 <= H <= n ->
  skipn (Z.to_nat H) (snd codec) = skipn (Z.to_nat H) filled ->
  let data :=
    firstn (Z.to_nat H) (snd codec) ++ repeat xff (Z.to_nat (n - H)) in
  let prog :=
    flash_program Env P (env w) data
                  (u32 (FIRMWARE_METADATA_HEADER_ADDRESS Env P)) n in
  let run := writeActiveFirmwareHeader P (Some d) w in
  value_of run = Some (fst prog =? 0) /\
  env (world_of run) = snd prog.
Proof.
  intros n H filled codec HB HH Hst Hsz HHn Hframe data prog run.
  assert (Hdata : slice (snd codec) 0 n = data).
  { unfold slice, data. simpl skipn.
    rewrite (firstn_split_at (Z.to_nat H) (Z.to_nat n)) by lia.
    f_equal. rewrite Hframe. unfold filled, memset.
    rewrite skipn_repeat_app by lia.
    replace (Z.to_nat n - Z.to_nat H)%nat with (Z.to_nat (n - H)) by lia.
    rewrite firstn_app, repeat_length, Nat.sub_diag, firstn_O, app_nil_r.
    apply firstn_all2. rewrite repeat_length. lia. }
  split;
    unfold run; rewrite header_write_unfold;
    fold n; fold filled; fold codec;
    (replace (n <=? BUFFER_SIZE Env P) with true
       by (symmetry; now apply Z.leb_le));
    (replace (n <=? FIRMWARE_METADATA_HEADER_SIZE Env P) with true
       by (symmetry; now apply Z.leb_le));
    rewrite Hst, Hsz; fold H; rewrite !Z.eqb_refl; cbn [andb];
    rewrite Hdata; reflexivity.
Qed.

Lemma header_page_padding_witness :
  let P := Demo.platform Demo_cfg_page8 in
  let w := Demo.world Demo_cfg_page8 Demo.dev0 in
  let d := Demo.d_header Demo.dev0 in
  let n := header_program_size P (flash_get_page_size Demo.Dev P (env w)) in
  let H := ARM_UC_INTERNAL_HEADER_SIZE_V2 Demo.Dev P in
  let codec :=
    arm_uc_create_internal_header_v2 Demo.Dev P d (BUFFER_SIZE Demo.Dev P)
      (memset (buffer_array w) xff n) in
  let data :=
    firstn (Z.to_nat H) (snd codec) ++ repeat xff (Z.to_nat (n - H)) in
  let prog :=
    flash_program Demo.Dev P (env w) data
                  (u32 (FIRMWARE_METADATA_HEADER_ADDRESS Demo.Dev P)) n in
  let run := writeActiveFirmwareHeader P (Some d) w in
  data = repeat xff 8 /\
  value_of run = Some (fst prog =? 0) /\
  env (world_of run) = snd prog.
Proof.
  intros P w d n H codec data prog run.
  split; [vm_compute; reflexivity|].
  apply (header_page_padding P d w).
  - vm_compute. discriminate.
  - vm_compute. discriminate.
  - reflexivity.
  - reflexivity.
  - split; vm_compute; discriminate.
  - reflexivity.
Defined.

(** ** More on the region writer *)

Lemma u32_add_r (a b : Z) : u32 (a + u32 b) = u32 (a + b).
Proof. unfold u32. apply Zplus_mod_idemp_r. Qed.

Lemma u32_le (z : Z) : 0 <= z -> u32 z <= z.
Proof. intros H. unfold u32. apply Z.mod_le; lia. Qed.

Lemma round_pages (p z : Z) :
  0 < p ->
  let n := u32 (u32 z / p * p) in
  0 <= n < 2 ^ 32 /\ (p | n).
Proof.
  intros Hp n. unfold n.
  assert (Hx : 0 <= u32 z < 2 ^ 32) by (unfold u32; apply Z.mod_pos_bound; lia).
  pose proof (Z.mul_div_le (u32 z) p Hp) as Hle.
  assert (H0 : 0 <= u32 z / p) by (apply Z.div_pos; lia).
  rewrite (u32_small (u32 z / p * p)) by nia.
  split; [nia|]. apply Z.divide_factor_r.
Qed.

Lemma pages_from_skip (p a : Z) (ev : Event) (evs : list Event) :
  (forall x n st, ev <> EvFlashProgram x n st) ->
  pages_from p a (ev :: evs) = pages_from p a evs.
Proof. intros H. destruct ev; try reflexivity. now elim (H addr len status). Qed.

Lemma pages_from_app (p : Z) (e1 e2 : list Event) :
  forall a,
    pages_from p (u32 a) e1 ->
    pages_from p (u32 (a + program_count e1 * p)) e2 ->
    pages_from p (u32 a) (e1 ++ e2).
Proof.
  induction e1 as [|ev e1 IH]; intros a H1 H2.
  - simpl in *. now rewrite Z.add_0_r in H2.
  - destruct ev; simpl in *; try (now apply IH).
    destruct H1 as (Hx & Hn & Hrest). repeat split; try assumption.
    rewrite u32_add_l in *. apply IH; [exact Hrest|].
    replace (a + p + program_count e1 * p)
      with (a + (1 + program_count e1) * p) by ring.
    exact H2.
Qed.

Lemma program_count_app (e1 e2 : list Event) :
  program_count (e1 ++ e2) = program_count e1 + program_count e2.
Proof.
  induction e1 as [|ev e1 IH]; [reflexivity|].
  destruct ev; cbn [program_count app]; rewrite ?IH; lia.
Qed.

Section WriterLoops.

Context {Env : Type} (P : Platform Env) (fuel : nat).
Variable p : Z.
Hypothesis p_pos : 0 < p.

Lemma program_pages_spec (programSize : Z) :
  programSize < 2 ^ 32 -> (p | programSize) ->
  forall (n : nat) (app off po retval : Z) (w : World Env) (r : Run Env Z),
    program_pages P n app off p programSize po retval w = r ->
    0 <= po <= programSize -> (p | po) ->
    exists evs,
      trace (world_of r) = trace w ++ evs /\
      pages_from p (u32 (app + off + po)) evs /\
      stops_at_failure evs (value_of r) /\
      (retval <> 0 -> evs = [] /\ r = Ret retval w) /\
      (retval = 0 -> value_of r = Some 0 ->
       program_count evs * p = programSize - po).
Proof.
  intros Hlt Hdiv.
  assert (Hnil : forall (po retval : Z) (w : World Env) (r : Run Env Z),
    (r = Hung w /\ retval = 0 \/ r = Ret retval w /\
     (retval = 0 -> programSize <= po)) ->
    0 <= po <= programSize ->
    forall app off,
    exists evs,
      trace (world_of r) = trace w ++ evs /\
      pages_from p (u32 (app + off + po)) evs /\
      stops_at_failure evs (value_of r) /\
      (retval <> 0 -> evs = [] /\ r = Ret retval w) /\
      (retval = 0 -> value_of r = Some 0 ->
       program_count evs * p = programSize - po)).
  { intros po retval w r Hr Hpo app off. exists [].
    split; [destruct Hr as [[-> _]|[-> _]]; simpl; now rewrite app_nil_r|].
    split; [exact I|]. split; [left; constructor|]. split.
    - intros Hne. split; [reflexivity|].
      destruct Hr as [[_ E]|[E _]]; [contradiction | exact E].
    - intros E Hv. simpl.
      destruct Hr as [[-> _]|[_ Hge]]; [discriminate|].
      specialize (Hge E). lia. }
  induction n as [|n IH]; intros app off po retval w r Hr Hpo Hdpo;
    simpl in Hr.
  - apply Hnil; [|exact Hpo].
    destruct (Z.ltb_spec po programSize), (Z.eqb_spec retval 0);
      simpl in Hr; subst r;
      first [ left; split; [reflexivity | assumption]
            | right; split;
              [reflexivity | intros; first [contradiction | lia]] ].
  - destruct (Z.ltb_spec po programSize) as [Hlt'|Hge];
      destruct (Z.eqb_spec retval 0) as [E0|Ene]; simpl in Hr.
    2:{ apply Hnil; [|exact Hpo]. right. subst r.
        split; [reflexivity | contradiction]. }
    2:{ apply Hnil; [|exact Hpo]. right. subst r.
        split; [reflexivity | intros; lia]. }
    2:{ apply Hnil; [|exact Hpo]. right. subst r.
        split; [reflexivity | contradiction]. }
    assert (Hstep : po + p <= programSize).
    { destruct Hdiv as [k1 Hk1], Hdpo as [k2 Hk2].
      assert (k2 < k1)
        by (apply (Z.mul_lt_mono_pos_r p); [exact p_pos | lia]).
      assert ((k2 + 1) * p <= k1 * p)
        by (apply Z.mul_le_mono_nonneg_r; lia).
      lia. }
    unfold bind at 1 in Hr. unfold call_flash_program at 1 in Hr.
    destruct (flash_program Env P (env w) _ _ _) as [st e1].
    rewrite (u32_small (po + p)) in Hr by lia.
    destruct (IH app off (po + p) st _ r Hr ltac:(lia)
                ltac:(apply Z.divide_add_r; [exact Hdpo | apply Z.divide_refl]))
      as (evs & Htr & Hpages & Hstop & Hne & Hok).
    cbn [trace] in Htr.
    exists (EvFlashProgram (u32 (app + off + po)) p st :: evs).
    split; [rewrite Htr, <- app_assoc; reflexivity|].
    split.
    { simpl. repeat split. rewrite u32_add_l.
      replace (app + off + po + p) with (app + off + (po + p)) by ring.
      exact Hpages. }
    destruct (Z.eq_dec st 0) as [Hst|Hst].
    + subst st. split.
      * destruct Hstop as [HF|(pre & x & k & st & -> & HF & Hs & Hv)].
        -- left. constructor; [reflexivity | exact HF].
        -- right. exists (EvFlashProgram (u32 (app + off + po)) p 0 :: pre),
             x, k, st.
           repeat split; try assumption. constructor; [reflexivity | exact HF].
      * split; [intros; contradiction|].
        intros _ Hv. cbn [program_count].
        specialize (Hok eq_refl Hv). lia.
    + destruct (Hne Hst) as [-> ->]. cbn [value_of]. split.
      * right. exists [], (u32 (app + off + po)), p, st.
        repeat split; [constructor | exact Hst].
      * split; [intros; contradiction|].
        intros _ Hv. inversion Hv. contradiction.
Qed.

End WriterLoops.

Section WriterOuter.

Context {Env : Type} (P : Platform Env) (fuel : nat).
Variable p : Z.
Hypothesis p_pos : 0 < p.

Lemma write_loop_spec (index dsize app size_max : Z) :
  forall (n : nat) (offset retval : Z) (w : World Env) (r : Run Env Z),
    write_loop P fuel n index dsize app p size_max offset retval w = r ->
    0 <= offset ->
    exists evs,
      trace (world_of r) = trace w ++ evs /\
      pages_from p (u32 (app + offset)) evs /\
      stops_at_failure evs (value_of r) /\
      (retval <> 0 -> evs = [] /\ r = Ret retval w) /\
      (retval = 0 -> value_of r = Some 0 ->
       dsize <= offset + program_count evs * p).
Proof.
  assert (Hnil : forall (offset retval : Z) (w : World Env) (r : Run Env Z),
    (r = Hung w /\ retval = 0 \/
     r = Ret retval w /\ (retval = 0 -> dsize <= offset) \/
     r = Ret (-1) w /\ retval = 0) ->
    exists evs,
      trace (world_of r) = trace w ++ evs /\
      pages_from p (u32 (app + offset)) evs /\
      stops_at_failure evs (value_of r) /\
      (retval <> 0 -> evs = [] /\ r = Ret retval w) /\
      (retval = 0 -> value_of r = Some 0 ->
       dsize <= offset + program_count evs * p)).
  { intros offset retval w r Hr. exists [].
    split; [destruct Hr as [[-> _]|[[-> _]|[-> _]]]; simpl;
            now rewrite app_nil_r|].
    split; [exact I|]. split; [left; constructor|]. split.
    - intros Hne. split; [reflexivity|].
      destruct Hr as [[_ E]|[[E _]|[_ E]]]; try contradiction. exact E.
    - intros E Hv. simpl.
      destruct Hr as [[-> _]|[[_ Hge]|[-> _]]]; try discriminate.
      specialize (Hge E). lia. }
  induction n as [|n IH]; intros offset retval w r Hr Hoff; simpl in Hr.
  - apply Hnil.
    destruct (Z.ltb_spec offset dsize), (Z.eqb_spec retval 0);
      simpl in Hr; subst r;
      first [ left; split; [reflexivity | assumption]
            | right; left; split;
              [reflexivity | intros; first [contradiction | lia]] ].
  - destruct (Z.ltb_spec offset dsize) as [Hlt|Hge];
      destruct (Z.eqb_spec retval 0) as [E0|Ene]; simpl in Hr.
    2:{ apply Hnil. right. left. subst r.
        split; [reflexivity | contradiction]. }
    2:{ apply Hnil. right. left. subst r.
        split; [reflexivity | intros; lia]. }
    2:{ apply Hnil. right. left. subst r.
        split; [reflexivity | contradiction]. }
    unfold bind at 1 in Hr. unfold set_event at 1 in Hr.
    unfold bind at 1 in Hr. unfold get_env at 1 in Hr.
    unfold bind at 1 in Hr. unfold get_buffer at 1 in Hr.
    unfold bind at 1 in Hr. unfold emit at 1 in Hr.
    unfold bind at 1 in Hr. unfold set_env at 1 in Hr.
    unfold bind at 1 in Hr. unfold set_buffer at 1 in Hr.
    unfold bind at 1 in Hr. unfold set_event at 1 in Hr.
    cbn [env buffer_array event_callback trace] in Hr.
    set (bsize := u32 (if dsize - offset >? size_max then size_max
                       else dsize - offset)) in *.
    set (reply := ARM_UCP_Read Env P (env w) index offset size_max bsize
                               (buffer_array w)) in *.
    set (w1 := mkWorld (ucp_env reply) (snd (ucp_data reply))
                       (ucp_signal reply 0)
                       (trace w ++ [EvUcpRead index offset bsize])) in *.
    unfold bind at 1 in Hr.
    assert (Hwait : exists r0 : Run Env unit,
      (if ucp_error reply =? ERR_NONE Env P
       then wait_event P fuel (ucp_signal reply) 0
       else ret tt) w1 = r0 /\ trace (world_of r0) = trace w1).
    { eexists. split; [reflexivity|].
      destruct (ucp_error reply =? ERR_NONE Env P); [|reflexivity].
      apply (wait_event_frame P (ucp_signal reply) fuel 0%nat w1). }
    destruct Hwait as (r0 & Hr0 & Htr0). rewrite Hr0 in Hr.
    assert (Hone : forall w' (r' : Run Env Z),
      trace w' = trace w1 ->
      (r' = Hung w' \/ r' = Ret (-1) w') -> r = r' ->
      exists evs,
        trace (world_of r) = trace w ++ evs /\
        pages_from p (u32 (app + offset)) evs /\
        stops_at_failure evs (value_of r) /\
        (retval <> 0 -> evs = [] /\ r = Ret retval w) /\
        (retval = 0 -> value_of r = Some 0 ->
         dsize <= offset + program_count evs * p)).
    { intros w' r' Htr' Hr' ->. exists [EvUcpRead index offset bsize].
      split; [destruct Hr' as [->| ->]; simpl; rewrite Htr'; reflexivity|].
      split; [exact I|]. split; [left; repeat constructor|].
      split; [intros; contradiction|].
      intros _ Hv. destruct Hr' as [->| ->]; discriminate. }
    destruct r0 as [[] w2|w2|w2]; cbn [world_of] in Htr0.
    2:{ (* an assertion cannot stop the wait *)
        exfalso. destruct (ucp_error reply =? ERR_NONE Env P);
          [|discriminate].
        clear - Hr0. revert Hr0. generalize w1. generalize 0%nat.
        induction fuel as [|k IHk]; intros j w0; simpl;
          destruct (event_callback w0 =? CLEAR_EVENT Env P);
          try discriminate.
        unfold bind, set_event. apply IHk. }
    2:{ apply (Hone w2 (Hung w2) Htr0); [now left | now subst r]. }
    unfold get_event at 1 in Hr. unfold bind at 1 in Hr.
    destruct ((event_callback w2 =? ARM_UC_PAAL_EVENT_READ_DONE Env P) &&
              (fst (ucp_data reply) >? 0)).
    2:{ apply (Hone w2 (Ret (-1) w2) Htr0); [now right | now subst r]. }
    set (programSize := u32 (u32 (fst (ucp_data reply) + p - 1) / p * p)) in *.
    destruct (round_pages p (fst (ucp_data reply) + p - 1) p_pos)
      as [Hps Hpd]. fold programSize in Hps, Hpd.
    unfold bind at 1 in Hr.
    destruct (program_pages_spec P p p_pos programSize (proj2 Hps) Hpd
                fuel app offset 0 retval w2 _ eq_refl ltac:(lia)
                (Z.divide_0_r p))
      as (evs1 & Htr1 & Hpg1 & Hstop1 & _ & Hok1).
    rewrite Z.add_0_r in Hpg1.
    destruct (program_pages P fuel app offset p programSize 0 retval w2)
      as [retval' w3|w3|w3] eqn:Hinner; cbn [world_of value_of] in *.
    + (* the chunk was programmed, or a program call failed *)
      destruct (IH _ _ _ _ Hr (u32_nonneg _))
        as (evs2 & Htr2 & Hpg2 & Hstop2 & Hne2 & Hok2).
      exists (EvUcpRead index offset bsize :: evs1 ++ evs2).
      split.
      { rewrite Htr2, Htr1, Htr0. unfold w1. cbn [trace].
        now rewrite <- !app_assoc. }
      destruct (Z.eq_dec retval' 0) as [Hz|Hnz].
      * subst retval'.
        assert (Hc1 : program_count evs1 * p = programSize)
          by (rewrite (Hok1 E0 eq_refl); lia).
        assert (HF1 : Forall program_ok evs1).
        { destruct Hstop1 as [HF|(pre & x & k & st & _ & _ & Hs & Hv)];
            [exact HF|]. inversion Hv. congruence. }
        split.
        { simpl. apply pages_from_app; [exact Hpg1|].
          rewrite Hc1. rewrite <- Z.add_assoc. rewrite <- u32_add_r.
          exact Hpg2. }
        split.
        { destruct Hstop2 as [HF|(pre & x & k & st & -> & HF & Hs & Hv)].
          - left. constructor; [exact I|]. apply Forall_app. now split.
          - right. exists (EvUcpRead index offset bsize :: evs1 ++ pre),
              x, k, st.
            split; [simpl; now rewrite <- app_assoc|].
            split; [constructor; [exact I|]; apply Forall_app; now split|].
            now split. }
        split; [intros; contradiction|].
        intros _ Hv. specialize (Hok2 eq_refl Hv). simpl.
        rewrite program_count_app.
        pose proof (u32_le (offset + programSize) ltac:(lia)). nia.
      * destruct (Hne2 Hnz) as [-> ->]. rewrite app_nil_r.
        cbn [value_of]. split; [exact Hpg1|].
        split.
        { destruct Hstop1 as [HF|(pre & x & k & st & -> & HF & Hs & Hv)].
          - left. constructor; [exact I | exact HF].
          - right. exists (EvUcpRead index offset bsize :: pre), x, k, st.
            repeat split; try assumption. constructor; [exact I | exact HF]. }
        split; [intros; contradiction|].
        intros _ Hv. inversion Hv. contradiction.
    + (* program_pages has no assertion *)
      exfalso. clear - Hinner. revert Hinner.
      generalize 0 at 1. generalize retval. generalize w2.
      induction fuel as [|k IHk]; intros w0 rv po; simpl;
        destruct ((po <? programSize) && (rv =? 0)); try discriminate.
      unfold bind, call_flash_program.
      destruct (flash_program Env P _ _ _ _) as [st e]. apply IHk.
    + subst r. exists (EvUcpRead index offset bsize :: evs1).
      cbn [world_of value_of].
      split; [rewrite Htr1, Htr0; unfold w1; cbn [trace];
              now rewrite <- app_assoc|].
      split; [exact Hpg1|].
      split.
      { destruct Hstop1 as [HF|(pre & x & k & st & _ & _ & _ & Hv)];
          [|discriminate].
        left. constructor; [exact I | exact HF]. }
      split; [intros; contradiction|]. intros _ Hv. discriminate.
Qed.

End WriterOuter.

Lemma u32_idem (z : Z) : u32 (u32 z) = u32 z.
Proof. unfold u32. apply Z.mod_mod. lia. Qed.

(** X7.  Writing the payload of a non-null record, with a positive page
    size.  In every run the program calls are for consecutive pages of
    one page size each, the first at the application start.  A program
    call that fails is the last event of the run and makes the function
    return [false]; no further page is programmed and no further chunk
    requested.  And when the function returns [true], every program
    call succeeded and the pages programmed cover the declared size. *)
Theorem write_programs_consecutive_pages {Env} (P : Platform Env)
        (fuel : nat) (index : Z) (d : arm_uc_firmware_details_t)
        (w : World Env) :
  let p := flash_get_page_size Env P (env w) in
  let app := u32 (MBED_CONF_APP_APPLICATION_START_ADDRESS Env P) in
  let run := writeActiveFirmware P fuel index (Some d) w in
  0 < p ->
  exists evs,
    trace (world_of run) = trace w ++ EvLog "writeActiveFirmware" :: evs /\
    pages_from p app evs /\
    (Forall program_ok evs \/
     exists pre x n st,
       evs = pre ++ [EvFlashProgram x n st] /\ Forall program_ok pre /\
       st <> 0 /\ value_of run = Some false) /\
    (value_of run = Some true ->
     Forall program_ok evs /\ size d <= program_count evs * p).
Proof.
  intros p app run Hp.
  assert (Hrun : run =
    if app mod p =? 0 then
      bind (write_loop P fuel fuel index (size d) app p
                       (u32 (BUFFER_SIZE Env P / p * p)) 0 0)
           (fun retval => ret (retval =? 0))
           (logged "writeActiveFirmware" w)
    else Halted (logged "writeActiveFirmware" w)).
  { unfold run, writeActiveFirmware. unfold bind at 1. unfold emit at 1.
    fold (logged "writeActiveFirmware" w).
    unfold bind at 1. unfold get_page_size at 1.
    cbn [logged env]. fold p. fold app.
    destruct (app mod p =? 0); reflexivity. }
  rewrite Hrun. destruct (app mod p =? 0).
  2:{ exists []. split; [reflexivity|]. split; [exact I|].
      split; [left; constructor | discriminate]. }
  destruct (write_loop_spec P fuel p Hp index (size d) app
              (u32 (BUFFER_SIZE Env P / p * p)) fuel 0 0
              (logged "writeActiveFirmware" w) _ eq_refl ltac:(lia))
    as (evs & Htr & Hpg & Hstop & _ & Hok).
  rewrite Z.add_0_r in Hpg. unfold app in Hpg at 1. rewrite u32_idem in Hpg.
  fold app in Hpg.
  exists evs. unfold bind.
  destruct (write_loop P fuel fuel index (size d) app p _ 0 0
                       (logged "writeActiveFirmware" w))
    as [v w'|w'|w']; cbn [world_of value_of ret] in *.
  - split; [rewrite Htr; unfold logged; cbn [trace];
            now rewrite <- app_assoc|].
    split; [exact Hpg|]. split.
    + destruct Hstop as [HF|(pre & x & k & st & -> & HF & Hs & Hv)];
        [now left|].
      right. exists pre, x, k, st. repeat split; try assumption.
      inversion Hv; subst. f_equal. now apply Z.eqb_neq.
    + intros Hv. inversion Hv as [Hv0]. apply Z.eqb_eq in Hv0. subst v.
      split.
      * destruct Hstop as [HF|(pre & x & k & st & _ & _ & Hs & Hv')];
          [exact HF|]. inversion Hv'. congruence.
      * specialize (Hok eq_refl eq_refl). lia.
  - split; [rewrite Htr; unfold logged; cbn [trace];
            now rewrite <- app_assoc|].
    split; [exact Hpg|]. split; [|discriminate].
    destruct Hstop as [HF|(pre & x & k & st & _ & _ & _ & Hv)];
      [now left | discriminate].
  - split; [rewrite Htr; unfold logged; cbn [trace];
            now rewrite <- app_assoc|].
    split; [exact Hpg|]. split; [|discriminate].
    destruct Hstop as [HF|(pre & x & k & st & _ & _ & _ & Hv)];
      [now left | discriminate].
Qed.

Lemma write_programs_consecutive_pages_witness :
  let P := Demo.platform Demo.cfg0 in
  let w := Demo.world Demo.cfg0 Demo.dev0 in
  let run := writeActiveFirmware P 8 0 (Some (Demo.d_header Demo.dev0)) w in
  exists evs,
    trace (world_of run) = trace w ++ EvLog "writeActiveFirmware" :: evs /\
    pages_from 4 (u32 4) evs /\
    (Forall program_ok evs \/
     exists pre x n st,
       evs = pre ++ [EvFlashProgram x n st] /\ Forall program_ok pre /\
       st <> 0 /\ value_of run = Some false) /\
    (value_of run = Some true ->
     Forall program_ok evs /\ 6 <= program_count evs * 4).
Proof.
  exact (write_programs_consecutive_pages (Demo.platform Demo.cfg0) 8 0
           (Demo.d_header Demo.dev0) (Demo.world Demo.cfg0 Demo.dev0)
           ltac:(simpl; lia)).
Defined.

Section WriterEvents.

Context {Env : Type} (P : Platform Env) (fuel : nat).
Variables p B : Z.

Lemma ra_program_pages_class (n : nat) (app off programSize : Z) :
  forall (po retval : Z) (w : World Env),
    run_appends (write_event p B)
                (program_pages P n app off p programSize po retval w) w.
Proof.
  induction n as [|n IH]; intros po retval w; simpl;
    destruct ((po <? programSize) && (retval =? 0)); try apply appends_refl.
  apply ra_bind.
  - unfold call_flash_program. destruct (flash_program Env P _ _ _ _) as [st e].
    eapply appends_one; [reflexivity | reflexivity].
  - intros st w1 _. apply IH.
Qed.

Lemma ra_write_loop_class (index dsize app size_max : Z) :
  0 <= size_max <= B -> B < 2 ^ 32 ->
  forall (n : nat) (offset retval : Z) (w : World Env),
    run_appends (write_event p B)
                (write_loop P fuel n index dsize app p size_max offset retval w)
                w.
Proof.
  intros Hmax HB. induction n as [|n IH]; intros offset retval w; simpl;
    destruct (Z.ltb_spec offset dsize) as [Hlt|Hge]; simpl;
    try apply appends_refl;
    destruct (retval =? 0); try apply appends_refl.
  apply ra_bind; [now apply appends_same_trace|]. intros [] w1 _.
  apply ra_bind; [now apply appends_same_trace|]. intros e w2 _.
  apply ra_bind; [now apply appends_same_trace|]. intros buf w3 _.
  apply ra_bind.
  { apply ra_emit. simpl.
    destruct (dsize - offset >? size_max) eqn:E;
      rewrite u32_small by lia; lia. }
  intros [] w4 _.
  apply ra_bind; [now apply appends_same_trace|]. intros [] w5 _.
  apply ra_bind; [now apply appends_same_trace|]. intros [] w6 _.
  apply ra_bind; [now apply appends_same_trace|]. intros [] w7 _.
  apply ra_bind.
  { destruct (ucp_error _ =? ERR_NONE Env P);
      [apply ra_wait_event | apply ra_ret]. }
  intros [] w8 _.
  apply ra_bind; [now apply appends_same_trace|]. intros ev w9 _.
  destruct ((ev =? ARM_UC_PAAL_EVENT_READ_DONE Env P) && _); [|apply ra_ret].
  apply ra_bind; [apply ra_program_pages_class|].
  intros st w10 _. apply IH.
Qed.

End WriterEvents.

(** X8.  With a positive page size and a staging buffer size that fits
    32 bits, the region writer - for any record, null or not, returning
    or not - issues nothing but its entry message, requests to the
    update source and program calls: it never erases, never reads the
    flash and never touches the block device.  Every request asks the
    update source for at most [BUFFER_SIZE] bytes, and every program
    call writes exactly one page. *)
Theorem write_requests_fit_buffer {Env} (P : Platform Env) (fuel : nat)
        (index : Z) (details : option arm_uc_firmware_details_t)
        (w : World Env) :
  let p := flash_get_page_size Env P (env w) in
  0 < p -> 0 <= BUFFER_SIZE Env P < 2 ^ 32 ->
  run_appends (write_event p (BUFFER_SIZE Env P))
              (writeActiveFirmware P fuel index details w) w.
Proof.
  intros p Hp HB. unfold writeActiveFirmware.
  apply ra_bind; [now apply ra_emit|]. intros [] w1 Hw1.
  destruct details as [d|]; [|apply ra_ret].
  assert (Henv : env w1 = env w) by (inversion Hw1; reflexivity).
  apply ra_bind; [now apply appends_same_trace|]. intros p' w2 Hw2.
  assert (Hp' : p' = p /\ w2 = w1).
  { unfold get_page_size in Hw2. inversion Hw2; subst. now rewrite Henv. }
  destruct Hp' as [-> ->].
  apply ra_bind.
  { unfold MBED_BOOTLOADER_ASSERT. destruct (_ =? 0); apply appends_refl. }
  intros [] w3 _.
  apply ra_bind; [|intros v w4 _; apply ra_ret].
  apply ra_write_loop_class; [|lia].
  pose proof (Z.mul_div_le (BUFFER_SIZE Env P) p Hp).
  assert (0 <= BUFFER_SIZE Env P / p) by (apply Z.div_pos; lia).
  rewrite u32_small by nia. nia.
Qed.

Lemma write_requests_fit_buffer_witness :
  run_appends (write_event 4 4)
    (writeActiveFirmware (Demo.platform Demo.cfg0) 8 0
       (Some (Demo.d_header Demo.dev0)) (Demo.world Demo.cfg0 Demo.dev0))
    (Demo.world Demo.cfg0 Demo.dev0).
Proof.
  exact (write_requests_fit_buffer (Demo.platform Demo.cfg0) 8 0
           (Some (Demo.d_header Demo.dev0)) (Demo.world Demo.cfg0 Demo.dev0)
           ltac:(simpl; lia) ltac:(simpl; lia)).
Defined.

(** ** More on the mirror *)

Lemma bind_of_ret {Env A B} (m : M Env A) (f : A -> M Env B)
      (w w' : World Env) (a : A) :
  m w = Ret a w' -> bind m f w = f a w'.
Proof. intros H. unfold bind. now rewrite H. Qed.

Lemma ra_mirror_loop_class {Env} (P : Platform Env) (n : nat)
      (dsize appStart : Z) :
  0 < BUFFER_SIZE Env P ->
  forall (remaining status offset : Z) (w : World Env),
    run_appends (mirror_event (BUFFER_SIZE Env P))
                (mirror_loop P n dsize appStart remaining status offset w) w.
Proof.
  intros HB. induction n as [|n IH]; intros remaining status offset w; simpl;
    destruct (remaining >? 0) eqn:Hpos; simpl;
    try apply appends_refl;
    destruct (status =? 0); try apply appends_refl.
  assert (Hrs : 0 < (if remaining >? BUFFER_SIZE Env P
                     then BUFFER_SIZE Env P else remaining)
                <= BUFFER_SIZE Env P)
    by (destruct (remaining >? BUFFER_SIZE Env P) eqn:E; lia).
  apply ra_bind.
  { unfold call_flash_read. destruct (flash_read Env P _ _ _ _) as [[st b] e].
    eapply appends_one; [reflexivity | exact Hrs]. }
  intros st w1 _.
  apply ra_bind; [now apply appends_same_trace|]. intros buf w2 _.
  apply ra_bind.
  { unfold call_ubd_program. destruct (ubd_program Env P _ _ _ _) as [st' e].
    eapply appends_one; [reflexivity | exact Hrs]. }
  intros st' w3 _. apply IH.
Qed.

(** X9.  With a staging buffer of positive size, a run of the mirror -
    returning or not - never erases or programs the internal flash,
    never asks the update source and never feeds the hash of the
    verification: the internal flash is only read.  Every flash read
    and every program call of the copy moves at least 1 and at most
    [BUFFER_SIZE] bytes. *)
Theorem mirror_only_reads_internal_flash {Env} (P : Platform Env)
        (fuel : nat) (uninit : arm_uc_firmware_details_t) (bdOffset : Z)
        (w : World Env) :
  0 < BUFFER_SIZE Env P ->
  run_appends (mirror_event (BUFFER_SIZE Env P))
              (copyActiveApplicationIntoFlash P fuel uninit bdOffset w) w.
Proof.
  intros HB. unfold copyActiveApplicationIntoFlash.
  apply ra_bind; [now apply ra_emit|]. intros [] w1 _.
  apply ra_bind.
  { unfold call_ubd_init. destruct (ubd_init Env P _) as [st e].
    eapply appends_one; [reflexivity | exact I]. }
  intros st w2 _.
  destruct (negb (st =? BD_ERROR_OK Env P)); [apply ra_ret|].
  apply ra_bind; [apply ra_read_header; exact I|].
  intros [hv o] w3 _.
  destruct (hv && _).
  - apply ra_bind.
    { unfold call_ubd_read. destruct (ubd_read Env P _ _ _) as [[st2 raw] e].
      eapply appends_one; [reflexivity | exact I]. }
    intros [st2 raw] w4 _.
    destruct (negb (st2 =? BD_ERROR_OK Env P)); [apply ra_ret|].
    destruct ((_ =? _) && (_ =? _)); [apply ra_ret|].
    apply ra_bind; [now apply ra_mirror_loop_class|].
    intros st3 w5 _.
    apply ra_bind.
    { unfold call_bdSha256_calculate.
      destruct (bdSha256_calculate Env P _ _ _ _) as [[sha b] e].
      eapply appends_one; [reflexivity | exact I]. }
    intros sha w6 _. unfold mirror_commit.
    destruct (memcmp _ _ _ =? 0); [|apply ra_ret].
    apply ra_bind; [|intros; apply ra_ret].
    unfold call_ubd_program. destruct (ubd_program Env P _ _ _ _) as [st' e].
    eapply appends_one; [reflexivity | exact I].
  - destruct (hv && _); apply ra_ret.
Qed.

Lemma mirror_only_reads_internal_flash_witness :
  run_appends (mirror_event 4)
    (copyActiveApplicationIntoFlash (Demo.platform Demo.cfg0) 8
       (mkDetails 0 0 []) 0 (Demo.world Demo.cfg0 Demo.dev0))
    (Demo.world Demo.cfg0 Demo.dev0).
Proof.
  exact (mirror_only_reads_internal_flash (Demo.platform Demo.cfg0) 8
           (mkDetails 0 0 []) 0 (Demo.world Demo.cfg0 Demo.dev0)
           ltac:(simpl; lia)).
Defined.

(** X10.  The ways the mirror ends before it copies.  A block device
    that fails to initialise makes it return [RESULT_ERROR] with no
    header read.  After a successful initialisation, a failed header
    read makes it return [RESULT_ERROR] and a valid header of size 0
    [RESULT_EMPTY], in both cases in the world the header read left:
    the block device is not read.  And with a valid header of positive
    size, a failed read of the stored details record makes it return
    [RESULT_ERROR] right after that read. *)
Theorem mirror_early_exits {Env} (P : Platform Env) (fuel : nat)
        (uninit : arm_uc_firmware_details_t) (bdOffset : Z) (w : World Env) :
  let run := copyActiveApplicationIntoFlash P fuel uninit bdOffset w in
  let init := ubd_init Env P (env w) in
  let w1 := mkWorld (snd init) (buffer_array w) (event_callback w)
                    ((trace w ++ [EvLog "copyActiveApplicationIntoFlash"])
                     ++ [EvBdInit (fst init)]) in
  (fst init <> BD_ERROR_OK Env P -> run = Ret RESULT_ERROR w1) /\
  (fst init = BD_ERROR_OK Env P ->
   forall valid d w2,
     readActiveFirmwareHeader P fuel (Some uninit) w1
     = Ret (valid, Some d) w2 ->
     (valid = false -> run = Ret RESULT_ERROR w2) /\
     (valid = true -> size d = 0 -> run = Ret RESULT_EMPTY w2) /\
     (valid = true -> 0 < size d ->
      let rd := ubd_read Env P (env w2) bdOffset (sizeof_details Env P) in
      fst (fst rd) <> BD_ERROR_OK Env P ->
      run = Ret RESULT_ERROR
              (mkWorld (snd rd) (buffer_array w2) (event_callback w2)
                       (trace w2 ++
                        [EvBdRead bdOffset (sizeof_details Env P)
                                  (fst (fst rd))])))).
Proof.
  intros run init w1.
  assert (Hrun : run =
    if negb (fst init =? BD_ERROR_OK Env P) then Ret RESULT_ERROR w1
    else
      bind (readActiveFirmwareHeader P fuel (Some uninit))
        (fun x => let '(headerValid, details') := x in
           let details := match details' with Some d => d | None => uninit end in
           if headerValid && (size details >? 0) then
             bind (call_ubd_read Env P bdOffset (sizeof_details Env P))
               (fun y => let '(bd_status, raw) := y in
                  if negb (bd_status =? BD_ERROR_OK Env P)
                  then ret RESULT_ERROR
                  else
                    let curr_details := details_of_bytes Env P raw in
                    if (version curr_details =? version details) &&
                       (size curr_details =? size details)
                    then ret RESULT_SUCCESS
                    else
                      bind (mirror_loop P fuel (size details)
                              (u32 (MBED_CONF_APP_APPLICATION_START_ADDRESS Env P))
                              (u32 (size details)) 0
                              (u32 (bdOffset + sizeof_details Env P)))
                        (fun _ =>
                           bind (call_bdSha256_calculate Env P
                                   (u32 (bdOffset + sizeof_details Env P))
                                   (size details))
                             (fun shaInBd =>
                                mirror_commit P details bdOffset shaInBd)))
           else if headerValid && (size details =? 0) then ret RESULT_EMPTY
           else ret RESULT_ERROR) w1).
  { unfold run, copyActiveApplicationIntoFlash.
    unfold bind at 1. unfold emit at 1.
    unfold bind at 1. unfold call_ubd_init at 1. cbn [env].
    fold init. unfold w1. destruct init as [st e1].
    cbn [fst snd buffer_array event_callback trace].
    destruct (negb (st =? BD_ERROR_OK Env P)); reflexivity. }
  split.
  - intros Hne. rewrite Hrun.
    replace (fst init =? BD_ERROR_OK Env P) with false
      by (symmetry; now apply Z.eqb_neq).
    reflexivity.
  - intros Hok valid d w2 Hhdr. rewrite Hrun, Hok, Z.eqb_refl. cbn [negb].
    rewrite (bind_of_ret _ _ _ _ _ Hhdr). cbv beta iota zeta.
    split; [|split].
    + intros ->. reflexivity.
    + intros -> Hz. rewrite Hz. reflexivity.
    + intros -> Hsz Hrd.
      replace (size d >? 0) with true by (symmetry; apply Z.gtb_lt; lia).
      cbn [andb]. unfold bind, call_ubd_read.
      destruct (ubd_read Env P (env w2) bdOffset (sizeof_details Env P))
        as [[st2 raw] e3]. cbn [fst snd] in *.
      replace (st2 =? BD_ERROR_OK Env P) with false
        by (symmetry; now apply Z.eqb_neq).
      reflexivity.
Qed.

(** ** The copy of the mirror *)

Lemma u32_bounds (z : Z) : 0 <= u32 z < 2 ^ 32.
Proof. unfold u32. apply Z.mod_pos_bound. lia. Qed.

Lemma u32_add_cancel (a j k : Z) :
  0 <= j < 2 ^ 32 -> 0 <= k < 2 ^ 32 ->
  u32 (a + j) = u32 (a + k) -> j = k.
Proof.
  intros Hj Hk H. unfold u32 in H.
  assert (E : (j - k) mod 2 ^ 32 = 0).
  { replace (j - k) with ((a + j) - (a + k)) by ring.
    rewrite Zminus_mod, H, Z.sub_diag. reflexivity. }
  apply Z.mod_divide in E; [|lia]. destruct E as [q Hq].
  assert (q = 0) by nia. subst q. lia.
Qed.

Lemma region_bytes_ext_in (m m' : Z -> byte) (a : Z) (n : nat) :
  (forall i, 0 <= i < Z.of_nat n -> m' (u32 (a + i)) = m (u32 (a + i))) ->
  region_bytes m' a n = region_bytes m a n.
Proof.
  intros H. unfold region_bytes. apply map_ext_in. intros i Hi.
  apply in_seq in Hi. apply H. lia.
Qed.

Section MirrorCopy.

Context {Env : Type} (P : Platform Env) (mem bdv : Env -> Z -> byte).

Hypothesis read_ok : flash_read_ok P mem.
Hypothesis read_keeps : flash_read_keeps P bdv.
Hypothesis program_ok' : ubd_program_ok P mem bdv.
Hypothesis buffer_pos : 0 < BUFFER_SIZE Env P.

Lemma mirror_loop_stops (n : nat) (dsize appStart remaining status offset : Z)
      (w : World Env) :
  status <> 0 ->
  mirror_loop P n dsize appStart remaining status offset w = Ret status w.
Proof.
  intros Hst. destruct n; simpl;
    (replace (status =? 0) with false by (symmetry; now apply Z.eqb_neq));
    now rewrite andb_false_r.
Qed.

Lemma mirror_loop_copies (dsize appStart : Z) :
  forall (n : nat) (remaining offset : Z) (w : World Env),
    0 <= remaining < 2 ^ 32 ->
    (Z.to_nat remaining <= n)%nat ->
    exists st w' evs,
      mirror_loop P n dsize appStart remaining 0 offset w = Ret st w' /\
      trace w' = trace w ++ evs /\
      (Forall copy_succeeded evs ->
       st = 0 /\
       region_bytes (bdv (env w')) offset (Z.to_nat remaining) =
       region_bytes (mem (env w)) (appStart + (dsize - remaining))
                    (Z.to_nat remaining) /\
       (forall x, 0 <= x < 2 ^ 32 ->
                  (forall i, 0 <= i < remaining -> x <> u32 (offset + i)) ->
                  bdv (env w') x = bdv (env w) x) /\
       (forall x, mem (env w') x = mem (env w) x)).
Proof.
  induction n as [|n IH]; intros remaining offset w Hrem Hn.
  - assert (remaining = 0) by lia. subst. simpl.
    exists 0, w, []. rewrite app_nil_r. repeat split; reflexivity.
  - simpl. destruct (remaining >? 0) eqn:Hpos; simpl.
    2:{ assert (remaining = 0) by lia. subst.
        exists 0, w, []. rewrite app_nil_r. repeat split; reflexivity. }
    set (readSize := if remaining >? BUFFER_SIZE Env P
                     then BUFFER_SIZE Env P else remaining).
    assert (Hrs : 0 < readSize <= remaining)
      by (unfold readSize; destruct (remaining >? BUFFER_SIZE Env P) eqn:E; lia).
    unfold bind at 1. unfold call_flash_read.
    destruct (flash_read Env P (env w) (buffer_array w)
                (u32 (appStart + (dsize - remaining))) readSize)
      as [[st1 buf'] e1] eqn:Hread.
    unfold bind at 1. unfold get_buffer at 1. cbn [buffer_array].
    unfold bind at 1. unfold call_ubd_program at 1.
    cbn [env buffer_array event_callback trace].
    destruct (ubd_program Env P e1 (slice buf' 0 readSize) offset readSize)
      as [st2 e2] eqn:Hprog.
    rewrite (u32_small (remaining - readSize)) by lia.
    destruct (Z.eq_dec st1 0) as [Hst1|Hst1].
    + subst st1.
      destruct (read_ok _ _ _ _ _ _ _ Hread eq_refl ltac:(lia))
        as [Hdata Hmem1].
      pose proof (read_keeps _ _ _ _ _ _ _ Hread eq_refl) as Hbd1.
      match goal with
      | |- context [mirror_loop P n dsize appStart ?r 0 ?o ?w1] =>
        destruct (IH r o w1 ltac:(lia) ltac:(lia))
          as (st & w' & evs & Hrun & Htr & Hall)
      end.
      cbn [trace env] in Htr, Hall.
      exists st, w', (EvFlashRead (u32 (appStart + (dsize - remaining)))
                                  readSize 0
                      :: EvBdProgram SrcBuffer offset readSize st2 :: evs).
      split; [exact Hrun|].
      split; [rewrite Htr, <- !app_assoc; reflexivity|].
      intros HF. inversion HF as [|? ? _ HF1]; subst.
      inversion HF1 as [|? ? Hst2 HF2]; subst. simpl in Hst2. subst st2.
      destruct (Hall HF2) as (Hst & Hcopy & Hframe & Hmem').
      assert (Hlen : List.length (slice buf' 0 readSize) = Z.to_nat readSize)
        by (rewrite Hdata; apply region_bytes_length).
      destruct (program_ok' _ _ _ _ _ _ Hprog eq_refl Hlen ltac:(lia))
        as (Hwritten & Hframe2 & Hmem2).
      assert (Hmem : forall x, mem (env w') x = mem (env w) x)
        by (intros x; rewrite Hmem', Hmem2; apply Hmem1).
      split; [exact Hst|]. split; [|split; [|exact Hmem]].
      * replace (Z.to_nat remaining)
          with (Z.to_nat readSize + Z.to_nat (remaining - readSize))%nat
          by lia.
        rewrite !region_bytes_app, !Z2Nat.id by lia. f_equal.
        -- rewrite <- (region_bytes_u32 (mem (env w))), <- Hdata, <- Hwritten.
           apply region_bytes_ext_in. intros i Hi.
           apply Hframe; [apply u32_bounds|].
           intros k Hk Heq. rewrite u32_add_l in Heq.
           replace (offset + readSize + k) with (offset + (readSize + k))
             in Heq by ring.
           apply u32_add_cancel in Heq; lia.
        -- rewrite <- (region_bytes_u32 _ (offset + readSize)), Hcopy.
           replace (appStart + (dsize - (remaining - readSize)))
             with (appStart + (dsize - remaining) + readSize) by ring.
           apply region_bytes_ext. intros x. now rewrite Hmem2.
      * intros x Hx Hout.
        rewrite Hframe; [|exact Hx|].
        -- rewrite Hframe2; [apply Hbd1 | exact Hx |].
           intros i Hi. apply Hout. lia.
        -- intros i Hi. rewrite u32_add_l.
           replace (offset + readSize + i) with (offset + (readSize + i))
             by ring.
           apply Hout. lia.
    + rewrite mirror_loop_stops by exact Hst1.
      eexists st1, _, [_; _]. split; [reflexivity|]. cbn [trace].
      split; [rewrite <- app_assoc; reflexivity|].
      intros HF. inversion HF as [|? ? H1 _]; subst. contradiction.
Qed.

End MirrorCopy.

(** X11.  The copy loop of the mirror, over devices that behave: a
    flash whose successful reads return its bytes, and a block device
    whose successful program calls write theirs and nothing else.  With
    a staging buffer of positive size and a size below 2^32 the loop
    returns, and when no read and no program call of the run failed,
    the block device holds, from the offset behind the details record
    on, the bytes of the application in their order; the rest of the
    block device and the flash are as they were. *)
Theorem mirror_copy_is_faithful {Env} (P : Platform Env)
        (mem bdv : Env -> Z -> byte) (fuel : nat) (dsize bdOffset : Z)
        (w : World Env) :
  flash_read_ok P mem -> flash_read_keeps P bdv -> ubd_program_ok P mem bdv ->
  0 < BUFFER_SIZE Env P -> 0 <= dsize < 2 ^ 32 ->
  (Z.to_nat dsize <= fuel)%nat ->
  let app := MBED_CONF_APP_APPLICATION_START_ADDRESS Env P in
  let off := bdOffset + sizeof_details Env P in
  exists st w',
    mirror_loop P fuel dsize (u32 app) (u32 dsize) 0 (u32 off) w
    = Ret st w' /\
    (Forall copy_succeeded (new_events w w') ->
     region_bytes (bdv (env w')) off (Z.to_nat dsize) =
     region_bytes (mem (env w)) app (Z.to_nat dsize) /\
     (forall x, 0 <= x < 2 ^ 32 ->
                (forall i, 0 <= i < dsize -> x <> u32 (off + i)) ->
                bdv (env w') x = bdv (env w) x) /\
     (forall x, mem (env w') x = mem (env w) x)).
Proof.
  intros Hread Hkeeps Hprog HB Hd Hf app off.
  rewrite (u32_small dsize) by exact Hd.
  destruct (mirror_loop_copies P mem bdv Hread Hkeeps Hprog HB dsize (u32 app)
              fuel dsize (u32 off) w Hd Hf)
    as (st & w' & evs & Hrun & Htr & Hall).
  exists st, w'. split; [exact Hrun|].
  intros HF. rewrite (new_events_app _ _ _ Htr) in HF.
  destruct (Hall HF) as (_ & Hcopy & Hframe & Hmem).
  split; [|split; [|exact Hmem]].
  - rewrite <- (region_bytes_u32 _ off), Hcopy.
    replace (u32 app + (dsize - dsize)) with (u32 app) by lia.
    apply region_bytes_u32.
  - intros x Hx Hout. apply Hframe; [exact Hx|].
    intros i Hi. rewrite u32_add_l. now apply Hout.
Qed.

Lemma fun_read_ok (b a : Z) : flash_read_ok (Fun.platform b a) Fun.flash.
Proof.
  intros e buf x n st buf' e' H Hst Hn. simpl in H.
  inversion H; subst. split; [|reflexivity].
  apply slice_app_exact. apply region_bytes_length.
Qed.

Lemma fun_read_keeps (b a : Z) : flash_read_keeps (Fun.platform b a) Fun.bd.
Proof.
  intros e buf x n st buf' e' H Hst y. simpl in H. now inversion H.
Qed.

Lemma map_nth_seq {A} (l : list A) (d : A) :
  map (fun i => nth i l d) (seq 0 (List.length l)) = l.
Proof.
  induction l as [|x l IH]; [reflexivity|].
  simpl. f_equal. rewrite <- seq_shift, map_map. exact IH.
Qed.

Lemma fun_program_ok (b a : Z) :
  ubd_program_ok (Fun.platform b a) Fun.flash Fun.bd.
Proof.
  intros e data x n st e' H Hst Hlen Hn. simpl in H.
  inversion H; subst e'. clear H. unfold Fun.program. cbn [Fun.bd Fun.flash].
  split; [|split; [|reflexivity]].
  - transitivity (map (fun i => nth i data x00) (seq 0 (List.length data)));
      [|apply map_nth_seq].
    rewrite Hlen. unfold region_bytes. apply map_ext_in. intros i Hi. apply in_seq in Hi.
    assert (E : u32 (u32 (x + Z.of_nat i) - x) = Z.of_nat i).
    { unfold u32. rewrite Zminus_mod_idemp_l.
      replace (x + Z.of_nat i - x) with (Z.of_nat i) by ring.
      apply Z.mod_small. lia. }
    rewrite E.
    replace (Z.of_nat i <? n) with true by (symmetry; apply Z.ltb_lt; lia).
    now rewrite Nat2Z.id.
  - intros y Hy Hout.
    destruct (Z.ltb_spec (u32 (y - x)) n) as [Hin|Hge]; [|reflexivity].
    exfalso. apply (Hout (u32 (y - x))).
    + pose proof (u32_bounds (y - x)). lia.
    + rewrite u32_add_r. replace (x + (y - x)) with y by ring.
      symmetry. now apply u32_small.
Qed.

Lemma mirror_copy_is_faithful_witness :
  let P := Fun.platform 4 16 in
  let w := mkWorld (Fun.mkDev (fun x => Demo.byte_of_Z x) (fun _ => xff))
                   (repeat x00 4) (-1) [] in
  exists st w',
    mirror_loop P 10 10 (u32 16) (u32 10) 0 (u32 (7 + 0)) w = Ret st w' /\
    (Forall copy_succeeded (new_events w w') ->
     region_bytes (Fun.bd (env w')) (7 + 0) (Z.to_nat 10) =
     region_bytes (Fun.flash (env w)) 16 (Z.to_nat 10) /\
     (forall x, 0 <= x < 2 ^ 32 ->
                (forall i, 0 <= i < 10 -> x <> u32 (7 + 0 + i)) ->
                Fun.bd (env w') x = Fun.bd (env w) x) /\
     (forall x, Fun.flash (env w') x = Fun.flash (env w) x)).
Proof.
  exact (mirror_copy_is_faithful (Fun.platform 4 16) Fun.flash Fun.bd 10 10 7
           (mkWorld (Fun.mkDev (fun x => Demo.byte_of_Z x) (fun _ => xff))
                    (repeat x00 4) (-1) [])
           (fun_read_ok 4 16) (fun_read_keeps 4 16) (fun_program_ok 4 16)
           ltac:(simpl; lia) ltac:(lia) ltac:(simpl; lia)).
Defined.

(** ** A second call of the mirror *)

Lemma read_header_env {Env} (P : Platform Env) (fuel : nat)
      (d0 : arm_uc_firmware_details_t) (w w' : World Env) (b : bool)
      (o : option arm_uc_firmware_details_t) :
  readActiveFirmwareHeader P fuel (Some d0) w = Ret (b, o) w' ->
  env w' = ucp_env (ARM_UCP_GetActiveFirmwareDetails Env P (env w) d0).
Proof.
  unfold readActiveFirmwareHeader.
  unfold bind at 1. unfold emit at 1.
  unfold bind at 1. unfold set_event at 1.
  unfold bind at 1. unfold get_env at 1.
  unfold bind at 1. unfold emit at 1.
  unfold bind at 1. unfold set_env at 1.
  unfold bind at 1. unfold set_event at 1.
  cbn [env buffer_array event_callback trace].
  destruct (ucp_error _ =? ERR_NONE Env P).
  - unfold bind at 1.
    match goal with |- context [wait_event P fuel ?sg 0 ?w0] =>
      pose proof (wait_event_frame P sg fuel 0%nat w0) as Hf;
      destruct (wait_event P fuel sg 0 w0) as [[] w3|w3|w3];
      try discriminate end.
    cbn [world_of env] in Hf. destruct Hf as [He _].
    unfold bind, get_event, ret. intros H. inversion H; subst. exact He.
  - unfold ret. intros H. inversion H; subst. reflexivity.
Qed.

(** C8, as amended.  One call: let the block device initialise, the
    header read return a valid header of positive size, and the read of
    the details record stored at the offset succeed and give the
    version and size of that header; then the mirror returns
    [RESULT_SUCCESS], and its run has no read of the internal flash and
    no program call to the block device.  Two calls, on a block device
    that keeps its contents over an initialisation and a header
    request, whose successful reads return its contents and whose
    successful program calls store their bytes: a first call that copies,
    finds the digests equal and whose write of the details record
    reports success returns [RESULT_SUCCESS] and leaves a current
    record at the offset; and a call on a device with a current record
    at the offset, with the header unchanged, returns [RESULT_SUCCESS]
    and copies nothing. *)
Theorem mirror_skips_current_target {Env} (P : Platform Env)
        (bdv : Env -> Z -> byte) (fuel : nat)
        (uninit d : arm_uc_firmware_details_t) (bdOffset : Z) :
  let len := sizeof_details Env P in
  let ok := BD_ERROR_OK Env P in
  let mirror := copyActiveApplicationIntoFlash P fuel uninit bdOffset in
  (forall (w w2 : World Env) (e1 e3 : Env) (raw : list byte),
      ubd_init Env P (env w) = (ok, e1) ->
      readActiveFirmwareHeader P fuel (Some uninit) (mirror_started w ok e1)
      = Ret (true, Some d) w2 ->
      0 < size d ->
      ubd_read Env P (env w2) bdOffset len = (ok, raw, e3) ->
      version (details_of_bytes Env P raw) = version d ->
      size (details_of_bytes Env P raw) = size d ->
      value_of (mirror w) = Some RESULT_SUCCESS /\
      Forall no_copy (new_events w (world_of (mirror w)))) /\
  (bd_kept_between_calls P bdv -> ubd_read_ok P bdv ->
   ubd_program_stores P bdv -> record_round_trip P d ->
   (forall (w w2 w5 : World Env) (e1 e3 : Env) (raw : list byte) (st3 : Z),
       let off := u32 (bdOffset + len) in
       ubd_init Env P (env w) = (ok, e1) ->
       readActiveFirmwareHeader P fuel (Some uninit) (mirror_started w ok e1)
       = Ret (true, Some d) w2 ->
       0 < size d ->
       ubd_read Env P (env w2) bdOffset len = (ok, raw, e3) ->
       (version (details_of_bytes Env P raw) <> version d \/
        size (details_of_bytes Env P raw) <> size d) ->
       mirror_loop P fuel (size d)
                   (u32 (MBED_CONF_APP_APPLICATION_START_ADDRESS Env P))
                   (u32 (size d)) 0 off (after_bd_read w2 bdOffset len ok e3)
       = Ret st3 w5 ->
       let calc :=
         bdSha256_calculate Env P (env w5) (buffer_array w5) off (size d) in
       let prog :=
         ubd_program Env P (snd calc) (bytes_of_details Env P d) bdOffset
                     len in
       firstn 32 (hash d) = firstn 32 (fst (fst calc)) ->
       fst prog = 0 ->
       exists w1,
         mirror w = Ret RESULT_SUCCESS w1 /\ env w1 = snd prog /\
         record_current P bdv (env w1) bdOffset d) /\
   (forall (w1 w2 : World Env) (e1 : Env),
       record_current P bdv (env w1) bdOffset d ->
       ubd_init Env P (env w1) = (ok, e1) ->
       readActiveFirmwareHeader P fuel (Some uninit) (mirror_started w1 ok e1)
       = Ret (true, Some d) w2 ->
       0 < size d ->
       fst (fst (ubd_read Env P (env w2) bdOffset len)) = ok ->
       value_of (mirror w1) = Some RESULT_SUCCESS /\
       Forall no_copy (new_events w1 (world_of (mirror w1))))).
Proof.
  intros len ok mirror. split.
  - intros w w2 e1 e3 raw Hinit Hhdr Hsz Hread Hv Hs.
    destruct (mirror_skip_run P fuel uninit d bdOffset w w2 e1 e3 raw
                Hinit Hhdr Hsz Hread Hv Hs) as [Hrun HF].
    split; [|exact HF]. unfold mirror. now rewrite Hrun.
  - intros [Kinit Khdr] Kread Kprog (Hlen0 & Hlen & Rv & Rs). split.
    + intros w w2 w5 e1 e3 raw st3 off Hinit Hhdr Hsz Hread Hdiff Hloop
             calc prog Heq Hst.
      destruct (mirror_reaches_comparison P fuel (fun _ => True) uninit d
                  bdOffset w w2 w5 e1 e3 raw st3
                  ltac:(intros; exact I) I ltac:(intros; exact I)
                  ltac:(intros; exact I) ltac:(intros; exact I)
                  ltac:(intros; exact I) Hinit Hhdr Hsz Hread Hdiff Hloop)
        as [Hrun _].
      fold len off mirror in Hrun.
      unfold bind, call_bdSha256_calculate in Hrun. fold calc in Hrun.
      destruct calc as [[sha b] e] eqn:Hcalc. cbn [fst snd] in *.
      unfold mirror_commit in Hrun.
      apply (memcmp_zero_iff _ _ SIZEOF_SHA256) in Heq. rewrite Heq in Hrun.
      cbn [Z.eqb] in Hrun. unfold bind, call_ubd_program in Hrun.
      cbn [env] in Hrun. fold len in Hrun. fold prog in Hrun.
      destruct prog as [st e'] eqn:Hprog. cbn [fst snd] in *.
      eexists. split; [exact Hrun|]. cbn [env]. split; [reflexivity|].
      pose proof (Kprog e (bytes_of_details Env P d) bdOffset len st e' Hprog
                    Hst Hlen Hlen0) as Hbytes.
      unfold record_current, stored_record. fold len.
      rewrite Hbytes. now split.
    + intros w1 w2 e1 Hcur Hinit Hhdr Hsz Hst.
      destruct (ubd_read Env P (env w2) bdOffset len) as [[st2 raw] e3]
        eqn:Hread.
      cbn [fst] in Hst. subst st2.
      assert (Hraw : raw = region_bytes (bdv (env w1)) bdOffset (Z.to_nat len)).
      { rewrite (Kread _ _ _ _ _ _ Hread eq_refl).
        apply region_bytes_ext. intros x.
        rewrite (read_header_env P fuel uninit _ _ _ _ Hhdr).
        unfold mirror_started. cbn [env]. rewrite Khdr.
        apply (Kinit _ _ _ Hinit). }
      destruct Hcur as [Hv Hs]. unfold stored_record in Hv, Hs.
      fold len in Hv, Hs. rewrite <- Hraw in Hv, Hs.
      destruct (mirror_skip_run P fuel uninit d bdOffset w1 w2 e1 e3 raw
                  Hinit Hhdr Hsz Hread Hv Hs) as [Hrun HF].
      split; [|exact HF]. unfold mirror. now rewrite Hrun.
Qed.

Lemma demo_checked_kept : bd_kept_between_calls Demo_checked Demo_bdv.
Proof.
  split.
  - intros e st e' H x. simpl in H. now inversion H.
  - intros e d x. reflexivity.
Qed.

Lemma demo_checked_read_ok : ubd_read_ok Demo_checked Demo_bdv.
Proof. intros e x n st raw e' H _. simpl in H. now inversion H. Qed.

Lemma demo_checked_stores : ubd_program_stores Demo_checked Demo_bdv.
Proof.
  intros e data a n st e' H Hst Hlen Hn. simpl in H.
  unfold Demo_checked_program in H.
  destruct ((0 <=? a) &&
            (a + Z.of_nat (List.length data)
             <=? Z.of_nat (List.length (Demo.d_bd e))) &&
            (Z.of_nat (List.length (Demo.d_bd e)) <=? 2 ^ 32)) eqn:C.
  2:{ inversion H. lia. }
  inversion H; subst st e'. clear H.
  apply andb_true_iff in C. destruct C as [C C3].
  apply andb_true_iff in C. destruct C as [C1 C2].
  apply Z.leb_le in C1, C2, C3.
  unfold region_bytes, Demo_bdv. cbn [Demo.d_bd]. unfold Demo.write_at.
  replace (a + Z.of_nat (List.length data)
           <=? Z.of_nat (List.length (Demo.d_bd e))) with true
    by (symmetry; now apply Z.leb_le).
  transitivity (map (fun i => nth i data xff) (seq 0 (List.length data)));
    [|apply map_nth_seq].
  rewrite <- Hlen. apply map_ext_in. intros i Hi. apply in_seq in Hi.
  rewrite u32_small by lia.
  replace (Z.to_nat (a + Z.of_nat i)) with (Z.to_nat a + i)%nat by lia.
  assert (Hf : List.length (firstn (Z.to_nat a) (Demo.d_bd e)) = Z.to_nat a)
    by (apply firstn_length_le; lia).
  rewrite app_nth2 by (rewrite Hf; lia). rewrite Hf.
  replace (Z.to_nat a + i - Z.to_nat a)%nat with i by lia.
  apply app_nth1. lia.
Qed.

Lemma mirror_skips_current_target_witness :
  let P := Demo_checked in
  let uninit := mkDetails 0 0 [] in
  let w := Demo.world Demo.cfg0 Demo.dev0 in
  let first := copyActiveApplicationIntoFlash P 8 uninit 0 w in
  let second := copyActiveApplicationIntoFlash P 8 uninit 0 (world_of first) in
  value_of first = Some RESULT_SUCCESS /\
  Exists (fun ev => ~ no_copy ev) (trace (world_of first)) /\
  value_of second = Some RESULT_SUCCESS /\
  Forall no_copy (new_events (world_of first) (world_of second)).
Proof.
  intros P uninit w first second.
  destruct (mirror_skips_current_target P Demo_bdv 8 uninit
              (Demo.d_header Demo.dev0) 0) as [_ Htwo].
  destruct (Htwo demo_checked_kept demo_checked_read_ok demo_checked_stores
                 ltac:(repeat split; vm_compute; congruence))
    as [Hfirst Hsecond].
  pose (w2 := world_of (readActiveFirmwareHeader P 8 (Some uninit)
                          (mirror_started w 0 Demo.dev0))).
  pose (w5 := world_of (mirror_loop P 8 6 (u32 4) (u32 6) 0 (u32 (0 + 34))
                          (after_bd_read w2 0 34 0 Demo.dev0))).
  destruct (Hfirst w w2 w5 Demo.dev0 Demo.dev0
              (region_bytes (Demo_bdv Demo.dev0) 0 34) 0
              ltac:(reflexivity) ltac:(vm_compute; reflexivity)
              ltac:(simpl; lia) ltac:(vm_compute; reflexivity)
              ltac:(left; vm_compute; discriminate)
              ltac:(vm_compute; reflexivity)
              ltac:(vm_compute; reflexivity) ltac:(reflexivity))
    as (w1 & Hrun & _ & Hcur).
  assert (E : world_of first = w1) by (unfold first; now rewrite Hrun).
  split; [unfold first; now rewrite Hrun|].
  subst w1.
  split.
  { vm_compute. do 5 apply Exists_cons_tl. apply Exists_cons_hd.
    intros H; exact H. }
  exact (Hsecond (world_of first)
           (world_of (readActiveFirmwareHeader P 8 (Some uninit)
                        (mirror_started (world_of first) 0
                                        (env (world_of first)))))
           (env (world_of first)) Hcur
           ltac:(reflexivity) ltac:(vm_compute; reflexivity)
           ltac:(simpl; lia) ltac:(reflexivity)).
Defined.

(** C8, counterexample.  On a block device whose program call at the
    offset of the details record fails and writes nothing, the first
    call copies the image, finds the digests equal and returns
    [RESULT_SUCCESS], the status of the failed write being dropped; the
    second call finds no current record and reads the flash again. *)
Lemma second_mirror_copies_again :
  ~ mirror_twice_as_specified
      (with_ubd_program (Demo.platform Demo.cfg0) Demo_lost_record) 8
      (mkDetails 0 0 []) 0 (Demo.world Demo.cfg0 Demo.dev0).
Proof.
  intros H.
  destruct (H (world_of
                 (copyActiveApplicationIntoFlash
                    (with_ubd_program (Demo.platform Demo.cfg0)
                                      Demo_lost_record) 8
                    (mkDetails 0 0 []) 0 (Demo.world Demo.cfg0 Demo.dev0)))
              ltac:(vm_compute; reflexivity)) as [_ HF].
  vm_compute in HF.
  rewrite Forall_forall in HF.
  apply (HF (EvFlashRead 4 4 0)).
  repeat (try (left; reflexivity); right).
Qed.
